(** * Verification of the reaction-database scrapers ([ORD.py], [CRD/CRD.py])

    A shallow embedding of the paginated discovery, the per-item fetch with
    retry, the result ordering and the two payload normalisers, together with
    the properties the specification states about them.

    Layout:
    - [Py]  : the fragment of Python the sources rely on (dynamic values,
              exceptions, string and dict primitives, the stable [list.sort]);
    - [Web] : Selenium elements as the sources observe them;
    - [ORD] : [src/ORD.py];
    - [CRD] : [src/CRD/CRD.py];
    - [PyText] : integers as text, list indexing;
    - [ORDMain], [CRDMain] : the entry count, the dataset loop, the table
      and the export of [ORD.py]; the selection dialogue and the exports of
      [CRD.py];
    - [Scenario] : concrete sites, drivers and payloads;
    - [PyFacts], [ORDFacts], [TraversalFacts], [NormaliserFacts], [NextFacts],
      [EmitFacts], [GroupFacts] : lemmas about the loops;
    - [Properties] : one theorem per specification claim;
    - [TextFacts], [ORDBehaviour], [CRDBehaviour], [CRDMainBehaviour] :
      further properties of the code.

    Conventions. Strings are byte strings; case, white space, digits and
    lengths are those of ASCII text, and the theorems about roles, typed
    lines, the pagination label and the table say where the text has to be
    ASCII for that. The browser, the HTTP session, the parsers and the
    files written are collaborators: what they answer is data of the model
    ([view], [detail_page], [listing]) or a function handed in. A loop that the site can keep alive forever takes a
    bound on the number of pages and reports [Running] when it is reached.
    Sleeps, console output and the progress counter are left out. *)

From Stdlib Require Import ZArith List String Ascii Bool Lia Permutation PrimFloat.
From stdpp Require Import base option list strings gmap pretty sorting.

Local Open Scope string_scope.
Local Open Scope Z_scope.
Local Open Scope list_scope.

(* ===================================================================== *)
(** * Python fragment *)
(* ===================================================================== *)
Module Py.

(** Values produced by [json.loads] and the dicts the scrapers build.
    A dict is an association list in insertion order. *)
#[warnings="-register-all"]
Inductive pyval :=
| PNone
| PBool (b : bool)
| PInt (z : Z)
| PFloat (f : float)
| PStr (s : string)
| PList (l : list pyval)
| PDict (d : list (string * pyval)).

(** Exceptions, by class. *)
Inductive exn :=
| KeyError (k : string)
| IndexError
| TypeError
| AttributeError
| TimeoutException
| WebDriverException
| JSONDecodeError
| Exception (msg : string).

(** [str(e)] as used when a worker's exception is turned into a result:
    the message of an [Exception], the quoted key of a [KeyError], and for
    the other classes a text that stands for the interpreter's message. *)
Definition exn_text (e : exn) : string :=
  match e with
  | KeyError k => "'" +:+ k +:+ "'"
  | IndexError => "list index out of range"
  | TypeError => "TypeError"
  | AttributeError => "AttributeError"
  | TimeoutException => "Message: "
  | WebDriverException => "Message: "
  | JSONDecodeError => "JSONDecodeError"
  | Exception msg => msg
  end.

(** A computation that returns or raises. *)
Inductive res (A : Type) :=
| Ok (a : A)
| Raise (e : exn).
Arguments Ok {A} a.
Arguments Raise {A} e.

#[global] Instance res_ret : MRet res := λ A a, Ok a.
#[global] Instance res_bind : MBind res := λ A B f m,
  match m with Ok a => f a | Raise e => Raise e end.

(** [try: m except: h] with a bare [except]. *)
Definition try_except {A} (m : res A) (h : A) : A :=
  match m with Ok a => a | Raise _ => h end.

Definition is_ok {A} (m : res A) : bool :=
  match m with Ok _ => true | Raise _ => false end.

(** ** Strings *)

Definition is_upper (c : ascii) : bool :=
  let n := nat_of_ascii c in (65 <=? n)%nat && (n <=? 90)%nat.

Definition lower_char (c : ascii) : ascii :=
  if is_upper c then ascii_of_nat (nat_of_ascii c + 32) else c.

(** [s.lower()] on an ASCII text: the letters A to Z change, every other
    character is left as it is. *)
Fixpoint lower (s : string) : string :=
  match s with
  | EmptyString => EmptyString
  | String c t => String (lower_char c) (lower t)
  end.

(** A text of ASCII characters only. On such a text the byte string of the
    model and the [str] of the source have the same length, slices, case,
    white space and digits. *)
Definition is_ascii_char (c : ascii) : bool := (nat_of_ascii c <? 128)%nat.

Fixpoint is_ascii (s : string) : bool :=
  match s with
  | EmptyString => true
  | String c t => is_ascii_char c && is_ascii t
  end.

(** [s.startswith(p)] *)
Definition startswith (s p : string) : bool := String.prefix p s.

(** [sub in s] *)
Fixpoint contains (sub s : string) : bool :=
  String.prefix sub s ||
  match s with
  | EmptyString => false
  | String _ t => contains sub t
  end.

(** [s.split(sep)] for a one-character separator: never empty. *)
Fixpoint split (sep : ascii) (s : string) : list string :=
  match s with
  | EmptyString => [EmptyString]
  | String c t =>
      if Ascii.eqb c sep then EmptyString :: split sep t
      else match split sep t with
           | [] => [String c EmptyString]
           | w :: ws => String c w :: ws
           end
  end.

(** [s.split('/')[-1]] *)
Definition last_segment (s : string) : string :=
  List.last (split "/" s) EmptyString.

Definition is_space (c : ascii) : bool :=
  let n := nat_of_ascii c in
  ((9 <=? n)%nat && (n <=? 13)%nat) || ((28 <=? n)%nat && (n <=? 32)%nat).

Fixpoint lstrip (s : string) : string :=
  match s with
  | EmptyString => EmptyString
  | String c t => if is_space c then lstrip t else s
  end.

(** [s.strip()] *)
Definition strip (s : string) : string :=
  String.rev (lstrip (String.rev (lstrip s))).

(** [sep.join(l)] *)
Fixpoint join (sep : string) (l : list string) : string :=
  match l with
  | [] => EmptyString
  | [s] => s
  | s :: t => s +:+ sep +:+ join sep t
  end.

(** Truthiness of a string ([if s:]). *)
Definition nonempty (s : string) : bool :=
  match s with EmptyString => false | _ => true end.

(** ** Dynamic values *)

Fixpoint float_of_pos (p : positive) : float :=
  match p with
  | xH => 1%float
  | xO q => PrimFloat.mul 2%float (float_of_pos q)
  | xI q => PrimFloat.add (PrimFloat.mul 2%float (float_of_pos q)) 1%float
  end.

(** The float that a small integer literal compares equal to. *)
Definition float_of_Z (k : Z) : float :=
  match k with
  | Z0 => 0%float
  | Zpos p => float_of_pos p
  | Zneg p => PrimFloat.opp (float_of_pos p)
  end.

(** [v == k] for an integer literal [k] (|k| below 2^53): numbers compare by
    value across int, bool and float; everything else is unequal. *)
Definition eq_int (v : pyval) (k : Z) : bool :=
  match v with
  | PInt z => Z.eqb z k
  | PBool b => Z.eqb (Z.b2z b) k
  | PFloat f => PrimFloat.eqb f (float_of_Z k)
  | _ => false
  end.

(** [bool(v)] *)
Definition truthy (v : pyval) : bool :=
  match v with
  | PNone => false
  | PBool b => b
  | PInt z => negb (Z.eqb z 0)
  | PFloat f => negb (PrimFloat.eqb f 0%float)
  | PStr s => nonempty s
  | PList l => match l with [] => false | _ => true end
  | PDict d => match d with [] => false | _ => true end
  end.

(** Lookup in a dict body: first binding of the key. *)
Fixpoint assoc {V} (k : string) (d : list (string * V)) : option V :=
  match d with
  | [] => None
  | (k', v) :: t => if String.eqb k k' then Some v else assoc k t
  end.

(** [d[k] = v] on a dict body: replace in place, or append. *)
Fixpoint assoc_set {V} (k : string) (v : V) (d : list (string * V)) : list (string * V) :=
  match d with
  | [] => [(k, v)]
  | (k', v') :: t =>
      if String.eqb k k' then (k, v) :: t else (k', v') :: assoc_set k v t
  end.

(** [v.get(k, default)]: only dicts have [get]. *)
Definition get (v : pyval) (k : string) (default : pyval) : res pyval :=
  match v with
  | PDict d => Ok (from_option id default (assoc k d))
  | _ => Raise AttributeError
  end.

(** [v[k]] for a string key. *)
Definition getitem (v : pyval) (k : string) : res pyval :=
  match v with
  | PDict d => match assoc k d with Some x => Ok x | None => Raise (KeyError k) end
  | _ => Raise TypeError
  end.

Definition is_dict (v : pyval) : bool :=
  match v with PDict _ => true | _ => false end.

(** The value [v.get(k, default)] yields on a dict. *)
Definition lookup_or (v : pyval) (k : string) (default : pyval) : pyval :=
  match v with
  | PDict d => from_option id default (assoc k d)
  | _ => default
  end.

(** [k in v] for a string [k]. *)
Definition has (v : pyval) (k : string) : res bool :=
  match v with
  | PDict d => Ok (bool_decide (is_Some (assoc k d)))
  | PList l => Ok (existsb (λ x, match x with PStr s => String.eqb s k | _ => false end) l)
  | PStr s => Ok (contains k s)
  | _ => Raise TypeError
  end.

Fixpoint chars (s : string) : list pyval :=
  match s with
  | EmptyString => []
  | String c t => PStr (String c EmptyString) :: chars t
  end.

(** [for x in v]: the sequence iterated over. *)
Definition iter (v : pyval) : res (list pyval) :=
  match v with
  | PList l => Ok l
  | PDict d => Ok (map (λ kv, PStr (fst kv)) d)
  | PStr s => Ok (chars s)
  | _ => Raise TypeError
  end.

(** What a [for] loop over [v] visits; nothing when [v] is not iterable. *)
Definition elements (v : pyval) : list pyval :=
  match iter v with Ok l => l | Raise _ => [] end.

(** An iterable value all of whose elements pass [P]. *)
Definition list_of (P : pyval → bool) (v : pyval) : bool :=
  is_ok (iter v) && forallb P (elements v).

(** [v[i]] for the literal indices 0 and 1. *)
Definition index (v : pyval) (i : nat) : res pyval :=
  match v with
  | PList l => match nth_error l i with Some x => Ok x | None => Raise IndexError end
  | PStr s => match nth_error (chars s) i with Some x => Ok x | None => Raise IndexError end
  | PDict _ => Raise (KeyError (pretty i))
  | _ => Raise TypeError
  end.

(** ** [list.sort(key=...)]

    CPython computes every key first, then sorts stably and ascending on the
    keys. A stable sort has one possible result, given here by insertion. *)
Section Sort.
Context {A : Type}.

(** Order of the decorated entries. *)
Definition key_le : relation (Z * A) := λ a b, fst a ≤ fst b.

Fixpoint insert_by (kx : Z * A) (l : list (Z * A)) : list (Z * A) :=
  match l with
  | [] => [kx]
  | ky :: t => if Z.ltb (fst kx) (fst ky) then kx :: l else ky :: insert_by kx t
  end.

(** A later arrival goes after the earlier ones of equal key. *)
Definition stable_sort (l : list (Z * A)) : list (Z * A) :=
  fold_left (λ acc kx, insert_by kx acc) l [].

Fixpoint keys_of (key : A → res Z) (l : list A) : res (list (Z * A)) :=
  match l with
  | [] => Ok []
  | x :: t => k ← key x; kt ← keys_of key t; Ok ((k, x) :: kt)
  end.

Definition sort_by (key : A → res Z) (l : list A) : res (list A) :=
  kl ← keys_of key l; Ok (map snd (stable_sort kl)).
End Sort.

End Py.

(* ===================================================================== *)
(** * Selenium elements *)
(* ===================================================================== *)
Module Web.
Import Py.

(** A DOM element as a scraper can observe it. A stale element raises on
    every call. *)
Record element := {
  stale : bool;
  displayed : bool;
  enabled : bool;
  attrs : gmap string string;
}.

Definition is_displayed (e : element) : res bool :=
  if stale e then Raise WebDriverException else Ok (displayed e).

Definition is_enabled (e : element) : res bool :=
  if stale e then Raise WebDriverException else Ok (enabled e).

(** [e.get_attribute(name)]: [None] when the attribute is absent. *)
Definition get_attribute (e : element) (name : string) : res (option string) :=
  if stale e then Raise WebDriverException else Ok (attrs e !! name).

(** The same element carrying attribute [name] with value [v]. *)
Definition with_attr (name v : string) (e : element) : element :=
  {| stale := stale e; displayed := displayed e; enabled := enabled e;
     attrs := <[name := v]> (attrs e) |}.

(** Truthiness of an attribute value ([if href:]). *)
Definition present (a : option string) : bool :=
  match a with Some s => nonempty s | None => false end.

End Web.

(* ===================================================================== *)
(** * [src/ORD.py] *)
(* ===================================================================== *)
Module ORD.
Import Py Web.

(** ** Listing traversal *)

(** What one listing page answers to the three element queries. *)
Record view := {
  links_css : res (list element);
  links_xpath : res (list element);
  next_controls : res (list element);
}.

(** The browser session on a listing: [site n] is the page shown after [n]
    activations of a next control. [reachable] is the outcome of the initial
    [driver.get] and wait, [entries_hint] what [get_total_entries] returns. *)
Record browser := {
  reachable : bool;
  entries_hint : option Z;
  clicks : nat;
  site : nat → view;
}.

Definition dom (b : browser) : view := site b (clicks b).

(** [driver.execute_script("arguments[0].click();", btn)] *)
Definition click (b : browser) : browser :=
  {| reachable := reachable b; entries_hint := entries_hint b;
     clicks := S (clicks b); site := site b |}.

(** The loop variables of both traversals. *)
Record scan := {
  ids : list string;
  page : Z;
  prev_count : Z;
  session : browser;
}.

Inductive step :=
| Break (s : scan)
| Return (r : list string) (s : scan)
| Continue (s : scan).

(** Ids held by a step's outcome. *)
Definition step_ids (st : step) : list string :=
  match st with
  | Break s | Continue s => ids s
  | Return r _ => r
  end.

(** Result of running the [while True] loop for a bounded number of pages. *)
Inductive run :=
| Returned (r : list string) (s : scan)
| Running (s : scan).

Definition collected (r : run) : list string :=
  match r with Returned l _ => l | Running s => ids s end.

(** [if total_entries and current_count >= total_entries] *)
Definition all_collected (total_entries : option Z) (current_count : Z) : bool :=
  match total_entries with
  | Some t => negb (Z.eqb t 0) && Z.leb t current_count
  | None => false
  end.

(** The body of [for btn in all_buttons]: does this control get clicked? *)
Definition clickable (btn : element) : res bool :=
  shown ← is_displayed btn;
  if (shown : bool) then
    usable ← is_enabled btn;
    if (usable : bool) then
      disabled ← get_attribute btn "disabled";
      aria_disabled ← get_attribute btn "aria-disabled";
      cls ← get_attribute btn "class";
      let class_attr := default "" cls in
      if present disabled
         || bool_decide (aria_disabled = Some "true")
         || contains "disabled" (lower class_attr)
      then Ok false
      else Ok true
    else Ok false
  else Ok false.

(** First control that passes; a control that raises is skipped. *)
Fixpoint click_next (all_buttons : list element) (b : browser) : option browser :=
  match all_buttons with
  | [] => None
  | btn :: rest =>
      if try_except (clickable btn) false then Some (click b)
      else click_next rest b
  end.

(** The next-button block shared by both traversals. *)
Definition advance (s : scan) : step :=
  match next_controls (dom (session s)) with
  | Raise _ => Break s
  | Ok all_buttons =>
      match click_next all_buttons (session s) with
      | Some b' =>
          Continue {| ids := ids s; page := page s + 1;
                      prev_count := prev_count s; session := b' |}
      | None => Break s
      end
  end.

(** *** [get_all_dataset_ids] *)

Fixpoint collect_dataset_ids (dataset_links : list element)
    (all_dataset_ids : list string) : list string :=
  match dataset_links with
  | [] => all_dataset_ids
  | link :: rest =>
      match get_attribute link "href" with
      | Ok (Some href) =>
          if nonempty href then
            let dataset_id := last_segment href in
            if nonempty dataset_id && negb (bool_decide (dataset_id ∈ all_dataset_ids))
            then collect_dataset_ids rest (all_dataset_ids ++ [dataset_id])
            else collect_dataset_ids rest all_dataset_ids
          else collect_dataset_ids rest all_dataset_ids
      | _ => collect_dataset_ids rest all_dataset_ids
      end
  end.

Definition dataset_page (total_entries : option Z) (s : scan) : step :=
  match links_css (dom (session s)) with
  | Raise _ => Break s
  | Ok dataset_links =>
      match dataset_links with
      | [] => Break s
      | _ =>
          let all_dataset_ids := collect_dataset_ids dataset_links (ids s) in
          let current_count := Z.of_nat (length all_dataset_ids) in
          let s1 := {| ids := all_dataset_ids; page := page s;
                       prev_count := prev_count s; session := session s |} in
          if all_collected total_entries current_count then Break s1
          else if Z.eqb current_count (prev_count s) then Break s1
          else advance {| ids := all_dataset_ids; page := page s;
                          prev_count := current_count; session := session s |}
      end
  end.

Fixpoint dataset_loop (fuel : nat) (total_entries : option Z) (s : scan) : run :=
  match fuel with
  | O => Running s
  | S fuel' =>
      match dataset_page total_entries s with
      | Break s' => Returned (ids s') s'
      | Return r s' => Returned r s'
      | Continue s' => dataset_loop fuel' total_entries s'
      end
  end.

Definition start (b : browser) : scan :=
  {| ids := []; page := 1; prev_count := 0; session := b |}.

(** [get_all_dataset_ids]: raises when the browse page cannot be opened. *)
Definition get_all_dataset_ids (fuel : nat) (b : browser) : res run :=
  if reachable b then Ok (dataset_loop fuel (entries_hint b) (start b))
  else Raise WebDriverException.

(** *** [get_all_reaction_ids_from_dataset] *)

(** [l[:m]] *)
Definition slice_to {A} (l : list A) (m : Z) : list A :=
  if Z.ltb m 0 then take (Z.to_nat (Z.of_nat (length l) + m)) l
  else take (Z.to_nat m) l.

(** [if max_reactions and len(all_reaction_ids) >= max_reactions] *)
Definition limit_reached (max_reactions : option Z) (n : Z) : bool :=
  match max_reactions with
  | Some m => negb (Z.eqb m 0) && Z.leb m n
  | None => false
  end.

(** The link loop: [inl r] is the early [return r]. *)
Fixpoint collect_reaction_ids (max_reactions : option Z) (reaction_links : list element)
    (all_reaction_ids : list string) : list string + list string :=
  match reaction_links with
  | [] => inr all_reaction_ids
  | link :: rest =>
      match get_attribute link "href" with
      | Ok (Some href) =>
          if nonempty href then
            let reaction_id := last_segment href in
            if startswith reaction_id "ord-"
               && negb (bool_decide (reaction_id ∈ all_reaction_ids))
            then
              let all' := all_reaction_ids ++ [reaction_id] in
              if limit_reached max_reactions (Z.of_nat (length all'))
              then inl (slice_to all' (default 0 max_reactions))
              else collect_reaction_ids max_reactions rest all'
            else collect_reaction_ids max_reactions rest all_reaction_ids
          else collect_reaction_ids max_reactions rest all_reaction_ids
      | _ => collect_reaction_ids max_reactions rest all_reaction_ids
      end
  end.

(** The CSS query, then the XPath query when the first finds nothing. *)
Definition find_reaction_links (v : view) : res (list element) :=
  reaction_links ← links_css v;
  match reaction_links with
  | [] => links_xpath v
  | _ => Ok reaction_links
  end.

Definition reaction_page (total_entries max_reactions : option Z) (s : scan) : step :=
  match find_reaction_links (dom (session s)) with
  | Raise _ => Break s
  | Ok reaction_links =>
      match reaction_links with
      | [] => Break s
      | _ =>
          match collect_reaction_ids max_reactions reaction_links (ids s) with
          | inl r => Return r s
          | inr all_reaction_ids =>
              let current_count := Z.of_nat (length all_reaction_ids) in
              let s1 := {| ids := all_reaction_ids; page := page s;
                           prev_count := prev_count s; session := session s |} in
              if all_collected total_entries current_count then Break s1
              else if Z.eqb current_count (prev_count s) then Break s1
              else advance {| ids := all_reaction_ids; page := page s;
                              prev_count := current_count; session := session s |}
          end
      end
  end.

Fixpoint reaction_loop (fuel : nat) (total_entries max_reactions : option Z) (s : scan) : run :=
  match fuel with
  | O => Running s
  | S fuel' =>
      match reaction_page total_entries max_reactions s with
      | Break s' => Returned (ids s') s'
      | Return r s' => Returned r s'
      | Continue s' => reaction_loop fuel' total_entries max_reactions s'
      end
  end.

(** [get_all_reaction_ids_from_dataset]: an exception while opening the
    dataset page is caught and [[]] returned. *)
Definition get_all_reaction_ids_from_dataset (fuel : nat) (b : browser)
    (max_reactions : option Z) : run :=
  if reachable b then reaction_loop fuel (entries_hint b) max_reactions (start b)
  else Returned [] (start b).

(** ** Payload normaliser, per-item fetch, ordering *)

(** [[(i, x) for i, x in enumerate(l)]], counting from [i]. *)
Fixpoint enumerate_from {A} (i : Z) (l : list A) : list (Z * A) :=
  match l with
  | [] => []
  | x :: t => (i, x) :: enumerate_from (i + 1) t
  end.

Definition roles : list (Z * string) :=
  [ (0, "UNSPECIFIED"); (1, "REACTANT"); (2, "REAGENT"); (3, "SOLVENT");
    (4, "CATALYST"); (5, "WORKUP"); (6, "INTERNAL_STANDARD");
    (7, "AUTHENTIC_STANDARD"); (8, "PRODUCT"); (9, "BYPRODUCT");
    (10, "SIDE_PRODUCT") ].

Definition hashable (v : pyval) : bool :=
  match v with PList _ | PDict _ => false | _ => true end.

(** [result[k] = v] *)
Definition setitem (d : pyval) (k : string) (v : pyval) : res pyval :=
  match d with
  | PDict b => Ok (PDict (assoc_set k v b))
  | _ => Raise TypeError
  end.

(** One answer of the site to [driver.get(url)] and the waits that follow. *)
Record detail_page := {
  loads : bool;                (* driver.get returns *)
  ready : bool;                (* readyState complete within 10 s *)
  button_css : bool;           (* full-record button, CSS selector *)
  button_xpath : bool;         (* full-record button, XPath selector *)
  click_ok : bool;             (* the click script runs *)
  modal : bool;                (* modal container visible within 8 s *)
  pre_text : option string;    (* text of the data element, if it appears *)
}.

(** A worker's browser: [respond url n] is what the [n]-th navigation of the
    session observes; [gets] counts the navigations made so far. *)
Record driver := {
  gets : nat;
  respond : string → nat → detail_page;
}.

Definition default_max_retries : Z := 2.

(** [f"https://open-reaction-database.org/id/{reaction_id}"] *)
Definition detail_url (reaction_id : string) : string :=
  "https://open-reaction-database.org/id/" +:+ reaction_id.

Definition max_retries_exceeded (reaction_id : string) : pyval :=
  PDict [ ("reaction_id", PStr reaction_id); ("data", PNone);
          ("success", PBool false); ("error", PStr "Max retries exceeded") ].

(** The dict built when [future.result()] raises. *)
Definition failed_future (rid : string) (e : exn) : pyval :=
  PDict [ ("reaction_id", PStr rid); ("success", PBool false);
          ("error", PStr (exn_text e)) ].

(** [reaction_order.get(k, d)] *)
Definition order_get (reaction_order : gmap string Z) (k : pyval) (d : Z) : res Z :=
  match k with
  | PStr s => Ok (default d (reaction_order !! s))
  | PList _ | PDict _ => Raise TypeError
  | _ => Ok d
  end.

(** The dict a successful attempt returns. *)
Definition fetched (reaction_id : string) (data : pyval) : pyval :=
  PDict [ ("reaction_id", PStr reaction_id); ("data", data); ("success", PBool true) ].

(** What the aggregation loop appends for one future: its result, or the
    failure dict when [future.result()] raises. *)
Definition settle (rid : string) (future : res pyval) : pyval :=
  match future with Ok r => r | Raise e => failed_future rid e end.

(** One step of the dict comprehension that builds the discovery index. *)
Definition index_insert (m : gmap string Z) (ir : Z * string) : gmap string Z :=
  <[snd ir := fst ir]> m.

(** The result carries a reaction id the discovery index knows. *)
Definition indexed (reaction_ids : list string) (x : pyval) : bool :=
  match getitem x "reaction_id" with
  | Ok (PStr s) => bool_decide (s ∈ reaction_ids)
  | _ => false
  end.

Section Collaborators.
(** [repr] of a float and [json.loads] are the interpreter's. *)
Context (float_repr : float → string) (json_loads : string → res pyval).

(** [f"{v}"] for a hashable value. *)
Definition format_value (v : pyval) : string :=
  match v with
  | PNone => "None"
  | PBool true => "True"
  | PBool false => "False"
  | PInt z => pretty z
  | PFloat f => float_repr f
  | PStr s => s
  | _ => ""
  end.

(** [roles.get(role_code, f"UNKNOWN_{role_code}")] *)
Definition get_reaction_role_name (role_code : pyval) : res string :=
  if hashable role_code then
    Ok (match List.find (λ kv, eq_int role_code (fst kv)) roles with
        | Some kv => snd kv
        | None => "UNKNOWN_" +:+ format_value role_code
        end)
  else Raise TypeError.

(** The identifier loop, shared in shape by components and products. *)
Fixpoint smiles_identifiers (identifiers_list identifiers : list pyval)
    : res (list pyval) :=
  match identifiers_list with
  | [] => Ok identifiers
  | identifier :: rest =>
      ty ← get identifier "type" PNone;
      if eq_int ty 2 then
        value ← get identifier "value" PNone;
        smiles_identifiers rest
          (identifiers ++ [PDict [("type", PStr "SMILES"); ("value", value)]])
      else smiles_identifiers rest identifiers
  end.

Fixpoint format_components (components formatted_components : list pyval)
    : res (list pyval) :=
  match components with
  | [] => Ok formatted_components
  | component :: rest =>
      il ← get component "identifiersList" (PList []);
      identifiers_list ← iter il;
      identifiers ← smiles_identifiers identifiers_list [];
      role_code ← get component "reactionRole" PNone;
      reaction_role ← get_reaction_role_name role_code;
      format_components rest
        (formatted_components ++
           [PDict [("identifiers", PList identifiers);
                   ("reaction_role", PStr reaction_role)]])
  end.

Fixpoint format_inputs (inputs_map formatted_inputs : list pyval)
    : res (list pyval) :=
  match inputs_map with
  | [] => Ok formatted_inputs
  | input_entry :: rest =>
      tab_name ← index input_entry 0;
      input_data ← index input_entry 1;
      cl ← get input_data "componentsList" (PList []);
      components ← iter cl;
      formatted_components ← format_components components [];
      format_inputs rest
        (formatted_inputs ++
           [PList [tab_name; PDict [("components", PList formatted_components)]]])
  end.

Fixpoint format_products (products outcomes : list pyval) : res (list pyval) :=
  match products with
  | [] => Ok outcomes
  | product :: rest =>
      il ← get product "identifiersList" (PList []);
      identifiers_list ← iter il;
      identifiers ← smiles_identifiers identifiers_list [];
      desired ← get product "isDesiredProduct" (PBool false);
      format_products rest
        (outcomes ++
           [PDict [("identifiers", PList identifiers);
                   ("reaction_role", PStr "PRODUCT");
                   ("is_desired_product", desired)]])
  end.

Fixpoint format_outcomes (outcomes_list outcomes : list pyval) : res (list pyval) :=
  match outcomes_list with
  | [] => Ok outcomes
  | outcome :: rest =>
      pl ← get outcome "productsList" (PList []);
      products ← iter pl;
      outcomes' ← format_products products outcomes;
      format_outcomes rest outcomes'
  end.

(** [format_reaction_data(reaction_data)] *)
Definition format_reaction_data (reaction_data : pyval) : res pyval :=
  if negb (truthy reaction_data) then Ok PNone else
  has_data ← has reaction_data "data";
  if negb has_data then Ok PNone else
  data ← getitem reaction_data "data";
  reaction_id ← get data "reactionId" PNone;
  success ← getitem reaction_data "success";
  has_inputs ← has data "inputsMap";
  inputs ← (if (has_inputs : bool) then
               im ← getitem data "inputsMap";
               inputs_map ← iter im;
               format_inputs inputs_map []
             else Ok []);
  has_outcomes ← has data "outcomesList";
  outcomes ← (if (has_outcomes : bool) then
                 ol ← getitem data "outcomesList";
                 outcomes_list ← iter ol;
                 format_outcomes outcomes_list []
               else Ok []);
  Ok (PDict [ ("reaction_id", reaction_id); ("success", success);
              ("inputsMap", PList inputs); ("outcomes", PList outcomes) ]).

(** *** The normaliser read as maps and filters

    The record the normaliser is expected to build from a payload, and the
    payloads it can be built from: dicts where the loops call [get],
    iterables where they iterate, a hashable role code. *)

Definition is_smiles (identifier : pyval) : bool :=
  eq_int (lookup_or identifier "type" PNone) 2.

Definition smiles_entry (identifier : pyval) : pyval :=
  PDict [("type", PStr "SMILES"); ("value", lookup_or identifier "value" PNone)].

Definition identifiers_of (c : pyval) : list pyval :=
  elements (lookup_or c "identifiersList" (PList [])).

Definition kept_identifiers (c : pyval) : list pyval :=
  map smiles_entry (List.filter is_smiles (identifiers_of c)).

Definition role_name (role_code : pyval) : string :=
  match get_reaction_role_name role_code with Ok s => s | Raise _ => "" end.

Definition normal_component (c : pyval) : pyval :=
  PDict [ ("identifiers", PList (kept_identifiers c));
          ("reaction_role", PStr (role_name (lookup_or c "reactionRole" PNone))) ].

Definition normal_product (p : pyval) : pyval :=
  PDict [ ("identifiers", PList (kept_identifiers p));
          ("reaction_role", PStr "PRODUCT");
          ("is_desired_product", lookup_or p "isDesiredProduct" (PBool false)) ].

Definition normal_input (input_entry : pyval) : pyval :=
  match index input_entry 0, index input_entry 1 with
  | Ok tab_name, Ok input_data =>
      PList [ tab_name;
              PDict [("components",
                      PList (map normal_component
                               (elements (lookup_or input_data "componentsList"
                                            (PList [])))))] ]
  | _, _ => PNone
  end.

Definition normal_record (data : pyval) : pyval :=
  PDict [ ("reaction_id", lookup_or data "reactionId" PNone);
          ("success", PBool true);
          ("inputsMap",
           PList (map normal_input (elements (lookup_or data "inputsMap" (PList [])))));
          ("outcomes",
           PList (flat_map
                    (λ o, map normal_product
                            (elements (lookup_or o "productsList" (PList []))))
                    (elements (lookup_or data "outcomesList" (PList []))))) ].

Definition wf_component (c : pyval) : bool :=
  is_dict c && list_of is_dict (lookup_or c "identifiersList" (PList []))
  && hashable (lookup_or c "reactionRole" PNone).

Definition wf_input (input_entry : pyval) : bool :=
  match index input_entry 0, index input_entry 1 with
  | Ok _, Ok input_data =>
      is_dict input_data
      && list_of wf_component (lookup_or input_data "componentsList" (PList []))
  | _, _ => false
  end.

Definition wf_product (p : pyval) : bool :=
  is_dict p && list_of is_dict (lookup_or p "identifiersList" (PList [])).

Definition wf_outcome (o : pyval) : bool :=
  is_dict o && list_of wf_product (lookup_or o "productsList" (PList [])).

Definition wf_payload (data : pyval) : bool :=
  is_dict data
  && list_of wf_input (lookup_or data "inputsMap" (PList []))
  && list_of wf_outcome (lookup_or data "outcomesList" (PList [])).

(** *** [scrape_reaction_data] *)

(** The [try] body of one attempt, after the navigation. *)
Definition read_record (reaction_id : string) (p : detail_page) : res pyval :=
  if negb (loads p) then Raise WebDriverException else
  if negb (ready p) then Raise TimeoutException else
  let button := button_css p || button_xpath p in
  if negb button then Raise (Exception "Could not find full-record button") else
  if negb (click_ok p) then Raise WebDriverException else
  if negb (modal p) then Raise TimeoutException else
  match pre_text p with
  | None => Raise TimeoutException
  | Some json_text =>
      if negb (nonempty json_text) || negb (startswith (strip json_text) "{")
      then Raise (Exception "Invalid JSON data")
      else
        reaction_data ← json_loads json_text;
        Ok (fetched reaction_id reaction_data)
  end.

(** The answer the site gives to the [k]-th navigation for this item. *)
Definition answer (d : driver) (rid : string) (k : nat) : res pyval :=
  read_record rid (respond d (detail_url rid) k).

(** The driver after [n] more navigations. *)
Definition after (d : driver) (n : nat) : driver :=
  {| gets := (gets d + n)%nat; respond := respond d |}.

(** One pass of the [for attempt in range(max_retries)] body. *)
Definition attempt_once (reaction_id : string) (d : driver) : res pyval * driver :=
  (answer d reaction_id (gets d), after d 1).

Fixpoint retry_loop (attempts : list Z) (reaction_id : string) (d : driver)
    : pyval * driver :=
  match attempts with
  | [] => (max_retries_exceeded reaction_id, d)
  | _ :: rest =>
      match attempt_once reaction_id d with
      | (Ok result, d') => (result, d')
      | (Raise _, d') => retry_loop rest reaction_id d'
      end
  end.

(** [scrape_reaction_data(driver, reaction_id, max_retries)]: the returned
    dict and the driver as the call leaves it. *)
Definition scrape_reaction_data (d : driver) (reaction_id : string)
    (max_retries : Z) : pyval * driver :=
  retry_loop (seqZ 0 max_retries) reaction_id d.

(** [scrape_single_reaction_wrapper]: [launch] is the outcome of
    [get_driver()]; [driver.quit()] in the [finally] is taken to return. *)
Definition scrape_single_reaction_wrapper (launch : res driver)
    (reaction_id : string) : res pyval :=
  d ← launch;
  let result := fst (scrape_reaction_data d reaction_id default_max_retries) in
  success ← getitem result "success";
  if truthy success then
    formatted ← format_reaction_data result;
    setitem result "formatted_data" formatted
  else Ok result.

(** *** [scrape_single_dataset_parallel] *)

(** The [as_completed] loop: [completed] lists the futures in completion
    order, each with the reaction id it was submitted for. *)
Fixpoint gather (completed : list (string * res pyval)) (reactions_data : list pyval)
    : list pyval :=
  match completed with
  | [] => reactions_data
  | (rid, future) :: rest =>
      gather rest (reactions_data ++ [settle rid future])
  end.

(** [{rid: i for i, rid in enumerate(reaction_ids)}] *)
Definition reaction_order (reaction_ids : list string) : gmap string Z :=
  fold_left index_insert (enumerate_from 0 reaction_ids) ∅.

(** [lambda x: reaction_order.get(x['reaction_id'], 999999)] *)
Definition discovery_rank (order : gmap string Z) (x : pyval) : res Z :=
  rid ← getitem x "reaction_id";
  order_get order rid 999999.

(** [sum(1 for r in reactions_data if r['success'])] *)
Fixpoint count_successful (reactions_data : list pyval) : res Z :=
  match reactions_data with
  | [] => Ok 0
  | r :: rest =>
      success ← getitem r "success";
      n ← count_successful rest;
      Ok (if truthy success then 1 + n else n)
  end.

(** The rank [list.sort] decorates a result with, 0 where the key raises. *)
Definition rank_of (reaction_ids : list string) (x : pyval) : Z :=
  match discovery_rank (reaction_order reaction_ids) x with
  | Ok z => z
  | Raise _ => 0
  end.

(** The ordering step on its own. *)
Definition restore_order (reaction_ids : list string) (reactions_data : list pyval)
    : res (list pyval) :=
  sort_by (discovery_rank (reaction_order reaction_ids)) reactions_data.

(** [ThreadPoolExecutor(max_workers=max_workers)]: the [ValueError] of a
    worker count that is not positive; [None] lets the pool choose. *)
Definition pool (max_workers : option Z) : res unit :=
  match max_workers with
  | Some n =>
      if Z.leb n 0 then Raise (Exception "max_workers must be greater than 0")
      else Ok tt
  | None => Ok tt
  end.

(** [scrape_single_dataset_parallel], from the discovered ids on and up
    to its [return]; starting and quitting the browser are left out. *)
Definition scrape_single_dataset_parallel (dataset_id : string) (max_workers : option Z)
    (reaction_ids : list string) (completed : list (string * res pyval)) : res pyval :=
  match reaction_ids with
  | [] =>
      Ok (PDict [ ("dataset_id", PStr dataset_id); ("reactions", PList []);
                  ("total_reactions", PInt 0); ("successful_scrapes", PInt 0);
                  ("error", PStr "No reactions found") ])
  | _ =>
      _ ← pool max_workers;
      reactions_data ← restore_order reaction_ids (gather completed []);
      successful ← count_successful reactions_data;
      Ok (PDict [ ("dataset_id", PStr dataset_id);
                  ("reactions", PList reactions_data);
                  ("total_reactions", PInt (Z.of_nat (length reactions_data)));
                  ("successful_scrapes", PInt successful) ])
  end.

End Collaborators.

End ORD.

(* ===================================================================== *)
(** * [src/CRD/CRD.py] *)
(* ===================================================================== *)
Module CRD.
Import Py Web.

(** ** [format_reaction_data] *)

(** [v.lower()]: only strings have it. *)
Definition str_lower (v : pyval) : res string :=
  match v with
  | PStr s => Ok (lower s)
  | _ => Raise AttributeError
  end.

(** [if role not in grouped_data: grouped_data[role] = []] followed by
    [grouped_data[role].append(item)]. *)
Definition group_add (role : string) (item : pyval)
    (grouped_data : list (string * list pyval)) : list (string * list pyval) :=
  match assoc role grouped_data with
  | None => grouped_data ++ [(role, [item])]
  | Some items => assoc_set role (items ++ [item]) grouped_data
  end.

Fixpoint group_by_role (chemicals_list : list pyval)
    (grouped_data : list (string * list pyval)) : res (list (string * list pyval)) :=
  match chemicals_list with
  | [] => Ok grouped_data
  | item :: rest =>
      r ← get item "role" (PStr "unknown");
      role ← str_lower r;
      group_by_role rest (group_add role item grouped_data)
  end.

(** [[i.get('name') for i in items if i.get('name')]], as [join] needs it. *)
Fixpoint display_names (items : list pyval) : res (list string) :=
  match items with
  | [] => Ok []
  | i :: rest =>
      n ← get i "name" PNone;
      names ← display_names rest;
      if truthy n then
        match n with
        | PStr s => Ok (s :: names)
        | _ => Raise TypeError
        end
      else Ok names
  end.

(** The loop over [grouped_data.items()]. *)
Fixpoint write_groups (grouped_data : list (string * list pyval))
    (output : list (string * pyval)) : res (list (string * pyval)) :=
  match grouped_data with
  | [] => Ok output
  | (role, items) :: rest =>
      names ← display_names items;
      write_groups rest
        (assoc_set (role +:+ "_details") (PList items)
           (assoc_set role (PStr (join " + " names)) output))
  end.

Definition format_reaction_data (parsed_data metadata : pyval) : res pyval :=
  chemicals_list ← getitem parsed_data "chemicals";
  raw_smiles ← getitem parsed_data "raw_smiles";
  origin ← get metadata "Reaction_Data_Origin" PNone;
  details_url ← get metadata "details_url" PNone;
  let output :=
    [ ("Reaction_Data_Origin", origin); ("details_url", details_url);
      ("smiles", raw_smiles); ("all_chemicals_raw", chemicals_list) ] in
  chemicals ← iter chemicals_list;
  grouped_data ← group_by_role chemicals [];
  output' ← write_groups grouped_data output;
  Ok (PDict output').

(** *** The grouping read off the component list *)

Definition is_str (v : pyval) : bool :=
  match v with PStr _ => true | _ => false end.

(** A component as [parse_xml_data] builds it: a dict whose role, when
    present, is a string and whose name is a string or falsy. *)
Definition wf_chemical (c : pyval) : bool :=
  is_dict c
  && is_str (lookup_or c "role" (PStr "unknown"))
  && (negb (truthy (lookup_or c "name" PNone)) || is_str (lookup_or c "name" PNone)).

(** The lower-cased role a component is grouped under. *)
Definition role_of (c : pyval) : string :=
  match lookup_or c "role" (PStr "unknown") with
  | PStr s => lower s
  | _ => EmptyString
  end.

(** The role of the component is an ASCII text, so that [str.lower] changes
    its letters A to Z and nothing else. *)
Definition ascii_role (c : pyval) : bool :=
  match lookup_or c "role" (PStr "unknown") with
  | PStr s => is_ascii s
  | _ => true
  end.

(** The components of one role, in encounter order. *)
Definition members (role : string) (chemicals : list pyval) : list pyval :=
  List.filter (λ c, String.eqb (role_of c) role) chemicals.

(** The non-empty names of a group, in encounter order. *)
Definition names_of (group : list pyval) : list string :=
  flat_map (λ c, match lookup_or c "name" PNone with
                 | PStr s => if nonempty s then [s] else []
                 | _ => []
                 end) group.

(** The two loops of [format_reaction_data] as folds. *)
Definition grouping (chemicals : list pyval) (grouped_data : list (string * list pyval))
    : list (string * list pyval) :=
  fold_left (λ g c, group_add (role_of c) c g) chemicals grouped_data.

Definition write_group (output : list (string * pyval)) (ri : string * list pyval)
    : list (string * pyval) :=
  assoc_set (fst ri +:+ "_details") (PList (snd ri))
    (assoc_set (fst ri) (PStr (join " + " (names_of (snd ri)))) output).

Definition written (grouped_data : list (string * list pyval))
    (output : list (string * pyval)) : list (string * pyval) :=
  fold_left write_group grouped_data output.

(** ** [parse_xml_data] *)

(** An [ElementTree] element: tag, text, children. *)
#[warnings="-register-all"]
Inductive xml :=
| Element (tag : string) (text : option string) (children : list xml).

Definition tag_of (e : xml) : string := match e with Element t _ _ => t end.
Definition text_of (e : xml) : option string := match e with Element _ x _ => x end.
Definition children_of (e : xml) : list xml := match e with Element _ _ c => c end.

(** All elements below [e], in document order. *)
Fixpoint descendants (e : xml) : list xml :=
  match e with
  | Element _ _ cs => flat_map (λ c, c :: descendants c) cs
  end.

(** [e.find(".//tag")] *)
Definition find_below (e : xml) (tag : string) : option xml :=
  List.find (λ c, String.eqb (tag_of c) tag) (descendants e).

(** [e.find(tag)] and [e.findall(tag)]: direct children. *)
Definition find_child (e : xml) (tag : string) : option xml :=
  List.find (λ c, String.eqb (tag_of c) tag) (children_of e).
Definition findall (e : xml) (tag : string) : list xml :=
  List.filter (λ c, String.eqb (tag_of c) tag) (children_of e).

Definition of_text (t : option string) : pyval :=
  match t with Some s => PStr s | None => PNone end.

(** The local [get_text(tag)]. *)
Definition get_text (molecule : xml) (tag : string) : pyval :=
  match find_child molecule tag with
  | Some node => of_text (text_of node)
  | None => PStr ""
  end.

Definition molecule_entry (molecule : xml) : res pyval :=
  role ← str_lower (get_text molecule "role");
  Ok (PDict [ ("name", get_text molecule "name");
              ("smiles", get_text molecule "smiles");
              ("role", PStr role);
              ("inchiKey", get_text molecule "inchiKey");
              ("ratio", get_text molecule "ratio");
              ("notes", get_text molecule "notes") ]).

(** The [role] text of a molecule is ASCII. *)
Definition ascii_role_text (molecule : xml) : bool :=
  match get_text molecule "role" with
  | PStr s => is_ascii s
  | _ => true
  end.

Fixpoint molecule_entries (molecules : list xml) : res (list pyval) :=
  match molecules with
  | [] => Ok []
  | m :: rest =>
      entry ← molecule_entry m;
      entries ← molecule_entries rest;
      Ok (entry :: entries)
  end.

(** A page anchor as BeautifulSoup shows it: its [.string] and [href]. *)
Record anchor := {
  a_string : option string;
  a_href : option string;
}.

(** One entry of [extract_list_items]' result, the dict [{"url": ...}]. *)
Record item := { url : string }.

(** What [driver.get(url)] leaves in the browser. *)
Record listing := {
  page_source : string;
  candidates : res (list element);
}.

(** The loop variables of [process_reaction_data]. *)
Record crawl := {
  reaction_data_list : list pyval;
  current_url : string;
  page_num : Z;
}.

Inductive run :=
| Returned (l : list pyval)
| Running (c : crawl).

Definition records (r : run) : list pyval :=
  match r with Returned l => l | Running c => reaction_data_list c end.

(** The [for btn in candidates] loop of the next-page logic. *)
Fixpoint next_link (cands : list element) (current_url : string) : res (option string) :=
  match cands with
  | [] => Ok None
  | btn :: rest =>
      shown ← is_displayed btn;
      if (shown : bool) then
        href ← get_attribute btn "href";
        if present href
           && negb (bool_decide (href = Some current_url))
           && negb (contains "#" (default "" href))
        then Ok href
        else next_link rest current_url
      else next_link rest current_url
  end.

Section Site.
(** The collaborators: the XML and HTML parsers, [urljoin], which raises a
    [ValueError] on a URL it cannot parse, the browser's page loads and the
    HTTP session. *)
Context (fromstring : string → res xml)
        (anchors_of : string → list anchor)
        (urljoin : string → string → res string)
        (driver_get : string → res listing)
        (session_get : string → res (Z * string)).

(** [parse_xml_data]: [PNone] stands for the [None] returned when anything
    raised. *)
Definition parse_xml_data (xml_string : string) : pyval :=
  try_except
    (root ← fromstring xml_string;
     let raw_smiles :=
       match find_below root "reactionSmiles" with
       | Some node => of_text (text_of node)
       | None => PStr ""
       end in
     chemicals_list ←
       match find_below root "participants" with
       | Some participants_node => molecule_entries (findall participants_node "molecule")
       | None => Ok []
       end;
     Ok (PDict [ ("chemicals", PList chemicals_list); ("raw_smiles", raw_smiles) ]))
    PNone.

(** [entry] is the record of some payload with at least one component. *)
Definition from_components (entry : pyval) : Prop :=
  ∃ reaction_data_id d_url xml_text chemicals,
    getitem (parse_xml_data xml_text) "chemicals" = Ok chemicals
    ∧ truthy chemicals = true
    ∧ format_reaction_data (parse_xml_data xml_text)
        (PDict [ ("Reaction_Data_Origin", PStr reaction_data_id);
                 ("details_url", PStr d_url) ]) = Ok entry.

(** [extract_list_items]: anchors whose string matches [Details] in any
    letter case and that carry a non-empty [href]. *)
Definition is_details (a : anchor) : bool :=
  match a_string a with
  | Some s => contains "details" (lower s)
  | None => false
  end.

Fixpoint items_of (detail_links : list anchor) (items : list item) : list item :=
  match detail_links with
  | [] => items
  | link :: rest =>
      if present (a_href link)
      then items_of rest (items ++ [{| url := default "" (a_href link) |}])
      else items_of rest items
  end.

Definition extract_list_items (page : listing) : list item :=
  items_of (List.filter is_details (anchors_of (page_source page))) [].

(** The export link of a detail page: first anchor whose [href] matches
    [/data/transfer/export/], else the first whose string is [XML]. *)
Definition find_xml_btn (html : string) : option anchor :=
  match List.find (λ a, match a_href a with
                        | Some h => contains "/data/transfer/export/" h
                        | None => false
                        end) (anchors_of html) with
  | Some a => Some a
  | None => List.find (λ a, bool_decide (a_string a = Some "XML")) (anchors_of html)
  end.

(** [if not u.startswith("http"): u = urljoin(base, u)] *)
Definition absolute (base u : string) : res string :=
  if startswith u "http" then Ok u else urljoin base u.

(** From the parsed XML on: the guard and the normaliser. *)
Definition normalise (reaction_data_id d_url xml_text : string) : res (option pyval) :=
  let parsed_data := parse_xml_data xml_text in
  if truthy parsed_data then
    chemicals ← getitem parsed_data "chemicals";
    if truthy chemicals then
      let meta := PDict [ ("Reaction_Data_Origin", PStr reaction_data_id);
                          ("details_url", PStr d_url) ] in
      final_entry ← format_reaction_data parsed_data meta;
      Ok (Some final_entry)
    else Ok None
  else Ok None.

(** The body of the inner [try]: the record to append, if any. *)
Definition extract_record (reaction_data_id d_url : string) : res (option pyval) :=
  detail_resp ← session_get d_url;
  if Z.eqb (fst detail_resp) 200 then
    match find_xml_btn (snd detail_resp) with
    | Some xml_btn =>
        match a_href xml_btn with
        | None => Raise (KeyError "href")
        | Some h =>
            xml_href ← absolute d_url h;
            xml_resp ← session_get xml_href;
            if Z.eqb (fst xml_resp) 200
            then normalise reaction_data_id d_url (snd xml_resp)
            else Ok None
        end
    | None => Ok None
    end
  else Ok None.

(** The [for i, item in enumerate(found_items)] loop. The URL of an item
    is made absolute outside the inner [try]: when that raises, the loop is
    left with the records appended so far, which is the [inl]. *)
Fixpoint extract_all (reaction_data_id current_url : string) (found_items : list item)
    (reaction_data_list : list pyval) : list pyval + list pyval :=
  match found_items with
  | [] => inr reaction_data_list
  | it :: rest =>
      match absolute current_url (url it) with
      | Raise _ => inl reaction_data_list
      | Ok d_url =>
          match try_except (extract_record reaction_data_id d_url) None with
          | Some final_entry =>
              extract_all reaction_data_id current_url rest
                (reaction_data_list ++ [final_entry])
          | None => extract_all reaction_data_id current_url rest reaction_data_list
          end
      end
  end.

(** The records at the end of the loop, however it was left. *)
Definition extracted (r : list pyval + list pyval) : list pyval :=
  match r with inl l => l | inr l => l end.

(** One pass of [while current_url]: [inl] is a [break]. *)
Definition crawl_page (reaction_data_id : string) (c : crawl) : list pyval + crawl :=
  match driver_get (current_url c) with
  | Raise _ => inl (reaction_data_list c)
  | Ok page =>
      match extract_list_items page with
      | [] => inl (reaction_data_list c)
      | found_items =>
          match extract_all reaction_data_id (current_url c) found_items
                  (reaction_data_list c) with
          | inl l => inl l
          | inr l =>
              match cs ← candidates page; next_link cs (current_url c) with
              | Ok (Some href) =>
                  if nonempty href
                  then inr {| reaction_data_list := l; current_url := href;
                              page_num := page_num c + 1 |}
                  else inl l
              | _ => inl l
              end
          end
      end
  end.

Fixpoint crawl_loop (fuel : nat) (reaction_data_id : string) (c : crawl) : run :=
  match fuel with
  | O => Running c
  | S fuel' =>
      if nonempty (current_url c) then
        match crawl_page reaction_data_id c with
        | inl l => Returned l
        | inr c' => crawl_loop fuel' reaction_data_id c'
        end
      else Returned (reaction_data_list c)
  end.

(** [process_reaction_data], once the HTTP session has been set up. *)
Definition process_reaction_data (fuel : nat) (start_url reaction_data_id : string) : run :=
  crawl_loop fuel reaction_data_id
    {| reaction_data_list := []; current_url := start_url; page_num := 1 |}.

End Site.

End CRD.

(* ===================================================================== *)
(** * Python fragment: integers as text, list indexing *)
(* ===================================================================== *)
Module PyText.
Import Py.

Definition is_digit (c : ascii) : bool :=
  let n := nat_of_ascii c in (48 <=? n)%nat && (n <=? 57)%nat.

Definition digit_of (c : ascii) : Z := Z.of_nat (nat_of_ascii c - 48).

Fixpoint all_digits (s : string) : bool :=
  match s with
  | EmptyString => true
  | String c t => is_digit c && all_digits t
  end.

(** [s.isdigit()]: at least one character, all of them digits. *)
Definition isdigit (s : string) : bool := nonempty s && all_digits s.

(** The number a run of decimal digits denotes, read left to right. *)
Fixpoint decimal_from (acc : Z) (s : string) : Z :=
  match s with
  | EmptyString => acc
  | String c t => decimal_from (10 * acc + digit_of c) t
  end.

Definition decimal (s : string) : Z := decimal_from 0 s.

(** The digit part of an integer literal: digits, with single underscores
    allowed between them. [after_digit] tells whether the previous
    character was a digit. *)
Fixpoint digit_part (s : string) (acc : Z) (after_digit : bool) : option Z :=
  match s with
  | EmptyString => if after_digit then Some acc else None
  | String c t =>
      if is_digit c then digit_part t (10 * acc + digit_of c) true
      else if Ascii.eqb c "_" && after_digit then digit_part t acc false
      else None
  end.

(** The white space [int] skips around a literal: that of the C locale,
    without the separators 28 to 31 that [str.strip] removes. *)
Definition is_c_space (c : ascii) : bool :=
  let n := nat_of_ascii c in
  ((9 <=? n)%nat && (n <=? 13)%nat) || (n =? 32)%nat.

Fixpoint skip_space (s : string) : string :=
  match s with
  | EmptyString => EmptyString
  | String c t => if is_c_space c then skip_space t else s
  end.

Definition trim (s : string) : string :=
  String.rev (skip_space (String.rev (skip_space s))).

(** An integer literal in base 10: white space around it, a sign, the
    digit part. *)
Definition literal (s : string) : option Z :=
  match trim s with
  | String "+" t => digit_part t 0 false
  | String "-" t => Z.opp <$> digit_part t 0 false
  | t => digit_part t 0 false
  end.

Fixpoint digit_count (s : string) : nat :=
  match s with
  | EmptyString => 0
  | String c t => (if is_digit c then 1 else 0) + digit_count t
  end.

(** The interpreter's default limit on the digits of an integer string
    ([sys.int_info.default_max_str_digits]). *)
Definition max_str_digits : Z := 4300.

(** [int(s)] in base 10; [None] stands for the [ValueError], which is
    raised for a text that is no literal and for one of more than
    [max_str_digits] digits, leading zeros counted and underscores not. *)
Definition py_int (s : string) : option Z :=
  if Z.ltb max_str_digits (Z.of_nat (digit_count s)) then None else literal s.

(** The longest run of digits at the start of [s], and what follows it. *)
Fixpoint span_digits (s : string) : string * string :=
  match s with
  | EmptyString => (EmptyString, EmptyString)
  | String c t =>
      if is_digit c then
        let (digits, rest) := span_digits t in (String c digits, rest)
      else (EmptyString, s)
  end.

(** [l[i]] on a list: a negative index counts from the end. *)
Definition item_at {A} (l : list A) (i : Z) : res A :=
  let j := if Z.ltb i 0 then Z.of_nat (length l) + i else i in
  if Z.ltb j 0 then Raise IndexError
  else match l !! Z.to_nat j with
       | Some x => Ok x
       | None => Raise IndexError
       end.

(** [l.index(x)]: position of the first occurrence; [None] stands for the
    [ValueError]. *)
Fixpoint list_index (l : list string) (x : string) : option Z :=
  match l with
  | [] => None
  | y :: t => if String.eqb y x then Some 0 else Z.succ <$> list_index t x
  end.

(** [len(v)] *)
Definition len (v : pyval) : res Z :=
  match v with
  | PStr s => Ok (Z.of_nat (String.length s))
  | PList l => Ok (Z.of_nat (length l))
  | PDict d => Ok (Z.of_nat (length d))
  | _ => Raise TypeError
  end.

(** [v > 0] *)
Definition gt_zero (v : pyval) : res bool :=
  match v with
  | PInt z => Ok (Z.ltb 0 z)
  | PBool b => Ok b
  | PFloat f => Ok (PrimFloat.ltb 0%float f)
  | _ => Raise TypeError
  end.

End PyText.

(* ===================================================================== *)
(** * [src/ORD.py]: entry count, dataset loop, table and export *)
(* ===================================================================== *)
Module ORDMain.
Import Py Web ORD PyText.

(** ** [get_total_entries] *)

(** [re.search(r'of (\d+) entries', text)] tried at the start of [s]: the
    digits captured, with [\d] read as 0 to 9, which is what it matches on
    an ASCII text. The greedy [\d+] takes the
    whole run of digits; a shorter run is followed by a digit, so backing
    off never matches. *)
Definition entries_here (s : string) : option string :=
  match s with
  | String "o" (String "f" (String " " t)) =>
      let (digits, rest) := span_digits t in
      if nonempty digits && String.prefix " entries" rest then Some digits else None
  | _ => None
  end.

(** The leftmost match. *)
Fixpoint entries_search (s : string) : option string :=
  match entries_here s with
  | Some digits => Some digits
  | None =>
      match s with
      | EmptyString => None
      | String _ t => entries_search t
      end
  end.

(** [get_total_entries]: [pagination_text] is the outcome of reading the
    text of [div.select]; whatever raises ends in [None]. *)
Definition get_total_entries (pagination_text : res string) : option Z :=
  match pagination_text with
  | Ok text =>
      match entries_search text with
      | Some digits => py_int digits
      | None => None
      end
  | Raise _ => None
  end.

(** ** What the workers and the dataset loop hand on *)

(** The result of a worker whose fetch succeeded and whose payload the
    normaliser walked. *)
Definition formatted_result (float_repr : float → string) (rid : string) (data : pyval)
    : pyval :=
  PDict [ ("reaction_id", PStr rid); ("data", data); ("success", PBool true);
          ("formatted_data", normal_record float_repr data) ].

(** The three shapes of a result recorded for a reaction. *)
Inductive worker_result (float_repr : float → string) (rid : string) : pyval → Prop :=
| worker_formatted data :
    wf_payload data = true → worker_result float_repr rid (formatted_result float_repr rid data)
| worker_exhausted : worker_result float_repr rid (max_retries_exceeded rid)
| worker_raised e : worker_result float_repr rid (failed_future rid e).

(** [r['success']] read as a flag. *)
Definition succeeded (r : pyval) : bool :=
  match getitem r "success" with
  | Ok v => truthy v
  | Raise _ => false
  end.

(** The dict [scrape_single_dataset_parallel] returns for a dataset with
    reactions, and the one for a dataset without. *)
Definition summary (dataset_id : string) (reactions : list pyval) (successful : Z) : pyval :=
  PDict [ ("dataset_id", PStr dataset_id);
          ("reactions", PList reactions);
          ("total_reactions", PInt (Z.of_nat (length reactions)));
          ("successful_scrapes", PInt successful) ].

Definition no_reactions (dataset_id : string) : pyval :=
  PDict [ ("dataset_id", PStr dataset_id); ("reactions", PList []);
          ("total_reactions", PInt 0); ("successful_scrapes", PInt 0);
          ("error", PStr "No reactions found") ].

(** ** [scrape_all_datasets_sequential] *)

(** The dict appended when a dataset raises. *)
Definition failed_dataset (dataset_id : string) (e : exn) : pyval :=
  PDict [("dataset_id", PStr dataset_id); ("error", PStr (exn_text e))].

(** The three shapes of an entry of [all_results]. *)
Inductive dataset_result (float_repr : float → string) : pyval → Prop :=
| dataset_scraped dataset_id reaction_ids reactions :
    Forall2 (worker_result float_repr) reaction_ids reactions →
    dataset_result float_repr
      (summary dataset_id reactions
         (Z.of_nat (length (List.filter succeeded reactions))))
| dataset_empty dataset_id : dataset_result float_repr (no_reactions dataset_id)
| dataset_failed dataset_id e : dataset_result float_repr (failed_dataset dataset_id e).

(** [if max_datasets: dataset_ids = dataset_ids[:max_datasets]] *)
Definition limit_datasets (max_datasets : option Z) (dataset_ids : list string)
    : list string :=
  match max_datasets with
  | Some m => if Z.eqb m 0 then dataset_ids else slice_to dataset_ids m
  | None => dataset_ids
  end.

(** The loop over the datasets: [job dataset_id] is the outcome of the call
    [scrape_single_dataset_parallel(dataset_id, ...)]. *)
Fixpoint scrape_datasets (job : string → res pyval) (dataset_ids : list string)
    (all_results : list pyval) : list pyval :=
  match dataset_ids with
  | [] => all_results
  | dataset_id :: rest =>
      scrape_datasets job rest
        (all_results ++ [match job dataset_id with
                         | Ok result => result
                         | Raise e => failed_dataset dataset_id e
                         end])
  end.

(** A number read as an integer or as a float. *)
Definition int_of (v : pyval) : option Z :=
  match v with
  | PInt z => Some z
  | PBool b => Some (Z.b2z b)
  | _ => None
  end.

Definition float_of (v : pyval) : option float :=
  match v with
  | PFloat f => Some f
  | _ => float_of_Z <$> int_of v
  end.

(** [a + b] on numbers (integers below 2^53 where a float takes part). *)
Definition add (a b : pyval) : res pyval :=
  match int_of a, int_of b with
  | Some x, Some y => Ok (PInt (x + y))
  | _, _ =>
      match float_of a, float_of b with
      | Some f, Some g => Ok (PFloat (PrimFloat.add f g))
      | _, _ => Raise TypeError
      end
  end.

(** [sum(r.get(k, 0) for r in all_results)] *)
Fixpoint sum_field (k : string) (all_results : list pyval) (acc : pyval) : res pyval :=
  match all_results with
  | [] => Ok acc
  | r :: rest =>
      v ← get r k (PInt 0);
      acc' ← add acc v;
      sum_field k rest acc'
  end.

(** [scrape_all_datasets_sequential]: [discovered] is the outcome of
    [get_all_dataset_ids], and [save all_results] that of writing the
    results to [reaction_database_scrape.json] with [open] and [json.dump].
    The two totals are computed for the summary that is printed before the
    file is written. *)
Definition scrape_all_datasets_sequential (discovered : res (list string))
    (max_datasets : option Z) (job : string → res pyval)
    (save : list pyval → res unit) : res (list pyval) :=
  dataset_ids ← discovered;
  let all_results := scrape_datasets job (limit_datasets max_datasets dataset_ids) [] in
  total_reactions ← sum_field "total_reactions" all_results (PInt 0);
  total_successful ← sum_field "successful_scrapes" all_results (PInt 0);
  _ ← save all_results;
  Ok all_results.

(** ** [display_results_as_table] *)

(** [smiles[:60] + "..." if len(smiles) > 60 else smiles]. Slicing a dict
    raises (a [KeyError] from Python 3.12 on), and so does adding a string
    to a list. *)
Definition smiles_cell (smiles : pyval) : res pyval :=
  n ← len smiles;
  if Z.ltb 60 n then
    match smiles with
    | PStr s => Ok (PStr (String.substring 0 60 s +:+ "..."))
    | _ => Raise TypeError
    end
  else Ok smiles.

(** The rows added for the components of one input. *)
Fixpoint component_rows (tab_name : pyval) (components : list pyval)
    (table_data : list (list pyval)) : res (list (list pyval)) :=
  match components with
  | [] => Ok table_data
  | comp :: rest =>
      identifiers ← getitem comp "identifiers";
      if truthy identifiers then
        first ← index identifiers 0;
        smiles ← getitem first "value";
        cell ← smiles_cell smiles;
        role ← getitem comp "reaction_role";
        component_rows tab_name rest
          (table_data ++ [[tab_name; PStr "INPUT"; cell; role; PStr ""]])
      else component_rows tab_name rest table_data
  end.

Fixpoint input_rows (inputs_map : list pyval) (table_data : list (list pyval))
    : res (list (list pyval)) :=
  match inputs_map with
  | [] => Ok table_data
  | input_entry :: rest =>
      tab_name ← index input_entry 0;
      input_data ← index input_entry 1;
      cl ← get input_data "components" (PList []);
      components ← iter cl;
      table_data' ← component_rows tab_name components table_data;
      input_rows rest table_data'
  end.

(** The check mark of a desired product, as UTF-8. *)
Definition check_mark : string :=
  String (ascii_of_nat 226) (String (ascii_of_nat 156) (String (ascii_of_nat 147) "")).

Fixpoint product_rows (outcomes : list pyval) (table_data : list (list pyval))
    : res (list (list pyval)) :=
  match outcomes with
  | [] => Ok table_data
  | product :: rest =>
      identifiers ← getitem product "identifiers";
      if truthy identifiers then
        first ← index identifiers 0;
        smiles ← getitem first "value";
        cell ← smiles_cell smiles;
        desired ← get product "is_desired_product" PNone;
        product_rows rest
          (table_data ++ [[PStr "Products"; PStr "OUTPUT"; cell; PStr "PRODUCT";
                           PStr (if truthy desired then check_mark else "")]])
      else product_rows rest table_data
  end.

(** The table printed for one formatted reaction. *)
Definition reaction_table (formatted : pyval) : res (list (list pyval)) :=
  _ ← getitem formatted "reaction_id";
  im ← get formatted "inputsMap" (PList []);
  inputs_map ← iter im;
  table_data ← input_rows inputs_map [];
  oc ← get formatted "outcomes" (PList []);
  outcomes ← iter oc;
  product_rows outcomes table_data.

(** The tables printed for the reactions of one dataset. *)
Fixpoint reaction_tables (reactions : list pyval) (tables : list (list (list pyval)))
    : res (list (list (list pyval))) :=
  match reactions with
  | [] => Ok tables
  | reaction :: rest =>
      success ← get reaction "success" PNone;
      if truthy success then
        formatted_in ← has reaction "formatted_data";
        if (formatted_in : bool) then
          formatted ← getitem reaction "formatted_data";
          table_data ← reaction_table formatted;
          reaction_tables rest (tables ++ [table_data])
        else reaction_tables rest tables
      else reaction_tables rest tables
  end.

(** [display_results_as_table]: the tables printed, in order. *)
Fixpoint display_results_as_table (results : list pyval)
    (tables : list (list (list pyval))) : res (list (list (list pyval))) :=
  match results with
  | [] => Ok tables
  | dataset :: rest =>
      successful ← get dataset "successful_scrapes" (PInt 0);
      positive ← gt_zero successful;
      if (positive : bool) then
        _ ← getitem dataset "dataset_id";
        _ ← getitem dataset "total_reactions";
        _ ← getitem dataset "successful_scrapes";
        rs ← getitem dataset "reactions";
        reactions ← iter rs;
        tables' ← reaction_tables reactions tables;
        display_results_as_table rest tables'
      else display_results_as_table rest tables
  end.

(** *** The table read off the payload

    The rows [reaction_table] builds for the record of a payload: one per
    component or product that has a SMILES identifier, showing the first
    of them. *)

(** The text of a SMILES cell. *)
Definition cell_text (s : string) : string :=
  if Z.ltb 60 (Z.of_nat (String.length s)) then String.substring 0 60 s +:+ "..." else s.

(** The first SMILES identifier of a component or product. *)
Definition first_smiles (c : pyval) : option pyval :=
  head (List.filter is_smiles (identifiers_of c)).

(** Its value, when there is one, is a string of ASCII text, as a SMILES
    is: its length and its first 60 characters are then those of the byte
    string. *)
Definition shows_text (c : pyval) : bool :=
  match first_smiles c with
  | Some i =>
      match lookup_or i "value" PNone with
      | PStr s => is_ascii s
      | _ => false
      end
  | None => true
  end.

Definition component_row (float_repr : float → string) (tab_name c : pyval)
    : list (list pyval) :=
  match first_smiles c with
  | Some i =>
      match lookup_or i "value" PNone with
      | PStr s => [[ tab_name; PStr "INPUT"; PStr (cell_text s);
                     PStr (role_name float_repr (lookup_or c "reactionRole" PNone));
                     PStr "" ]]
      | _ => []
      end
  | None => []
  end.

Definition product_row (p : pyval) : list (list pyval) :=
  match first_smiles p with
  | Some i =>
      match lookup_or i "value" PNone with
      | PStr s => [[ PStr "Products"; PStr "OUTPUT"; PStr (cell_text s); PStr "PRODUCT";
                     PStr (if truthy (lookup_or p "isDesiredProduct" (PBool false))
                           then check_mark else "") ]]
      | _ => []
      end
  | None => []
  end.

Definition components_of (input_entry : pyval) : list pyval :=
  match index input_entry 1 with
  | Ok input_data => elements (lookup_or input_data "componentsList" (PList []))
  | Raise _ => []
  end.

Definition products_of (data : pyval) : list pyval :=
  flat_map (λ o, elements (lookup_or o "productsList" (PList [])))
    (elements (lookup_or data "outcomesList" (PList []))).

Definition input_table (float_repr : float → string) (input_entry : pyval)
    : list (list pyval) :=
  match index input_entry 0 with
  | Ok tab_name => flat_map (component_row float_repr tab_name) (components_of input_entry)
  | Raise _ => []
  end.

Definition table_of (float_repr : float → string) (data : pyval) : list (list pyval) :=
  flat_map (input_table float_repr) (elements (lookup_or data "inputsMap" (PList [])))
  ++ flat_map product_row (products_of data).

(** Every SMILES shown for the payload is an ASCII string. *)
Definition texts (data : pyval) : bool :=
  forallb (λ input_entry, forallb shows_text (components_of input_entry))
    (elements (lookup_or data "inputsMap" (PList [])))
  && forallb shows_text (products_of data).

(** ** [main] *)

(** [[r['formatted_data'] for r in reactions if r.get('success') and
    'formatted_data' in r]] *)
Fixpoint exported_reactions (reactions : list pyval) : res (list pyval) :=
  match reactions with
  | [] => Ok []
  | r :: rest =>
      success ← get r "success" PNone;
      keep ← (if truthy success then has r "formatted_data" else Ok false);
      if (keep : bool) then
        formatted ← getitem r "formatted_data";
        others ← exported_reactions rest;
        Ok (formatted :: others)
      else exported_reactions rest
  end.

(** One pass of the export loop: the key and the value of the assignment
    to [formatted_results]. The value is built first. *)
Definition export_entry (dataset : pyval) : res (pyval * pyval) :=
  dataset_id ← getitem dataset "dataset_id";
  total_reactions ← getitem dataset "total_reactions";
  successful_scrapes ← getitem dataset "successful_scrapes";
  rs ← get dataset "reactions" (PList []);
  reactions ← iter rs;
  exported ← exported_reactions reactions;
  key ← getitem dataset "dataset_id";
  if hashable key then
    Ok (key, PDict [ ("dataset_id", dataset_id);
                     ("total_reactions", total_reactions);
                     ("successful_scrapes", successful_scrapes);
                     ("reactions", PList exported) ])
  else Raise TypeError.

(** The assignments the export loop makes, in order. *)
Fixpoint export_entries (results : list pyval) (formatted_results : list (pyval * pyval))
    : res (list (pyval * pyval)) :=
  match results with
  | [] => Ok formatted_results
  | dataset :: rest =>
      kv ← export_entry dataset;
      export_entries rest (formatted_results ++ [kv])
  end.

Definition MAX_DATASETS : option Z := Some 2.

(** [main]: the assignments to [formatted_results] that reach the export
    file; [export formatted_results] is the outcome of writing them to
    [ord_reaction_data.json]. *)
Definition main (discovered : res (list string)) (job : string → res pyval)
    (save : list pyval → res unit) (export : list (pyval * pyval) → res unit)
    : res (list (pyval * pyval)) :=
  results ← scrape_all_datasets_sequential discovered MAX_DATASETS job save;
  _ ← display_results_as_table results [];
  formatted_results ← export_entries results [];
  _ ← export formatted_results;
  Ok formatted_results.

End ORDMain.

(* ===================================================================== *)
(** * [src/CRD/CRD.py]: [main] *)
(* ===================================================================== *)
Module CRDMain.
Import Py Web PyText.

(** ** The selection dialogue *)

(** [[int(x.strip()) for x in tokens if x.strip().isdigit()]] *)
Fixpoint ints_of (tokens : list string) : option (list Z) :=
  match tokens with
  | [] => Some []
  | x :: rest =>
      if isdigit (strip x) then
        n ← py_int (strip x);
        ns ← ints_of rest;
        Some (n :: ns)
      else ints_of rest
  end.

(** [[raw_links[i-1] for i in selected_indices]] *)
Fixpoint links_at (raw_links : list string) (selected_indices : list Z)
    : res (list string) :=
  match selected_indices with
  | [] => Ok []
  | i :: rest =>
      link ← item_at raw_links (i - 1);
      links ← links_at raw_links rest;
      Ok (link :: links)
  end.

(** How one pass of the [while True] body ends: [continue] or the
    [ValueError] handler, or [break] with the selection made. *)
Inductive round :=
| Again
| Chosen (selected_indices : list Z) (final_links : list string).

(** Does the pass ask for the second line? *)
Definition asks_selection (raw_links : list string) (limit_input : string) : bool :=
  match py_int limit_input with
  | Some limit_count =>
      negb (Z.leb limit_count 0)
      && negb (Z.ltb (Z.of_nat (length raw_links)) limit_count)
      && negb (Z.ltb 10 limit_count)
  | None => false
  end.

(** One pass of the body; [selection_input] is read only when
    [asks_selection] holds. *)
Definition select_round (raw_links : list string) (limit_input selection_input : string)
    : res round :=
  let total_found := Z.of_nat (length raw_links) in
  match py_int limit_input with
  | None => Ok Again
  | Some limit_count =>
      if Z.leb limit_count 0 then Ok Again
      else if Z.ltb total_found limit_count then Ok Again
      else if Z.ltb 10 limit_count then
        let selected_indices := seqZ 1 limit_count in
        final_links ← links_at raw_links selected_indices;
        Ok (Chosen selected_indices final_links)
      else
        match ints_of (split "," selection_input) with
        | None => Ok Again
        | Some selected_indices =>
            if negb (Z.eqb (Z.of_nat (length selected_indices)) limit_count)
            then Ok Again
            else if existsb (λ x, Z.ltb x 1 || Z.ltb total_found x) selected_indices
            then Ok Again
            else
              final_links ← links_at raw_links selected_indices;
              Ok (Chosen selected_indices final_links)
        end
  end.

(** The dialogue over the lines typed, one or two per pass. Running out of
    input raises [EOFError]. *)
Fixpoint dialogue (raw_links : list string) (lines : list string)
    : res (list Z * list string) :=
  match lines with
  | [] => Raise (Exception "EOF when reading a line")
  | limit_input :: rest =>
      if asks_selection raw_links limit_input then
        match rest with
        | [] => Raise (Exception "EOF when reading a line")
        | selection_input :: rest' =>
            match select_round raw_links limit_input selection_input with
            | Ok Again => dialogue raw_links rest'
            | Ok (Chosen selected_indices final_links) =>
                Ok (selected_indices, final_links)
            | Raise e => Raise e
            end
        end
      else
        match select_round raw_links limit_input EmptyString with
        | Ok Again => dialogue raw_links rest
        | Ok (Chosen selected_indices final_links) => Ok (selected_indices, final_links)
        | Raise e => Raise e
        end
  end.

(** ** The crawl over the selection *)

(** [f"{original_index}_{link}"] with
    [original_index = raw_links.index(link) + 1]. *)
Definition origin_label (raw_links : list string) (link : string) : option string :=
  i ← list_index raw_links link;
  Some (pretty (i + 1) +:+ "_" +:+ link).

(** ** Exports *)

(** The copy of a record that goes to the JSON file. *)
Definition clean_record (r : pyval) : res pyval :=
  match r with
  | PDict d =>
      Ok (PDict (List.filter (λ kv, negb (String.eqb (fst kv) "all_chemicals_raw")) d))
  | PList _ =>
      listed ← has r "all_chemicals_raw";
      if (listed : bool) then Raise TypeError else Ok r
  | _ => Raise AttributeError
  end.

Definition chemical_row (chem : pyval) : res (list pyval) :=
  role ← get chem "role" (PStr "");
  name ← get chem "name" (PStr "");
  smiles ← get chem "smiles" (PStr "");
  Ok [role; name; smiles].

Fixpoint chemical_rows (chemicals : list pyval) (rows : list (list pyval))
    : res (list (list pyval)) :=
  match chemicals with
  | [] => Ok rows
  | chem :: rest =>
      row ← chemical_row chem;
      chemical_rows rest (rows ++ [row])
  end.

Definition divider : string :=
  "==================================================".

(** The rows [csv.writer] has been handed once the block of one record is
    complete. *)
Definition csv_block (entry : pyval) (rows : list (list pyval))
    : res (list (list pyval)) :=
  origin ← get entry "Reaction_Data_Origin" (PStr "");
  details_url ← get entry "details_url" (PStr "");
  smiles ← get entry "smiles" (PStr "");
  let rows1 := rows ++ [ [PStr "Reaction_Data_Origin:"; origin];
                         [PStr "details_url:"; details_url];
                         [PStr "smiles:"; smiles];
                         [];
                         [PStr "Role"; PStr "Name"; PStr "Smiles"] ] in
  chemicals ← get entry "all_chemicals_raw" (PList []);
  rows2 ← (if truthy chemicals then
              cs ← iter chemicals;
              chemical_rows cs rows1
            else Ok (rows1 ++ [[PStr "No chemicals found"; PStr ""; PStr ""]]));
  Ok (rows2 ++ [[]; [PStr divider]; []]).

End CRDMain.

(* ===================================================================== *)
(** * Scenario data *)
(* ===================================================================== *)
Module Scenario.
Import Py Web ORD.

(** A discovery list [ord-0], [ord-1], ..., of [n] distinct reaction ids. *)
Definition batch (n : Z) : list string :=
  (λ z, "ord-" +:+ pretty z) <$> seqZ 0 n.

(** The result fetched for the id at position [n] of such a list. *)
Definition late (n : Z) : pyval := fetched ("ord-" +:+ pretty n) PNone.

(** A result for an id that was never discovered. *)
Definition stray : pyval := failed_future "stray" (Exception "boom").

(** *** Detail pages *)

Definition unreachable_page : detail_page :=
  {| loads := false; ready := false; button_css := false; button_xpath := false;
     click_ok := false; modal := false; pre_text := None |}.

Definition record_page (json_text : string) : detail_page :=
  {| loads := true; ready := true; button_css := true; button_xpath := false;
     click_ok := true; modal := true; pre_text := Some json_text |}.

(** A fresh worker whose first [n] navigations fail and whose later ones
    show the record [{}]. *)
Definition flaky_driver (n : nat) : driver :=
  {| gets := 0;
     respond := λ _ k, if (k <? n)%nat then unreachable_page else record_page "{}" |}.

(** A worker for which the site never answers. *)
Definition dead_driver : driver :=
  {| gets := 0; respond := λ _ _, unreachable_page |}.

Definition empty_object (json_text : string) : res pyval := Ok (PDict []).
Definition plain_repr (f : float) : string := "".

(** *** Listing pages *)

Definition link_to (href : string) : element :=
  {| stale := false; displayed := true; enabled := true; attrs := {["href" := href]} |}.

Definition next_button : element :=
  {| stale := false; displayed := true; enabled := true; attrs := ∅ |}.

(** A next control that is an anchor back to the browse page itself. *)
Definition fragment_button : element :=
  with_attr "href" "https://open-reaction-database.org/browse#" next_button.

(** A browse listing that shows the same dataset after every click. *)
Definition stuck_datasets : browser :=
  {| reachable := true; entries_hint := None; clicks := 0;
     site := λ _, {| links_css :=
                       Ok [link_to "https://open-reaction-database.org/dataset/ord_dataset-a"];
                     links_xpath := Ok [];
                     next_controls := Ok [next_button] |} |}.

(** A dataset listing that shows the same reaction after every click. *)
Definition stuck_reactions : browser :=
  {| reachable := true; entries_hint := None; clicks := 0;
     site := λ _, {| links_css := Ok [link_to "https://open-reaction-database.org/id/ord-a"];
                     links_xpath := Ok [];
                     next_controls := Ok [next_button] |} |}.

(** The loop variables on the second page, one id held from the first. *)
Definition second_page (b : browser) (held : string) : scan :=
  {| ids := [held]; page := 2; prev_count := 1; session := click b |}.

(** A browse listing whose only next control is [fragment_button]. *)
Definition fragment_listing : browser :=
  {| reachable := true; entries_hint := None; clicks := 0;
     site := λ _, {| links_css :=
                       Ok [link_to "https://open-reaction-database.org/dataset/ord_dataset-a"];
                     links_xpath := Ok [];
                     next_controls := Ok [fragment_button] |} |}.

(** A browse listing that announces two entries and shows a dataset never
    seen before after every click. *)
Definition endless_datasets : browser :=
  {| reachable := true; entries_hint := Some 2; clicks := 0;
     site := λ n, {| links_css :=
                       Ok [link_to ("https://open-reaction-database.org/dataset/ord_dataset-"
                                    +:+ pretty n)];
                     links_xpath := Ok [];
                     next_controls := Ok [next_button] |} |}.

(** The outcome of scraping a dataset: [ord_dataset-b] raises, every other
    dataset has no reactions. *)
Definition second_fails (dataset_id : string) : res pyval :=
  if String.eqb dataset_id "ord_dataset-b" then Raise (Exception "boom")
  else Ok (ORDMain.no_reactions dataset_id).

(** A CRD listing page with the same Details link twice. *)
Definition repeated_details (page_source : string) : list CRD.anchor :=
  [ {| CRD.a_string := Some "Details"; CRD.a_href := Some "/reaction/1" |};
    {| CRD.a_string := Some "Details"; CRD.a_href := Some "/reaction/1" |} ].

Definition some_listing : CRD.listing :=
  {| CRD.page_source := "<html/>"; CRD.candidates := Ok [] |}.

(** *** Payloads *)

Definition chem (name role : string) : pyval :=
  PDict [("name", PStr name); ("role", PStr role)].

Definition origin : pyval :=
  PDict [("Reaction_Data_Origin", PStr "1_archive"); ("details_url", PStr "/reaction/1")].

(** The specification's example. *)
Definition xyz : pyval :=
  PDict [ ("chemicals", PList [chem "X" "reactant"; chem "Y" "REACTANT"; chem "Z" "product"]);
          ("raw_smiles", PStr "") ].

(** The export of a reaction whose two components have the roles
    [x_details] and [x]. *)
Definition molecule (name role : string) : CRD.xml :=
  CRD.Element "molecule" None
    [CRD.Element "name" (Some name) []; CRD.Element "role" (Some role) []].

Definition clash_xml : CRD.xml :=
  CRD.Element "reaction" None
    [CRD.Element "participants" None [molecule "B" "x_details"; molecule "A" "x"]].

(** The entry [parse_xml_data] builds for such a component. *)
Definition parsed_molecule (name role : string) : pyval :=
  PDict [ ("name", PStr name); ("smiles", PStr ""); ("role", PStr role);
          ("inchiKey", PStr ""); ("ratio", PStr ""); ("notes", PStr "") ].

Definition identifier (type : Z) (value : string) : pyval :=
  PDict [("type", PInt type); ("value", PStr value)].

(** One input with a SMILES-bearing reactant and a name-only solvent, one
    outcome with one product. *)
Definition reaction : pyval :=
  PDict [ ("reactionId", PStr "ord-a");
          ("inputsMap",
           PList [ PList [ PStr "m1";
                           PDict [("componentsList",
                                   PList [ PDict [("identifiersList",
                                                   PList [identifier 6 "water"; identifier 2 "O"]);
                                                  ("reactionRole", PInt 1)];
                                           PDict [("identifiersList",
                                                   PList [identifier 6 "toluene"]);
                                                  ("reactionRole", PInt 3)] ])] ] ]);
          ("outcomesList",
           PList [ PDict [("productsList",
                           PList [ PDict [("identifiersList", PList [identifier 2 "CCO"])] ])] ]) ].

End Scenario.

(* ===================================================================== *)
(** * Facts about the Python fragment *)
(* ===================================================================== *)
Module PyFacts.
Import Py.

Lemma assoc_set_eq {V} k (v : V) d : assoc k (assoc_set k v d) = Some v.
Proof.
  induction d as [|[k' v'] d IH]; simpl.
  - by rewrite String.eqb_refl.
  - destruct (String.eqb k k') eqn:E; simpl.
    + by rewrite String.eqb_refl.
    + by rewrite E.
Qed.

Lemma assoc_set_ne {V} k k' (v : V) d :
  k ≠ k' → assoc k (assoc_set k' v d) = assoc k d.
Proof.
  intros Hne. induction d as [|[k0 v0] d IH]; simpl.
  - destruct (String.eqb k k') eqn:E; [|done].
    by apply String.eqb_eq in E.
  - destruct (String.eqb k' k0) eqn:E; simpl.
    + apply String.eqb_eq in E as <-.
      destruct (String.eqb k k') eqn:E'; [|done].
      by apply String.eqb_eq in E'.
    + by rewrite IH.
Qed.

(** ** The stable sort *)
Section SortFacts.
Context {A : Type}.
Implicit Types (l : list (Z * A)) (kx : Z * A).

Lemma stable_sort_snoc l kx :
  stable_sort (l ++ [kx]) = insert_by kx (stable_sort l).
Proof. unfold stable_sort. by rewrite fold_left_app. Qed.

Lemma insert_by_perm kx l : insert_by kx l ≡ₚ kx :: l.
Proof.
  induction l as [|ky l IH]; simpl; [done|].
  destruct (Z.ltb _ _); [done|].
  rewrite IH. apply Permutation_swap.
Qed.

Lemma stable_sort_perm l : stable_sort l ≡ₚ l.
Proof.
  induction l as [|kx l IH] using rev_ind; [done|].
  rewrite stable_sort_snoc, insert_by_perm, IH.
  apply Permutation_cons_append.
Qed.

Lemma insert_by_sorted kx l :
  StronglySorted key_le l → StronglySorted key_le (insert_by kx l).
Proof.
  induction 1 as [|ky l Hl IH Hall]; simpl.
  - repeat constructor.
  - destruct (Z.ltb (fst kx) (fst ky)) eqn:E.
    + apply Z.ltb_lt in E. constructor; [by constructor|].
      constructor; [unfold key_le; lia|].
      eapply Forall_impl; [exact Hall|]. unfold key_le. intros; simpl in *; lia.
    + apply Z.ltb_ge in E. constructor; [done|].
      rewrite insert_by_perm. by constructor.
Qed.

Lemma stable_sort_sorted l : StronglySorted key_le (stable_sort l).
Proof.
  induction l as [|kx l IH] using rev_ind; [constructor|].
  rewrite stable_sort_snoc. by apply insert_by_sorted.
Qed.

(** A new arrival whose key is not below any key present goes last. *)
Lemma insert_by_last kx l :
  Forall (λ ky, fst ky ≤ fst kx) l → insert_by kx l = l ++ [kx].
Proof.
  induction 1 as [|ky l Hy _ IH]; simpl; [done|].
  destruct (Z.ltb (fst kx) (fst ky)) eqn:E; [apply Z.ltb_lt in E; lia|].
  by rewrite IH.
Qed.

(** A new arrival below every key of a suffix is placed in the prefix. *)
Lemma insert_by_app kx l1 l2 :
  Forall (λ ky, fst kx < fst ky) l2 →
  insert_by kx (l1 ++ l2) = insert_by kx l1 ++ l2.
Proof.
  intros H2. induction l1 as [|ky l1 IH]; simpl.
  - destruct H2 as [|ky l2 Hy H2]; simpl; [done|].
    by apply Z.ltb_lt in Hy as ->.
  - destruct (Z.ltb _ _); [done|]. by rewrite IH.
Qed.

(** Entries carrying the largest key [K] stay behind all others, in
    arrival order. *)
Lemma stable_sort_top K l :
  Forall (λ kx, fst kx ≤ K) l →
  stable_sort l =
    stable_sort (List.filter (λ kx, Z.ltb (fst kx) K) l)
      ++ List.filter (λ kx, Z.eqb (fst kx) K) l.
Proof.
  induction l as [|kx l IH] using rev_ind; intros Hall; [done|].
  apply Forall_app in Hall as [Hl Hx]. apply Forall_inv in Hx. simpl in Hx.
  rewrite stable_sort_snoc, IH by done.
  rewrite !List.filter_app; simpl.
  destruct (Z.ltb (fst kx) K) eqn:E1.
  - apply Z.ltb_lt in E1.
    assert (Z.eqb (fst kx) K = false) as -> by (apply Z.eqb_neq; lia).
    rewrite stable_sort_snoc, app_nil_r. apply insert_by_app.
    apply List.Forall_forall. intros ky [_ Hk%Z.eqb_eq]%List.filter_In. lia.
  - apply Z.ltb_ge in E1.
    assert (Z.eqb (fst kx) K = true) as -> by (apply Z.eqb_eq; lia).
    rewrite app_nil_r, app_assoc. apply insert_by_last.
    apply Forall_app. split.
    + apply List.Forall_forall. intros ky Hky.
      assert (ky ∈ l) as Hin.
      { apply list_elem_of_In. rewrite stable_sort_perm in Hky.
        by apply List.filter_In in Hky as [? _]. }
      rewrite Forall_forall in Hl. specialize (Hl _ Hin). simpl in *; lia.
    + apply List.Forall_forall. intros ky [_ Hk%Z.eqb_eq]%List.filter_In. lia.
Qed.

Lemma keys_of_ok (key : A → res Z) (rk : A → Z) (xs : list A) :
  Forall (λ x, key x = Ok (rk x)) xs →
  keys_of key xs = Ok (map (λ x, (rk x, x)) xs).
Proof.
  induction 1 as [|x xs Hx _ IH]; simpl; [done|].
  by rewrite Hx, IH.
Qed.

(** Two lists sorted on keys that name their entries are equal as soon as
    they hold the same entries. *)
Lemma sorted_by_distinct_keys l1 l2 :
  NoDup (map fst l2) →
  StronglySorted key_le l1 → StronglySorted key_le l2 →
  l1 ≡ₚ l2 → l1 = l2.
Proof.
  intros Hnd H1 H2 Hp. apply (StronglySorted_unique_strong key_le); [|done..].
  intros x1 x2 Hx1 Hx2 Hle1 Hle2. unfold key_le in *.
  rewrite Hp in Hx1.
  apply list_elem_of_lookup in Hx1 as [i Hi], Hx2 as [j Hj].
  assert (i = j) as ->.
  { eapply NoDup_lookup; [exact Hnd| |].
    - rewrite list_lookup_fmap, Hi. reflexivity.
    - rewrite list_lookup_fmap, Hj. simpl. f_equal. lia. }
  congruence.
Qed.
End SortFacts.

End PyFacts.

(* ===================================================================== *)
(** * Facts about [ORD.py]: fetch, retry and ordering *)
(* ===================================================================== *)
Module ORDFacts.
Import Py Web ORD PyFacts.

(** ** The discovery index *)

Lemma enumerate_from_fmap {A} (key : A → Z) (l : list A) k :
  (∀ i x, l !! i = Some x → key x = k + Z.of_nat i) →
  map (λ x, (key x, x)) l = enumerate_from k l.
Proof.
  revert k. induction l as [|x l IH]; intros k H; simpl; [done|].
  rewrite (H 0%nat x eq_refl), Z.add_0_r. f_equal.
  apply IH. intros i y Hi. rewrite (H (S i) y Hi). lia.
Qed.

Lemma enumerate_from_keys {A} (l : list A) k :
  map fst (enumerate_from k l) = seqZ k (Z.of_nat (length l)).
Proof.
  revert k. induction l as [|x l IH]; intros k; simpl length.
  - by rewrite seqZ_nil.
  - rewrite seqZ_cons by lia. simpl. rewrite IH. do 2 f_equal; lia.
Qed.

Lemma enumerate_from_sorted {A} (l : list A) k :
  StronglySorted key_le (enumerate_from k l).
Proof.
  revert k. induction l as [|x l IH]; intros k; simpl; constructor; [done|].
  apply Forall_forall. intros [j y] Hin. unfold key_le; simpl.
  assert (j ∈ map fst (enumerate_from (k + 1) l)) as Hj.
  { apply list_elem_of_fmap. by exists (j, y). }
  rewrite enumerate_from_keys in Hj. apply elem_of_seqZ in Hj. lia.
Qed.

Lemma enumerate_from_snd {A} (l : list A) k : map snd (enumerate_from k l) = l.
Proof. revert k. induction l as [|x l IH]; intros k; simpl; [done|]. by rewrite IH. Qed.

Lemma index_notin (l : list string) k (m : gmap string Z) s :
  s ∉ l → fold_left index_insert (enumerate_from k l) m !! s = m !! s.
Proof.
  revert k m. induction l as [|x l IH]; intros k m Hs; simpl; [done|].
  apply not_elem_of_cons in Hs as [Hne Hs].
  rewrite IH by done. unfold index_insert; simpl. by rewrite lookup_insert_ne.
Qed.

Lemma index_lookup (l : list string) k (m : gmap string Z) i s :
  NoDup l → l !! i = Some s →
  fold_left index_insert (enumerate_from k l) m !! s = Some (k + Z.of_nat i).
Proof.
  revert k m i. induction l as [|x l IH]; intros k m i Hnd Hi; [done|].
  apply NoDup_cons in Hnd as [Hx Hnd]. simpl.
  destruct i as [|i]; simpl in Hi.
  - simplify_eq. rewrite index_notin by done.
    unfold index_insert; simpl. rewrite lookup_insert_eq. f_equal; lia.
  - rewrite (IH _ _ i) by done. f_equal; lia.
Qed.

(** Without distinctness the entry of a listed id is still a position. *)
Lemma index_bound (l : list string) k (m : gmap string Z) s :
  s ∈ l →
  ∃ j, fold_left index_insert (enumerate_from k l) m !! s = Some j
       ∧ k ≤ j < k + Z.of_nat (length l).
Proof.
  revert k m. induction l as [|x l IH]; intros k m Hs; [by apply elem_of_nil in Hs|].
  simpl fold_left. destruct (decide (s ∈ l)) as [Hin|Hnin].
  - destruct (IH (k + 1) (index_insert m (k, x)) Hin) as (j & Hj & Hb).
    exists j. split; [done|]. simpl length. lia.
  - apply elem_of_cons in Hs as [->|?]; [|done].
    exists k. rewrite index_notin by done.
    unfold index_insert; simpl. rewrite lookup_insert_eq. split; [done|].
    simpl length. lia.
Qed.

Lemma reaction_order_lookup (reaction_ids : list string) i s :
  NoDup reaction_ids → reaction_ids !! i = Some s →
  reaction_order reaction_ids !! s = Some (Z.of_nat i).
Proof. intros Hnd Hi. unfold reaction_order. apply (index_lookup _ 0 ∅ i s Hnd Hi). Qed.

Lemma reaction_order_notin (reaction_ids : list string) s :
  s ∉ reaction_ids → reaction_order reaction_ids !! s = None.
Proof. intros Hs. unfold reaction_order. by rewrite (index_notin _ 0 ∅ s Hs). Qed.

Lemma reaction_order_bound (reaction_ids : list string) s :
  s ∈ reaction_ids →
  ∃ j, reaction_order reaction_ids !! s = Some j
       ∧ 0 ≤ j < Z.of_nat (length reaction_ids).
Proof. intros Hs. apply (index_bound _ 0 ∅ s Hs). Qed.

(** ** The per-item fetch *)
Section Fetch.
Context (float_repr : float → string) (json_loads : string → res pyval).

Local Abbreviation read_record := (read_record json_loads).
Local Abbreviation answer := (answer json_loads).
Local Abbreviation retry_loop := (retry_loop json_loads).
Local Abbreviation scrape_reaction_data := (scrape_reaction_data json_loads).
Local Abbreviation wrapper := (scrape_single_reaction_wrapper float_repr json_loads).

Lemma read_record_shape rid p r :
  read_record rid p = Ok r → ∃ data, r = fetched rid data.
Proof.
  unfold ORD.read_record.
  repeat match goal with
         | |- context [if ?b then _ else _] => destruct b
         | |- context [match pre_text p with _ => _ end] => destruct (pre_text p)
         end; try discriminate.
  destruct (json_loads _) as [data|]; simpl; [|discriminate].
  intros [= <-]. by exists data.
Qed.

Lemma after_0 (d : driver) : after d 0 = d.
Proof. unfold after. destruct d; simpl. f_equal. lia. Qed.

Lemma after_after (d : driver) n m : after (after d n) m = after d (n + m).
Proof. unfold after; simpl. f_equal. lia. Qed.

Lemma retry_loop_all_fail attempts rid d :
  (∀ k, (gets d ≤ k < gets d + length attempts)%nat → is_ok (answer d rid k) = false) →
  retry_loop attempts rid d = (max_retries_exceeded rid, after d (length attempts)).
Proof.
  revert d. induction attempts as [|a attempts IH]; intros d Hfail; simpl.
  - by rewrite after_0.
  - unfold attempt_once. destruct (answer d rid (gets d)) eqn:E.
    { specialize (Hfail (gets d)). rewrite E in Hfail. simpl in Hfail.
      discriminate Hfail. lia. }
    rewrite IH, after_after; [done|].
    intros k Hk. simpl in Hk. apply (Hfail k). simpl. lia.
Qed.

Lemma retry_loop_first_success attempts rid d j r :
  (j < length attempts)%nat →
  (∀ k, (gets d ≤ k < gets d + j)%nat → is_ok (answer d rid k) = false) →
  answer d rid (gets d + j) = Ok r →
  retry_loop attempts rid d = (r, after d (S j)).
Proof.
  revert d j. induction attempts as [|a attempts IH]; intros d j Hj Hfail Hok;
    simpl in Hj; [lia|].
  simpl. unfold attempt_once. destruct j as [|j].
  - rewrite Nat.add_0_r in Hok. by rewrite Hok.
  - destruct (answer d rid (gets d)) eqn:E.
    { specialize (Hfail (gets d)). rewrite E in Hfail. simpl in Hfail.
      discriminate Hfail. lia. }
    rewrite (IH _ j), after_after; [done|lia| |].
    + intros k Hk. simpl in Hk. apply (Hfail k). lia.
    + simpl. rewrite <- Hok. unfold ORD.answer. simpl. do 2 f_equal. lia.
Qed.

Lemma retry_loop_shape attempts rid d :
  fst (retry_loop attempts rid d) = max_retries_exceeded rid
  ∨ ∃ data, fst (retry_loop attempts rid d) = fetched rid data.
Proof.
  revert d. induction attempts as [|a attempts IH]; intros d; simpl; [by left|].
  unfold attempt_once.
  destruct (answer d rid (gets d)) as [r|] eqn:E; simpl; [|apply IH].
  right. by apply read_record_shape in E.
Qed.

Lemma scrape_reaction_data_all_fail d rid max_retries :
  (∀ k, is_ok (answer d rid k) = false) →
  scrape_reaction_data d rid max_retries
  = (max_retries_exceeded rid, after d (Z.to_nat max_retries)).
Proof.
  intros Hfail. unfold ORD.scrape_reaction_data.
  rewrite retry_loop_all_fail, length_seqZ; [done|auto].
Qed.

(** A failed fetch is formatted no further. *)
Lemma wrapper_failure d rid :
  fst (scrape_reaction_data d rid default_max_retries) = max_retries_exceeded rid →
  wrapper (Ok d) rid = Ok (max_retries_exceeded rid).
Proof. intros H. unfold scrape_single_reaction_wrapper. simpl. by rewrite H. Qed.

(** Every result a worker returns names the reaction it was asked for. *)
Lemma wrapper_reaction_id launch rid r :
  wrapper launch rid = Ok r → getitem r "reaction_id" = Ok (PStr rid).
Proof.
  unfold scrape_single_reaction_wrapper. destruct launch as [d|]; simpl; [|done].
  destruct (retry_loop_shape (seqZ 0 default_max_retries) rid d) as [H|[data H]];
    unfold ORD.scrape_reaction_data; rewrite H; simpl.
  - by intros [= <-].
  - destruct (format_reaction_data _ _) as [fd|]; simpl; [|done].
    by intros [= <-].
Qed.

Lemma settle_reaction_id launch rid :
  getitem (settle rid (wrapper launch rid)) "reaction_id" = Ok (PStr rid).
Proof.
  destruct (wrapper launch rid) eqn:E; simpl; [|done].
  by apply wrapper_reaction_id in E.
Qed.
End Fetch.

(** ** Ordering of the gathered results *)

Lemma gather_fmap (completed : list (string * res pyval)) acc :
  gather completed acc = acc ++ map (λ cf, settle (fst cf) (snd cf)) completed.
Proof.
  revert acc. induction completed as [|[rid fut] completed IH]; intros acc; simpl.
  - by rewrite app_nil_r.
  - by rewrite IH, <- app_assoc.
Qed.

Lemma rank_of_ok reaction_ids x :
  is_ok (discovery_rank (reaction_order reaction_ids) x) = true →
  discovery_rank (reaction_order reaction_ids) x = Ok (rank_of reaction_ids x).
Proof. unfold rank_of. by destruct (discovery_rank _ _). Qed.

Lemma rank_of_discovered reaction_ids i rid x :
  NoDup reaction_ids → reaction_ids !! i = Some rid →
  getitem x "reaction_id" = Ok (PStr rid) →
  discovery_rank (reaction_order reaction_ids) x = Ok (Z.of_nat i).
Proof.
  intros Hnd Hi Hx. unfold discovery_rank. rewrite Hx. simpl.
  by rewrite (reaction_order_lookup _ i rid).
Qed.

(** An indexed result ranks below the batch size, any other one at the
    fallback rank. *)
Lemma rank_of_cases reaction_ids x :
  is_ok (discovery_rank (reaction_order reaction_ids) x) = true →
  (indexed reaction_ids x = true
   ∧ 0 ≤ rank_of reaction_ids x < Z.of_nat (length reaction_ids))
  ∨ (indexed reaction_ids x = false ∧ rank_of reaction_ids x = 999999).
Proof.
  unfold rank_of, indexed, discovery_rank.
  destruct (getitem x "reaction_id") as [v|]; simpl; [|done].
  destruct v as [| | | |s| |]; simpl; try (by right); try done.
  intros _. destruct (decide (s ∈ reaction_ids)) as [Hin|Hnin].
  - left. rewrite bool_decide_eq_true_2 by done.
    destruct (reaction_order_bound _ _ Hin) as (j & -> & Hj). by simpl.
  - right. rewrite bool_decide_eq_false_2 by done.
    by rewrite reaction_order_notin.
Qed.

Lemma filter_fmap_keyed {A} (rk : A → Z) (f : Z → bool) (l : list A) :
  List.filter (λ kx : Z * A, f (fst kx)) (map (λ x, (rk x, x)) l)
  = map (λ x, (rk x, x)) (List.filter (λ x, f (rk x)) l).
Proof.
  induction l as [|x l IH]; simpl; [done|].
  destruct (f (rk x)); simpl; by rewrite IH.
Qed.

Lemma snd_keyed {A} (rk : A → Z) (l : list A) : map snd (map (λ x, (rk x, x)) l) = l.
Proof. induction l as [|x l IH]; simpl; [done|]. by rewrite IH. Qed.

(** Discovery order is restored whatever the arrival order. *)
Lemma restore_order_discovery reaction_ids (rs0 rs : list pyval) :
  NoDup reaction_ids →
  Forall2 (λ r rid, getitem r "reaction_id" = Ok (PStr rid)) rs0 reaction_ids →
  rs ≡ₚ rs0 →
  restore_order reaction_ids rs = Ok rs0.
Proof.
  intros Hnd Hids Hperm.
  assert (∀ i x, rs0 !! i = Some x →
            discovery_rank (reaction_order reaction_ids) x = Ok (Z.of_nat i)) as Hrank.
  { intros i x Hi.
    destruct (Forall2_lookup_l _ _ _ _ _ Hids Hi) as (rid & Hrid & Hx).
    by apply (rank_of_discovered _ i rid). }
  assert (Forall (λ x, discovery_rank (reaction_order reaction_ids) x
                       = Ok (rank_of reaction_ids x)) rs) as Hall.
  { apply Forall_forall. intros x Hx. rewrite Hperm in Hx.
    apply list_elem_of_lookup in Hx as [i Hi].
    apply rank_of_ok. by rewrite (Hrank i x Hi). }
  unfold restore_order, sort_by. rewrite (keys_of_ok _ _ _ Hall). simpl. f_equal.
  transitivity (map snd (enumerate_from 0 rs0)); [f_equal|apply enumerate_from_snd].
  apply sorted_by_distinct_keys.
  - rewrite enumerate_from_keys. apply NoDup_seqZ.
  - apply stable_sort_sorted.
  - apply enumerate_from_sorted.
  - rewrite stable_sort_perm, Hperm.
    rewrite (enumerate_from_fmap (rank_of reaction_ids) rs0 0); [done|].
    intros i x Hi. unfold rank_of. rewrite (Hrank i x Hi). lia.
Qed.

(** In a batch of at most 999999 ids, the results without an index entry
    follow all indexed ones, in arrival order. *)
Lemma restore_order_unindexed reaction_ids (rs : list pyval) :
  Z.of_nat (length reaction_ids) ≤ 999999 →
  Forall (λ x, is_ok (discovery_rank (reaction_order reaction_ids) x) = true) rs →
  ∃ front,
    restore_order reaction_ids rs
    = Ok (front ++ List.filter (λ x, negb (indexed reaction_ids x)) rs)
    ∧ front ≡ₚ List.filter (indexed reaction_ids) rs.
Proof.
  intros Hlen Hall.
  assert (Forall (λ x, discovery_rank (reaction_order reaction_ids) x
                       = Ok (rank_of reaction_ids x)) rs) as Hkeys.
  { eapply Forall_impl; [exact Hall|]. intros x Hx. by apply rank_of_ok. }
  assert (∀ x, In x rs →
            Z.ltb (rank_of reaction_ids x) 999999 = indexed reaction_ids x
            ∧ Z.eqb (rank_of reaction_ids x) 999999 = negb (indexed reaction_ids x)
            ∧ rank_of reaction_ids x ≤ 999999) as Hcase.
  { intros x Hx. rewrite List.Forall_forall in Hall.
    destruct (rank_of_cases reaction_ids x (Hall x Hx)) as [[-> Hr]|[-> ->]].
    - repeat split; [apply Z.ltb_lt|apply Z.eqb_neq|]; lia.
    - done. }
  set (keyed := map (λ x, (rank_of reaction_ids x, x)) rs).
  exists (map snd (stable_sort (List.filter (λ kx, Z.ltb (fst kx) 999999) keyed))).
  unfold restore_order, sort_by. rewrite (keys_of_ok _ _ _ Hkeys). simpl.
  fold keyed. split.
  - f_equal. rewrite (stable_sort_top 999999 keyed), map_app.
    + f_equal. unfold keyed.
      rewrite (filter_fmap_keyed _ (λ k, Z.eqb k 999999)), snd_keyed.
      apply List.filter_ext_in. intros x Hx. by apply Hcase.
    + unfold keyed. apply List.Forall_forall. intros kx Hkx.
      apply List.in_map_iff in Hkx as (x & <- & Hx). simpl. by apply Hcase.
  - rewrite stable_sort_perm. unfold keyed.
    rewrite (filter_fmap_keyed _ (λ k, Z.ltb k 999999)), snd_keyed.
    rewrite (List.filter_ext_in _ (indexed reaction_ids)); [done|].
    intros x Hx. by apply Hcase.
Qed.

(** Past 999999 ids the fallback rank is no longer the largest. *)
Lemma restore_order_overtaken (n : Z) :
  999999 < n →
  restore_order (Scenario.batch (n + 1)) [Scenario.stray; Scenario.late n]
  = Ok [Scenario.stray; Scenario.late n]
  ∧ indexed (Scenario.batch (n + 1)) (Scenario.late n) = true
  ∧ indexed (Scenario.batch (n + 1)) Scenario.stray = false.
Proof.
  intros Hn.
  assert (NoDup (Scenario.batch (n + 1))) as Hnd.
  { unfold Scenario.batch. apply NoDup_fmap_2_strong; [|apply NoDup_seqZ].
    intros x y _ _ Heq. apply (inj pretty).
    by apply (inj (String.append "ord-")) in Heq. }
  assert (Scenario.batch (n + 1) !! Z.to_nat n = Some ("ord-" +:+ pretty n)) as Hlook.
  { unfold Scenario.batch. rewrite list_lookup_fmap, lookup_seqZ_lt by lia.
    simpl. do 3 f_equal. lia. }
  assert ("stray" ∉ Scenario.batch (n + 1)) as Hstray.
  { unfold Scenario.batch. intros (z & Hz & _)%list_elem_of_fmap. discriminate Hz. }
  assert (discovery_rank (reaction_order (Scenario.batch (n + 1))) (Scenario.late n)
          = Ok n) as Hlate.
  { rewrite (rank_of_discovered _ (Z.to_nat n) ("ord-" +:+ pretty n)); [|done..].
    f_equal. lia. }
  assert (discovery_rank (reaction_order (Scenario.batch (n + 1))) Scenario.stray
          = Ok 999999) as Hs.
  { unfold discovery_rank, Scenario.stray. simpl. by rewrite reaction_order_notin. }
  split; [|split].
  - unfold restore_order, sort_by, keys_of. rewrite Hs, Hlate. simpl.
    unfold stable_sort. simpl.
    by assert (Z.ltb n 999999 = false) as -> by (apply Z.ltb_ge; lia).
  - unfold indexed, Scenario.late. simpl. apply bool_decide_eq_true.
    eapply list_elem_of_lookup_2. exact Hlook.
  - unfold indexed, Scenario.stray. simpl. by apply bool_decide_eq_false.
Qed.

End ORDFacts.

(* ===================================================================== *)
(** * Facts about [ORD.py]: listing traversal *)
(* ===================================================================== *)
Module TraversalFacts.
Import Py Web ORD.

Ltac case_href link :=
  destruct (get_attribute link "href") as [[href|]|]; simpl;
  [destruct (nonempty href); simpl| |].

(** *** The link loops only append ids that are new *)

Lemma collect_dataset_ids_extends links acc :
  ∃ new, collect_dataset_ids links acc = acc ++ new.
Proof.
  revert acc. induction links as [|link links IH]; intros acc; simpl.
  - exists []. by rewrite app_nil_r.
  - case_href link; [|apply IH..].
    destruct (_ && _); [|apply IH].
    destruct (IH (acc ++ [last_segment href])) as [new ->].
    exists (last_segment href :: new). by rewrite <- app_assoc.
Qed.

Lemma NoDup_snoc_fresh (acc : list string) x :
  NoDup acc → bool_decide (x ∈ acc) = false → NoDup (acc ++ [x]).
Proof.
  intros Hnd Hx%bool_decide_eq_false. apply NoDup_app. split; [done|]. split.
  - intros y Hy ->%list_elem_of_singleton. done.
  - apply NoDup_singleton.
Qed.

Lemma collect_dataset_ids_NoDup links acc :
  NoDup acc → NoDup (collect_dataset_ids links acc).
Proof.
  revert acc. induction links as [|link links IH]; intros acc Hnd; simpl; [done|].
  case_href link; [|by apply IH..].
  destruct (nonempty (last_segment href)); simpl; [|by apply IH].
  destruct (bool_decide _) eqn:E; simpl; [by apply IH|].
  apply IH. by apply NoDup_snoc_fresh.
Qed.

(** A link whose id is already held changes nothing, whatever the rest of
    its URL looks like. *)
Lemma collect_dataset_ids_known link links acc href :
  get_attribute link "href" = Ok (Some href) →
  last_segment href ∈ acc →
  collect_dataset_ids (link :: links) acc = collect_dataset_ids links acc.
Proof.
  intros Hh Hin. simpl. rewrite Hh.
  destruct (nonempty href); [|done].
  rewrite (bool_decide_eq_true_2 _ Hin). simpl. by rewrite andb_false_r.
Qed.

Lemma collect_reaction_ids_known max_reactions link links acc href :
  get_attribute link "href" = Ok (Some href) →
  last_segment href ∈ acc →
  collect_reaction_ids max_reactions (link :: links) acc
  = collect_reaction_ids max_reactions links acc.
Proof.
  intros Hh Hin. simpl. rewrite Hh.
  destruct (nonempty href); [|done].
  rewrite (bool_decide_eq_true_2 _ Hin). simpl. by rewrite andb_false_r.
Qed.

Lemma slice_to_NoDup (l : list string) m : NoDup l → NoDup (slice_to l m).
Proof.
  intros Hnd. unfold slice_to.
  destruct (Z.ltb m 0); (eapply sublist_NoDup; [exact Hnd|apply sublist_take]).
Qed.

Lemma collect_reaction_ids_NoDup max_reactions links acc :
  NoDup acc →
  match collect_reaction_ids max_reactions links acc with
  | inl r => NoDup r
  | inr all' => NoDup all'
  end.
Proof.
  revert acc. induction links as [|link links IH]; intros acc Hnd; simpl; [done|].
  case_href link; [|by apply IH..].
  destruct (startswith (last_segment href) "ord-"); simpl; [|by apply IH].
  destruct (bool_decide _) eqn:E; simpl; [by apply IH|].
  pose proof (NoDup_snoc_fresh _ _ Hnd E) as Hnd'.
  destruct (limit_reached _ _); [by apply slice_to_NoDup|by apply IH].
Qed.

Lemma collect_reaction_ids_extends max_reactions links acc all' :
  collect_reaction_ids max_reactions links acc = inr all' →
  ∃ new, all' = acc ++ new.
Proof.
  revert acc. induction links as [|link links IH]; intros acc; simpl.
  - intros [= <-]. exists []. by rewrite app_nil_r.
  - case_href link; [|apply IH..].
    destruct (_ && _); [|apply IH].
    destruct (limit_reached _ _); [done|].
    intros [new ->]%IH. exists (last_segment href :: new). by rewrite <- app_assoc.
Qed.

(** *** One page of either traversal *)

Lemma advance_ids s : step_ids (advance s) = ids s.
Proof.
  unfold advance. destruct (next_controls _) as [bs|]; [|done].
  by destruct (click_next bs (session s)).
Qed.

Lemma dataset_page_NoDup total s :
  NoDup (ids s) → NoDup (step_ids (dataset_page total s)).
Proof.
  intros Hnd. unfold dataset_page.
  destruct (links_css _) as [[|link links]|]; [done| |done].
  pose proof (collect_dataset_ids_NoDup (link :: links) _ Hnd) as Hc.
  destruct (all_collected _ _); [done|].
  destruct (Z.eqb _ _); [done|]. by rewrite advance_ids.
Qed.

Lemma reaction_page_NoDup total max_reactions s :
  NoDup (ids s) → NoDup (step_ids (reaction_page total max_reactions s)).
Proof.
  intros Hnd. unfold reaction_page.
  destruct (find_reaction_links _) as [[|link links]|]; [done| |done].
  pose proof (collect_reaction_ids_NoDup max_reactions (link :: links) _ Hnd) as Hc.
  destruct (collect_reaction_ids _ _ _) as [r|all']; [done|].
  destruct (all_collected _ _); [done|].
  destruct (Z.eqb _ _); [done|]. by rewrite advance_ids.
Qed.

Lemma dataset_loop_NoDup fuel total s :
  NoDup (ids s) → NoDup (collected (dataset_loop fuel total s)).
Proof.
  revert s. induction fuel as [|fuel IH]; intros s Hnd; simpl; [done|].
  pose proof (dataset_page_NoDup total s Hnd) as Hp.
  destruct (dataset_page total s); simpl in *; auto.
Qed.

Lemma reaction_loop_NoDup fuel total max_reactions s :
  NoDup (ids s) → NoDup (collected (reaction_loop fuel total max_reactions s)).
Proof.
  revert s. induction fuel as [|fuel IH]; intros s Hnd; simpl; [done|].
  pose proof (reaction_page_NoDup total max_reactions s Hnd) as Hp.
  destruct (reaction_page total max_reactions s); simpl in *; auto.
Qed.

(** *** Stuck pagination *)

(** Clicking is the only way on: a step that continues has clicked once,
    moved to the next page and recorded the count it reached. *)
Lemma advance_continue s s' :
  advance s = Continue s' →
  ids s' = ids s ∧ prev_count s' = prev_count s ∧ page s' = page s + 1
  ∧ session s' = click (session s).
Proof.
  unfold advance. destruct (next_controls _) as [bs|]; [|done].
  destruct (click_next bs (session s)) as [b'|] eqn:E; [|done].
  intros [= <-]; simpl. repeat split.
  clear -E. induction bs as [|btn bs IH]; simpl in E; [done|].
  destruct (try_except _ _); [by injection E|auto].
Qed.

Lemma dataset_page_continue total s s' :
  dataset_page total s = Continue s' →
  prev_count s' = Z.of_nat (length (ids s')) ∧ page s' = page s + 1
  ∧ session s' = click (session s).
Proof.
  unfold dataset_page.
  destruct (links_css _) as [[|link links]|]; [done| |done].
  destruct (all_collected _ _); [done|].
  destruct (Z.eqb _ _); [done|].
  intros (Hi & Hp & Hg & Hs)%advance_continue; simpl in *.
  by rewrite Hp, Hi.
Qed.

Lemma reaction_page_continue total max_reactions s s' :
  reaction_page total max_reactions s = Continue s' →
  prev_count s' = Z.of_nat (length (ids s')) ∧ page s' = page s + 1
  ∧ session s' = click (session s).
Proof.
  unfold reaction_page.
  destruct (find_reaction_links _) as [[|link links]|]; [done| |done].
  destruct (collect_reaction_ids _ _ _) as [r|all']; [done|].
  destruct (all_collected _ _); [done|].
  destruct (Z.eqb _ _); [done|].
  intros (Hi & Hp & Hg & Hs)%advance_continue; simpl in *.
  by rewrite Hp, Hi.
Qed.

Lemma extends_same_length {A} (acc new : list A) :
  length (acc ++ new) = length acc → acc ++ new = acc.
Proof.
  rewrite length_app. destruct new; [by rewrite app_nil_r|]. simpl. lia.
Qed.

(** When the count after scraping the page equals the previous count, the
    page breaks out of the loop and no control is clicked. *)
Lemma dataset_page_stuck total s links :
  links_css (dom (session s)) = Ok links →
  Z.of_nat (length (collect_dataset_ids links (ids s))) = prev_count s →
  ∃ s', dataset_page total s = Break s'
        ∧ session s' = session s ∧ page s' = page s
        ∧ ids s' = collect_dataset_ids links (ids s).
Proof.
  intros Hl Hc. unfold dataset_page. rewrite Hl.
  destruct links as [|link links]; [by exists s|].
  destruct (all_collected _ _); [by eexists|].
  rewrite Hc, Z.eqb_refl. by eexists.
Qed.

Lemma reaction_page_stuck total max_reactions s links all' :
  find_reaction_links (dom (session s)) = Ok links →
  collect_reaction_ids max_reactions links (ids s) = inr all' →
  Z.of_nat (length all') = prev_count s →
  ∃ s', reaction_page total max_reactions s = Break s'
        ∧ session s' = session s ∧ page s' = page s
        ∧ ids s' = all'.
Proof.
  intros Hl Hr Hc. unfold reaction_page. rewrite Hl.
  destruct links as [|link links].
  { simpl in Hr. injection Hr as <-. by exists s. }
  rewrite Hr. destruct (all_collected _ _); [by eexists|].
  rewrite Hc, Z.eqb_refl. by eexists.
Qed.

(** A second page that adds no id ends the walk there. *)
Lemma dataset_loop_stuck total s s1 links fuel :
  dataset_page total s = Continue s1 →
  links_css (dom (session s1)) = Ok links →
  length (collect_dataset_ids links (ids s1)) = length (ids s1) →
  ∃ s2, dataset_loop (S (S fuel)) total s = Returned (ids s2) s2
        ∧ session s2 = click (session s) ∧ page s2 = page s + 1
        ∧ ids s2 = ids s1.
Proof.
  intros Hc Hl Hsame.
  destruct (dataset_page_continue _ _ _ Hc) as (Hp & Hpage & Hsess).
  destruct (dataset_page_stuck total s1 links Hl) as (s2 & Hb & Hs2 & Hp2 & Hids).
  { by rewrite Hsame, Hp. }
  exists s2. simpl. rewrite Hc, Hb. repeat split; [congruence..|].
  rewrite Hids. destruct (collect_dataset_ids_extends links (ids s1)) as [new Hnew].
  rewrite Hnew in Hsame |- *. by apply extends_same_length.
Qed.

Lemma reaction_loop_stuck total max_reactions s s1 links all' fuel :
  reaction_page total max_reactions s = Continue s1 →
  find_reaction_links (dom (session s1)) = Ok links →
  collect_reaction_ids max_reactions links (ids s1) = inr all' →
  length all' = length (ids s1) →
  ∃ s2, reaction_loop (S (S fuel)) total max_reactions s = Returned (ids s2) s2
        ∧ session s2 = click (session s) ∧ page s2 = page s + 1
        ∧ ids s2 = ids s1.
Proof.
  intros Hc Hl Hr Hsame.
  destruct (reaction_page_continue _ _ _ _ Hc) as (Hp & Hpage & Hsess).
  destruct (reaction_page_stuck total max_reactions s1 links all' Hl Hr)
    as (s2 & Hb & Hs2 & Hp2 & Hids).
  { by rewrite Hsame, Hp. }
  exists s2. simpl. rewrite Hc, Hb. repeat split; [congruence..|].
  rewrite Hids. destruct (collect_reaction_ids_extends _ _ _ _ Hr) as [new ->].
  by apply extends_same_length.
Qed.

End TraversalFacts.

(* ===================================================================== *)
(** * Facts about [ORD.py]: the payload normaliser *)
(* ===================================================================== *)
Module NormaliserFacts.
Import Py Web ORD PyFacts.

Lemma get_dict v k d : is_dict v = true → get v k d = Ok (lookup_or v k d).
Proof. by destruct v. Qed.

Lemma get_ok v k d x : get v k d = Ok x → is_dict v = true ∧ x = lookup_or v k d.
Proof. destruct v; try done. by intros [= <-]. Qed.

Lemma iter_list_of P v : list_of P v = true → iter v = Ok (elements v).
Proof. unfold list_of, elements. by destruct (iter v). Qed.

Lemma list_of_items P v : list_of P v = true → forallb P (elements v) = true.
Proof. unfold list_of. by intros [_ ?]%andb_true_iff. Qed.

Lemma iter_ok P v l : iter v = Ok l → forallb P l = true → list_of P v = true.
Proof. unfold list_of, elements. by intros ->. Qed.

(** Steps through one [x ← m; ...] of a computation that returned. *)
Ltac step_ok E :=
  match goal with
  | |- context [?m ≫= _] => destruct m eqn:E; simpl; [|discriminate]
  end.

Section Normaliser.
Context (float_repr : float → string).

Local Abbreviation smiles_identifiers := ORD.smiles_identifiers.
Local Abbreviation normal_component := (ORD.normal_component float_repr).
Local Abbreviation wf_component := ORD.wf_component.

Lemma smiles_identifiers_spec l acc :
  forallb is_dict l = true →
  smiles_identifiers l acc = Ok (acc ++ map smiles_entry (List.filter is_smiles l)).
Proof.
  revert acc. induction l as [|i l IH]; intros acc Hl; simpl.
  - by rewrite app_nil_r.
  - apply andb_true_iff in Hl as [Hi Hl].
    rewrite (get_dict i "type" PNone Hi). simpl. unfold is_smiles.
    destruct (eq_int (lookup_or i "type" PNone) 2); simpl.
    + rewrite (get_dict i "value" PNone Hi). simpl.
      rewrite IH by done. by rewrite <- app_assoc.
    + by apply IH.
Qed.

Lemma smiles_identifiers_wf l acc r :
  smiles_identifiers l acc = Ok r → forallb is_dict l = true.
Proof.
  revert acc. induction l as [|i l IH]; intros acc; simpl; [done|].
  step_ok E. apply get_ok in E as [-> _]. simpl.
  destruct (eq_int _ 2); [|apply IH].
  step_ok E'. apply IH.
Qed.

Lemma kept_identifiers_spec c :
  is_dict c = true → list_of is_dict (lookup_or c "identifiersList" (PList [])) = true →
  (get c "identifiersList" (PList []) ≫= iter) ≫= (λ l, smiles_identifiers l [])
  = Ok (kept_identifiers c).
Proof.
  intros Hc Hl. rewrite (get_dict c _ _ Hc). simpl.
  rewrite (iter_list_of _ _ Hl). simpl.
  rewrite smiles_identifiers_spec by (by apply list_of_items). done.
Qed.

Lemma role_name_ok v :
  hashable v = true → get_reaction_role_name float_repr v = Ok (role_name float_repr v).
Proof. unfold role_name, get_reaction_role_name. by intros ->. Qed.

Lemma role_name_hashable v s :
  get_reaction_role_name float_repr v = Ok s → hashable v = true.
Proof. unfold get_reaction_role_name. by destruct (hashable v). Qed.

Lemma format_components_spec l acc :
  forallb wf_component l = true →
  format_components float_repr l acc = Ok (acc ++ map normal_component l).
Proof.
  revert acc. induction l as [|c l IH]; intros acc Hl; simpl.
  - by rewrite app_nil_r.
  - apply andb_true_iff in Hl as [Hc Hl]. unfold ORD.wf_component in Hc.
    apply andb_true_iff in Hc as [[Hd Hi]%andb_true_iff Hr].
    pose proof (kept_identifiers_spec c Hd Hi) as Hk.
    rewrite (get_dict c "identifiersList" _ Hd) in Hk |- *. simpl in Hk |- *.
    rewrite (iter_list_of _ _ Hi) in Hk |- *. simpl in Hk |- *. rewrite Hk. simpl.
    rewrite (get_dict c "reactionRole" _ Hd). simpl.
    rewrite (role_name_ok _ Hr). simpl.
    rewrite IH by done. by rewrite <- app_assoc.
Qed.

Lemma format_components_wf l acc r :
  format_components float_repr l acc = Ok r → forallb wf_component l = true.
Proof.
  revert acc. induction l as [|c l IH]; intros acc; simpl; [done|].
  step_ok E1. apply get_ok in E1 as [Hd ->].
  step_ok E2. step_ok E3. apply smiles_identifiers_wf in E3.
  step_ok E4. apply get_ok in E4 as [_ ->].
  step_ok E5. apply role_name_hashable in E5.
  intros Hrest%IH. rewrite Hrest, andb_true_r. unfold ORD.wf_component.
  by rewrite Hd, (iter_ok _ _ _ E2 E3), E5.
Qed.

Lemma format_inputs_spec l acc :
  forallb (wf_input) l = true →
  format_inputs float_repr l acc = Ok (acc ++ map (normal_input float_repr) l).
Proof.
  revert acc. induction l as [|e l IH]; intros acc Hl; simpl.
  - by rewrite app_nil_r.
  - apply andb_true_iff in Hl as [He Hl]. unfold wf_input in He. unfold normal_input.
    destruct (index e 0) as [tab|]; simpl; [|done].
    destruct (index e 1) as [input_data|]; simpl; [|done].
    apply andb_true_iff in He as [Hd Hc].
    rewrite (get_dict input_data "componentsList" _ Hd). simpl.
    rewrite (iter_list_of _ _ Hc). simpl.
    rewrite format_components_spec by (by apply list_of_items). simpl.
    rewrite IH by done. by rewrite <- app_assoc.
Qed.

Lemma format_inputs_wf l acc r :
  format_inputs float_repr l acc = Ok r → forallb wf_input l = true.
Proof.
  revert acc. induction l as [|e l IH]; intros acc; simpl; [done|].
  unfold wf_input at 1.
  step_ok E0. step_ok E1.
  step_ok E2. apply get_ok in E2 as [Hd ->].
  step_ok E3. step_ok E4. apply format_components_wf in E4.
  intros Hrest%IH. rewrite Hrest, andb_true_r.
  by rewrite Hd, (iter_ok _ _ _ E3 E4).
Qed.

Lemma format_products_spec l acc :
  forallb wf_product l = true →
  format_products l acc = Ok (acc ++ map normal_product l).
Proof.
  revert acc. induction l as [|p l IH]; intros acc Hl; simpl.
  - by rewrite app_nil_r.
  - apply andb_true_iff in Hl as [Hp Hl]. unfold wf_product in Hp.
    apply andb_true_iff in Hp as [Hd Hi].
    pose proof (kept_identifiers_spec p Hd Hi) as Hk.
    rewrite (get_dict p "identifiersList" _ Hd) in Hk |- *. simpl in Hk |- *.
    rewrite (iter_list_of _ _ Hi) in Hk |- *. simpl in Hk |- *. rewrite Hk. simpl.
    rewrite (get_dict p "isDesiredProduct" _ Hd). simpl.
    rewrite IH by done. by rewrite <- app_assoc.
Qed.

Lemma format_products_wf l acc r :
  format_products l acc = Ok r → forallb wf_product l = true.
Proof.
  revert acc. induction l as [|p l IH]; intros acc; simpl; [done|].
  step_ok E1. apply get_ok in E1 as [Hd ->].
  step_ok E2. step_ok E3. apply smiles_identifiers_wf in E3.
  step_ok E4.
  intros Hrest%IH. rewrite Hrest, andb_true_r. unfold wf_product.
  by rewrite Hd, (iter_ok _ _ _ E2 E3).
Qed.

Lemma format_outcomes_spec l acc :
  forallb wf_outcome l = true →
  format_outcomes l acc
  = Ok (acc ++ flat_map
                 (λ o, map normal_product
                         (elements (lookup_or o "productsList" (PList [])))) l).
Proof.
  revert acc. induction l as [|o l IH]; intros acc Hl; simpl.
  - by rewrite app_nil_r.
  - apply andb_true_iff in Hl as [Ho Hl]. unfold wf_outcome in Ho.
    apply andb_true_iff in Ho as [Hd Hp].
    rewrite (get_dict o "productsList" _ Hd). simpl.
    rewrite (iter_list_of _ _ Hp). simpl.
    rewrite format_products_spec by (by apply list_of_items). simpl.
    rewrite IH by done. by rewrite <- app_assoc.
Qed.

Lemma format_outcomes_wf l acc r :
  format_outcomes l acc = Ok r → forallb wf_outcome l = true.
Proof.
  revert acc r. induction l as [|o l IH]; intros acc r; simpl; [done|].
  step_ok E1. apply get_ok in E1 as [Hd ->].
  step_ok E2. step_ok E3. apply format_products_wf in E3.
  intros Hrest%IH. rewrite Hrest, andb_true_r. unfold wf_outcome.
  by rewrite Hd, (iter_ok _ _ _ E2 E3).
Qed.

(** On a payload the loops can walk, the normaliser returns the record read
    off the payload by maps and filters. *)
Lemma format_reaction_data_spec rid data :
  wf_payload data = true →
  format_reaction_data float_repr (fetched rid data)
  = Ok (normal_record float_repr data).
Proof.
  unfold wf_payload. intros [[Hd Hi]%andb_true_iff Ho]%andb_true_iff.
  destruct data as [| | | | | |d]; try done.
  unfold format_reaction_data, normal_record, fetched. simpl in *.
  destruct (assoc "inputsMap" d) as [vi|] eqn:Ei;
    destruct (assoc "outcomesList" d) as [vo|] eqn:Eo; simpl in *.
  all: rewrite ?(iter_list_of _ _ Hi), ?(iter_list_of _ _ Ho); simpl.
  all: rewrite ?format_inputs_spec by (by apply list_of_items); simpl.
  all: rewrite ?(iter_list_of _ _ Ho); simpl.
  all: rewrite ?format_outcomes_spec by (by apply list_of_items); simpl.
  all: done.
Qed.

(** It returns on no other payload. *)
Lemma format_reaction_data_wf rid data out :
  format_reaction_data float_repr (fetched rid data) = Ok out →
  wf_payload data = true.
Proof.
  unfold format_reaction_data, fetched, wf_payload. simpl.
  destruct data as [| | | | | |d]; try done. simpl.
  assert (∀ vo r,
            iter vo ≫= (λ l, format_outcomes l []) = Ok r → list_of wf_outcome vo = true)
    as Hout.
  { intros vo r. destruct (iter vo) as [lo|] eqn:E; simpl; [|done].
    intros Hf%format_outcomes_wf. by apply (iter_ok _ _ _ E). }
  assert (∀ vi r,
            iter vi ≫= (λ l, format_inputs float_repr l []) = Ok r →
            list_of wf_input vi = true) as Hin.
  { intros vi r. destruct (iter vi) as [li|] eqn:E; simpl; [|done].
    intros Hf%format_inputs_wf. by apply (iter_ok _ _ _ E). }
  destruct (assoc "inputsMap" d) as [vi|] eqn:Ei; simpl.
  - destruct (iter vi ≫= _) as [inputs|] eqn:E1; simpl; [|done].
    rewrite (Hin _ _ E1). simpl.
    destruct (assoc "outcomesList" d) as [vo|] eqn:Eo; simpl; [|done].
    destruct (iter vo ≫= _) as [outcomes|] eqn:E2; simpl; [|done].
    by rewrite (Hout _ _ E2).
  - destruct (assoc "outcomesList" d) as [vo|] eqn:Eo; simpl; [|done].
    destruct (iter vo ≫= _) as [outcomes|] eqn:E2; simpl; [|done].
    by rewrite (Hout _ _ E2).
Qed.

End Normaliser.

End NormaliserFacts.

(* ===================================================================== *)
(** * Facts about the next-page controls *)
(* ===================================================================== *)
Module NextFacts.
Import Py Web.

(** ** [CRD.py]: the target is inspected *)

Lemma next_link_sound cands current_url h :
  CRD.next_link cands current_url = Ok (Some h) →
  h ≠ current_url ∧ contains "#" h = false ∧ nonempty h = true
  ∧ ∃ btn, btn ∈ cands ∧ is_displayed btn = Ok true
           ∧ get_attribute btn "href" = Ok (Some h).
Proof.
  induction cands as [|btn cands IH]; simpl; [done|].
  destruct (is_displayed btn) as [[|]|] eqn:Ed; simpl; [| |done].
  - destruct (get_attribute btn "href") as [href|] eqn:Eh; simpl; [|done].
    destruct (present href) eqn:Ep; simpl.
    + destruct (bool_decide (href = Some current_url)) eqn:Ec; simpl.
      { intros (? & ? & ? & b & ? & ?)%IH. repeat split; [done..|].
        exists b. split; [by right|done]. }
      destruct (contains "#" (default "" href)) eqn:Ef; simpl.
      { intros (? & ? & ? & b & ? & ?)%IH. repeat split; [done..|].
        exists b. split; [by right|done]. }
      intros [= ->]. simpl in *. apply bool_decide_eq_false in Ec.
      repeat split; [congruence|done..|].
      exists btn. split; [by left|done].
    + intros (? & ? & ? & b & ? & ?)%IH. repeat split; [done..|].
      exists b. split; [by right|done].
  - intros (? & ? & ? & b & ? & ?)%IH. repeat split; [done..|].
    exists b. split; [by right|done].
Qed.

(** A control that is hidden, or whose target is the current page or holds a
    ["#"], is passed over. *)
Lemma next_link_skip btn cands current_url :
  stale btn = false →
  (displayed btn = false
   ∨ ∃ h, attrs btn !! "href" = Some h ∧ (h = current_url ∨ contains "#" h = true)) →
  CRD.next_link (btn :: cands) current_url = CRD.next_link cands current_url.
Proof.
  intros Hs Hcase. simpl. unfold is_displayed, get_attribute. rewrite Hs. simpl.
  destruct Hcase as [->|(h & Hh & Hcase)]; [done|].
  destruct (displayed btn); [|done]. simpl. rewrite Hh.
  destruct (present (Some h)); simpl; [|done].
  destruct Hcase as [->| ->].
  - by rewrite bool_decide_eq_true_2.
  - by rewrite andb_false_r.
Qed.

(** The first displayed control with a usable target is taken. *)
Lemma next_link_take btn cands current_url h :
  stale btn = false → displayed btn = true → attrs btn !! "href" = Some h →
  nonempty h = true → h ≠ current_url → contains "#" h = false →
  CRD.next_link (btn :: cands) current_url = Ok (Some h).
Proof.
  intros Hs Hd Hh Hn Hc Hf. simpl. unfold is_displayed, get_attribute.
  rewrite Hs, Hd. simpl. rewrite Hh. simpl. rewrite Hn, Hf. simpl.
  rewrite bool_decide_eq_false_2; [done|congruence].
Qed.

(** A displayed control without an [href], or with an empty one, is passed
    over as well. *)
Lemma next_link_no_href btn cands current_url :
  stale btn = false → present (attrs btn !! "href") = false →
  CRD.next_link (btn :: cands) current_url = CRD.next_link cands current_url.
Proof.
  intros Hs Hp. simpl. unfold is_displayed, get_attribute. rewrite Hs. simpl.
  destruct (displayed btn); [|done]. simpl. by rewrite Hp.
Qed.

(** A stale control ends the search with the driver's exception. *)
Lemma next_link_stale btn cands current_url :
  stale btn = true →
  CRD.next_link (btn :: cands) current_url = Raise WebDriverException.
Proof. intros Hs. simpl. unfold is_displayed. by rewrite Hs. Qed.

(** ** [ORD.py]: the marks of a disabled control are read *)

Lemma clickable_spec btn :
  try_except (ORD.clickable btn) false = true ↔
  stale btn = false ∧ displayed btn = true ∧ enabled btn = true
  ∧ present (attrs btn !! "disabled") = false
  ∧ attrs btn !! "aria-disabled" ≠ Some "true"
  ∧ contains "disabled" (lower (default "" (attrs btn !! "class"))) = false.
Proof.
  unfold ORD.clickable, is_displayed, is_enabled, get_attribute.
  destruct (stale btn); simpl; [by split; [|intros (? & _)]|].
  destruct (displayed btn); simpl; [|by split; [|intros (_ & ? & _)]].
  destruct (enabled btn); simpl; [|by split; [|intros (_ & _ & ? & _)]].
  destruct (present (attrs btn !! "disabled")); simpl;
    [by split; [|intros (_ & _ & _ & ? & _)]|].
  destruct (decide (attrs btn !! "aria-disabled" = Some "true")) as [Ha|Ha].
  - rewrite bool_decide_eq_true_2 by done. simpl.
    split; [done|]. by intros (_ & _ & _ & _ & ? & _).
  - rewrite bool_decide_eq_false_2 by done. simpl.
    destruct (contains "disabled" _); simpl.
    + split; [done|]. by intros (_ & _ & _ & _ & _ & ?).
    + done.
Qed.

Lemma click_next_some all_buttons b :
  (∃ btn, btn ∈ all_buttons ∧ try_except (ORD.clickable btn) false = true) →
  ORD.click_next all_buttons b = Some (ORD.click b).
Proof.
  intros (btn & Hin & Hc).
  induction all_buttons as [|x bs IH]; simpl; [by apply elem_of_nil in Hin|].
  destruct (try_except (ORD.clickable x) false) eqn:Ex; [done|].
  apply IH. apply elem_of_cons in Hin as [->|Hin]; [congruence|done].
Qed.

Lemma click_next_none all_buttons b :
  Forall (λ btn, try_except (ORD.clickable btn) false = false) all_buttons →
  ORD.click_next all_buttons b = None.
Proof. induction 1 as [|x bs Hx _ IH]; simpl; [done|]. by rewrite Hx. Qed.

(** ** [ORD.py]: the target is never read *)

Lemma clickable_ignores_href btn h :
  ORD.clickable (with_attr "href" h btn) = ORD.clickable btn.
Proof.
  unfold ORD.clickable, is_displayed, is_enabled, get_attribute, with_attr. simpl.
  destruct (stale btn); [done|]. simpl.
  by rewrite !lookup_insert_ne.
Qed.

Lemma click_next_ignores_href h all_buttons b :
  ORD.click_next (map (with_attr "href" h) all_buttons) b = ORD.click_next all_buttons b.
Proof.
  induction all_buttons as [|btn bs IH]; simpl; [done|].
  by rewrite clickable_ignores_href, IH.
Qed.

End NextFacts.

(* ===================================================================== *)
(** * Facts about [CRD.py]: which items become records *)
(* ===================================================================== *)
Module EmitFacts.
Import Py Web CRD.

Section Site.
Context (fromstring : string → res xml)
        (anchors_of : string → list anchor)
        (urljoin : string → string → res string)
        (driver_get : string → res listing)
        (session_get : string → res (Z * string)).

Local Abbreviation parse_xml_data := (CRD.parse_xml_data fromstring).
Local Abbreviation normalise := (CRD.normalise fromstring).
Local Abbreviation from_components := (CRD.from_components fromstring).
Local Abbreviation extract_record := (CRD.extract_record fromstring anchors_of urljoin session_get).
Local Abbreviation extract_all := (CRD.extract_all fromstring anchors_of urljoin session_get).
Local Abbreviation crawl_page :=
  (CRD.crawl_page fromstring anchors_of urljoin driver_get session_get).
Local Abbreviation crawl_loop :=
  (CRD.crawl_loop fromstring anchors_of urljoin driver_get session_get).

Lemma normalise_emits reaction_data_id d_url xml_text entry :
  normalise reaction_data_id d_url xml_text = Ok (Some entry) →
  from_components entry.
Proof.
  unfold CRD.normalise. destruct (truthy (parse_xml_data xml_text)); [|done].
  destruct (getitem (parse_xml_data xml_text) "chemicals") as [chemicals|] eqn:Ec;
    simpl; [|done].
  destruct (truthy chemicals) eqn:Et; [|done].
  destruct (format_reaction_data _ _) as [e|] eqn:Ef; simpl; [|done].
  intros [= <-]. by exists reaction_data_id, d_url, xml_text, chemicals.
Qed.

(** No component, no record: the item is skipped without a trace. *)
Lemma normalise_drops reaction_data_id d_url xml_text :
  getitem (parse_xml_data xml_text) "chemicals" = Ok (PList []) →
  normalise reaction_data_id d_url xml_text = Ok None.
Proof.
  intros Hc. unfold CRD.normalise. rewrite Hc. simpl.
  by destruct (truthy (parse_xml_data xml_text)).
Qed.

Lemma normalise_unparsed reaction_data_id d_url xml_text :
  parse_xml_data xml_text = PNone →
  normalise reaction_data_id d_url xml_text = Ok None.
Proof. intros Hc. unfold CRD.normalise. by rewrite Hc. Qed.

Lemma extract_record_emits reaction_data_id d_url entry :
  extract_record reaction_data_id d_url = Ok (Some entry) → from_components entry.
Proof.
  unfold CRD.extract_record.
  destruct (session_get d_url) as [[status body]|]; simpl; [|done].
  destruct (Z.eqb status 200); [|done].
  destruct (find_xml_btn _ _) as [xml_btn|]; [|done].
  destruct (a_href xml_btn) as [h|]; [|done].
  destruct (absolute _ _ _) as [xml_href|]; simpl; [|done].
  destruct (session_get _) as [[status' body']|]; simpl; [|done].
  destruct (Z.eqb status' 200); [|done].
  apply normalise_emits.
Qed.

Lemma extract_all_emits reaction_data_id current_url found_items acc :
  Forall from_components acc →
  Forall from_components
    (extracted (extract_all reaction_data_id current_url found_items acc)).
Proof.
  revert acc. induction found_items as [|it rest IH]; intros acc Hacc; simpl; [done|].
  destruct (absolute _ _ _) as [d_url|]; simpl; [|done].
  destruct (extract_record _ _) as [[entry|]|] eqn:E; simpl; [|by apply IH..].
  apply IH. apply Forall_app. split; [done|].
  apply Forall_singleton. by apply extract_record_emits in E.
Qed.

Lemma crawl_page_emits reaction_data_id c :
  Forall from_components (reaction_data_list c) →
  match crawl_page reaction_data_id c with
  | inl l => Forall from_components l
  | inr c' => Forall from_components (reaction_data_list c')
  end.
Proof.
  intros Hc. unfold CRD.crawl_page.
  destruct (driver_get _) as [page|]; [|done].
  destruct (extract_list_items _ _) as [|it its] eqn:Ei; [done|].
  pose proof (extract_all_emits reaction_data_id (current_url c) (it :: its) _ Hc) as He.
  destruct (extract_all _ _ _ _) as [l|l]; simpl in He; [done|].
  destruct (_ ≫= _) as [[href|]|]; [|done..].
  by destruct (nonempty href).
Qed.

Lemma crawl_loop_emits fuel reaction_data_id c :
  Forall from_components (reaction_data_list c) →
  Forall from_components (records (crawl_loop fuel reaction_data_id c)).
Proof.
  revert c. induction fuel as [|fuel IH]; intros c Hc; simpl; [done|].
  destruct (nonempty (current_url c)); [|done].
  pose proof (crawl_page_emits reaction_data_id c Hc) as Hp.
  destruct (crawl_page reaction_data_id c); [done|by apply IH].
Qed.

End Site.

End EmitFacts.

(* ===================================================================== *)
(** * Facts about [CRD.py]: grouping by role *)
(* ===================================================================== *)
Module GroupFacts.
Import Py Web CRD PyFacts.

(** ** Strings and dict bodies *)

Lemma length_append (s t : string) :
  String.length (s +:+ t) = (String.length s + String.length t)%nat.
Proof. induction s as [|a s IH]; simpl; [done|]. by rewrite IH. Qed.

Lemma append_inj_r (s1 s2 t : string) : s1 +:+ t = s2 +:+ t → s1 = s2.
Proof.
  revert s2. induction s1 as [|a s1 IH]; intros [|b s2] H; simpl in H.
  - done.
  - apply (f_equal String.length) in H. simpl in H. rewrite ?length_append in H.
    simpl in H. lia.
  - apply (f_equal String.length) in H. simpl in H. rewrite ?length_append in H.
    simpl in H. lia.
  - injection H as -> H. f_equal. by apply IH.
Qed.

Lemma append_ne_self (s t : string) : t ≠ "" → s ≠ s +:+ t.
Proof.
  intros Ht H. apply (f_equal String.length) in H. rewrite length_append in H.
  destruct t; [done|]. simpl in H. lia.
Qed.

Lemma assoc_app {V} k (d1 d2 : list (string * V)) :
  assoc k (d1 ++ d2) = match assoc k d1 with Some v => Some v | None => assoc k d2 end.
Proof.
  induction d1 as [|[k' v'] d1 IH]; simpl; [done|].
  by destruct (String.eqb k k').
Qed.

Lemma assoc_None_keys {V} k (d : list (string * V)) :
  assoc k d = None ↔ k ∉ map fst d.
Proof.
  induction d as [|[k' v'] d IH]; simpl.
  - split; [intros _; apply not_elem_of_nil|done].
  - rewrite not_elem_of_cons. destruct (String.eqb k k') eqn:E.
    + apply String.eqb_eq in E. split; [done|]. by intros [? _].
    + apply String.eqb_neq in E. rewrite IH. split; [by intros ?|by intros [_ ?]].
Qed.

Lemma assoc_elem_of {V} k (v : V) (d : list (string * V)) :
  NoDup (map fst d) → (k, v) ∈ d → assoc k d = Some v.
Proof.
  induction d as [|[k' v'] d IH]; simpl; intros Hnd Hin.
  - by apply elem_of_nil in Hin.
  - apply NoDup_cons in Hnd as [Hk Hnd].
    apply elem_of_cons in Hin as [[= <- <-]|Hin].
    + by rewrite String.eqb_refl.
    + destruct (String.eqb k k') eqn:E; [|by apply IH].
      apply String.eqb_eq in E as <-. exfalso. apply Hk.
      apply list_elem_of_fmap. by exists (k, v).
Qed.

Lemma assoc_set_keys {V} k (v v0 : V) (d : list (string * V)) :
  assoc k d = Some v0 → map fst (assoc_set k v d) = map fst d.
Proof.
  induction d as [|[k' v'] d IH]; simpl; [done|].
  destruct (String.eqb k k') eqn:E; simpl.
  - by apply String.eqb_eq in E as <-.
  - intros H. by rewrite IH.
Qed.

(** ** The grouping loop *)

Lemma role_ok c :
  wf_chemical c = true →
  get c "role" (PStr "unknown") ≫= str_lower = Ok (role_of c).
Proof.
  unfold wf_chemical, role_of. intros [[Hd Hr]%andb_true_iff _]%andb_true_iff.
  destruct c; try done. simpl in *.
  by destruct (from_option id (PStr "unknown") (assoc "role" d)).
Qed.

Lemma group_by_role_ok chemicals g :
  forallb wf_chemical chemicals = true →
  group_by_role chemicals g = Ok (grouping chemicals g).
Proof.
  revert g. induction chemicals as [|c cs IH]; intros g Hwf; simpl; [done|].
  apply andb_true_iff in Hwf as [Hc Hcs].
  pose proof (role_ok c Hc) as Hr.
  destruct (get c "role" (PStr "unknown")) as [r|]; simpl in *; [|done].
  rewrite Hr. simpl. by apply IH.
Qed.

Lemma group_add_assoc r r' c g :
  assoc r (group_add r' c g)
  = if String.eqb r' r then Some (default [] (assoc r g) ++ [c]) else assoc r g.
Proof.
  unfold group_add. destruct (String.eqb r' r) eqn:E.
  - apply String.eqb_eq in E as ->.
    destruct (assoc r g) as [l|] eqn:Eg; simpl.
    + by rewrite assoc_set_eq.
    + rewrite assoc_app, Eg. simpl. by rewrite String.eqb_refl.
  - apply String.eqb_neq in E.
    destruct (assoc r' g) as [l|] eqn:Eg.
    + by rewrite assoc_set_ne.
    + rewrite assoc_app. destruct (assoc r g); [done|]. simpl.
      destruct (String.eqb r r') eqn:E'; [|done].
      by apply String.eqb_eq in E'.
Qed.

Lemma group_add_keys r c g :
  NoDup (map fst g) → NoDup (map fst (group_add r c g)).
Proof.
  intros Hnd. unfold group_add. destruct (assoc r g) as [l|] eqn:Eg.
  - by rewrite (assoc_set_keys _ _ _ _ Eg).
  - rewrite map_app. simpl. apply NoDup_app. split; [done|]. split.
    + intros x Hx ->%list_elem_of_singleton. by apply assoc_None_keys in Eg.
    + apply NoDup_singleton.
Qed.

Lemma grouping_keys chemicals g :
  NoDup (map fst g) → NoDup (map fst (grouping chemicals g)).
Proof.
  revert g. induction chemicals as [|c cs IH]; intros g Hnd; simpl; [done|].
  apply IH. by apply group_add_keys.
Qed.

(** Each role holds exactly its members, in encounter order. *)
Lemma grouping_assoc chemicals g r :
  assoc r (grouping chemicals g)
  = match assoc r g with
    | Some l => Some (l ++ members r chemicals)
    | None => match members r chemicals with [] => None | ms => Some ms end
    end.
Proof.
  revert g. induction chemicals as [|c cs IH]; intros g; simpl.
  - destruct (assoc r g); [by rewrite app_nil_r|done].
  - unfold grouping in IH |- *. simpl. rewrite IH, group_add_assoc. unfold members. simpl.
    destruct (String.eqb (role_of c) r).
    + destruct (assoc r g); simpl; [by rewrite <- app_assoc|done].
    + done.
Qed.

Lemma grouping_elem_of chemicals r group :
  (r, group) ∈ grouping chemicals [] →
  group = members r chemicals ∧ ∃ c, c ∈ chemicals ∧ role_of c = r.
Proof.
  intros Hin.
  pose proof (assoc_elem_of r group _ (grouping_keys chemicals [] (NoDup_nil_2)) Hin) as Ha.
  rewrite grouping_assoc in Ha. simpl in Ha.
  destruct (members r chemicals) as [|c ms] eqn:Em; [done|].
  injection Ha as <-. split; [done|].
  assert (In c (members r chemicals)) as Hc by (rewrite Em; by left).
  apply List.filter_In in Hc as [Hc Hr]. exists c. split.
  - by apply list_elem_of_In.
  - by apply String.eqb_eq.
Qed.

Lemma grouping_member chemicals c :
  c ∈ chemicals →
  (role_of c, members (role_of c) chemicals) ∈ grouping chemicals [].
Proof.
  intros Hc.
  assert (assoc (role_of c) (grouping chemicals []) = Some (members (role_of c) chemicals))
    as Ha.
  { rewrite grouping_assoc. simpl.
    destruct (members (role_of c) chemicals) eqn:Em; [|done].
    assert (In c (members (role_of c) chemicals)) as Hin.
    { apply List.filter_In. split; [by apply list_elem_of_In|apply String.eqb_refl]. }
    by rewrite Em in Hin. }
  clear Hc. induction (grouping chemicals []) as [|[k v] g IH]; simpl in Ha; [done|].
  destruct (String.eqb (role_of c) k) eqn:E.
  - apply String.eqb_eq in E as <-. injection Ha as <-. by left.
  - right. by apply IH.
Qed.

(** ** The output loop *)

Lemma display_names_ok group :
  forallb wf_chemical group = true → display_names group = Ok (names_of group).
Proof.
  induction group as [|c cs IH]; intros Hwf; simpl; [done|].
  apply andb_true_iff in Hwf as [Hc Hcs]. rewrite (IH Hcs).
  unfold wf_chemical in Hc. apply andb_true_iff in Hc as [[Hd _]%andb_true_iff Hn].
  destruct c; try done. simpl in *.
  destruct (from_option id PNone (assoc "name" d)) as [| | | |s| |]; simpl in *; try done.
  - by destruct b.
  - by destruct (negb (Z.eqb z 0)).
  - by destruct (negb (PrimFloat.eqb f 0)).
  - by destruct (nonempty s).
  - by destruct l.
  - by destruct d0.
Qed.

Lemma write_groups_ok g output :
  Forall (λ ri, forallb wf_chemical (snd ri) = true) g →
  write_groups g output = Ok (written g output).
Proof.
  intros Hg. revert output. induction Hg as [|[r group] g Hr _ IH]; intros output; simpl.
  - done.
  - simpl in Hr. rewrite (display_names_ok _ Hr). simpl. apply IH.
Qed.

Lemma written_other g output k :
  (∀ r, r ∈ map fst g → k ≠ r ∧ k ≠ r +:+ "_details") →
  assoc k (written g output) = assoc k output.
Proof.
  revert output. induction g as [|[r group] g IH]; intros output Hk; simpl; [done|].
  unfold written in IH |- *. simpl. rewrite IH.
  - destruct (Hk r) as [H1 H2]; [by left|].
    unfold write_group. simpl. by rewrite !assoc_set_ne.
  - intros r' Hr'. apply Hk. by right.
Qed.

Lemma written_display g output r group :
  NoDup (map fst g) → (r, group) ∈ g →
  (∀ r', r' ∈ map fst g → r ≠ r' +:+ "_details") →
  assoc r (written g output) = Some (PStr (join " + " (names_of group))).
Proof.
  revert output. induction g as [|[r0 group0] g IH]; intros output Hnd Hin Hfree.
  { by apply elem_of_nil in Hin. }
  simpl in Hnd. apply NoDup_cons in Hnd as [Hr0 Hnd].
  unfold written in IH |- *. simpl.
  apply elem_of_cons in Hin as [[= <- <-]|Hin].
  - fold (written g (write_group output (r, group))). rewrite written_other.
    + unfold write_group. simpl.
      rewrite assoc_set_ne by (by apply append_ne_self). by rewrite assoc_set_eq.
    + intros r' Hr'. split; [by intros ->|]. apply Hfree. by right.
  - apply IH; [done..|]. intros r' Hr'. apply Hfree. by right.
Qed.

Lemma written_details g output r group :
  NoDup (map fst g) → (r, group) ∈ g →
  (∀ r', r' ∈ map fst g → r' ≠ r +:+ "_details") →
  assoc (r +:+ "_details") (written g output) = Some (PList group).
Proof.
  revert output. induction g as [|[r0 group0] g IH]; intros output Hnd Hin Hfree.
  { by apply elem_of_nil in Hin. }
  simpl in Hnd. apply NoDup_cons in Hnd as [Hr0 Hnd].
  unfold written in IH |- *. simpl.
  apply elem_of_cons in Hin as [[= <- <-]|Hin].
  - fold (written g (write_group output (r, group))). rewrite written_other.
    + unfold write_group. simpl. by rewrite assoc_set_eq.
    + intros r' Hr'. split.
      * intros H. apply (Hfree r'); [by right|done].
      * intros H%append_inj_r. by subst.
  - apply IH; [done..|]. intros r' Hr'. apply Hfree. by right.
Qed.

End GroupFacts.

(* ===================================================================== *)
(** * The specification's properties *)
(* ===================================================================== *)
Module Properties.
Import Py Web ORD PyFacts ORDFacts TraversalFacts.

(** ** Discovery *)

Lemma items_of_spec (detail_links : list CRD.anchor) (items : list CRD.item) :
  CRD.items_of detail_links items
  = items ++ map (λ a, {| CRD.url := default "" (CRD.a_href a) |})
               (List.filter (λ a, present (CRD.a_href a)) detail_links).
Proof.
  revert items. induction detail_links as [|a l IH]; intros items; simpl.
  - by rewrite app_nil_r.
  - destruct (present (CRD.a_href a)); simpl; rewrite IH; [|done].
    by rewrite <- app_assoc.
Qed.

(** C1 (as amended). Both ORD traversals hold a duplicate-free id list at
    every point of the walk, whatever pages the site shows: an id, the last
    path segment of the link's [href], is appended only when it is not yet
    held, so a link whose id is known adds nothing whatever the rest of its
    URL. The CRD page scan does no de-duplication: it returns one item per
    Details anchor with a non-empty [href], in page order. *)
Theorem discovered_ids_distinct :
  ∀ (fuel : nat) (b : browser) (max_reactions : option Z),
    match get_all_dataset_ids fuel b with
    | Ok r => NoDup (collected r)
    | Raise _ => reachable b = false
    end
    ∧ NoDup (collected (get_all_reaction_ids_from_dataset fuel b max_reactions))
    ∧ (∀ link links acc href,
         get_attribute link "href" = Ok (Some href) →
         last_segment href ∈ acc →
         collect_dataset_ids (link :: links) acc = collect_dataset_ids links acc
         ∧ collect_reaction_ids max_reactions (link :: links) acc
           = collect_reaction_ids max_reactions links acc)
    ∧ (∀ anchors_of page,
         CRD.extract_list_items anchors_of page
         = map (λ a, {| CRD.url := default "" (CRD.a_href a) |})
             (List.filter (λ a, present (CRD.a_href a))
                (List.filter CRD.is_details (anchors_of (CRD.page_source page))))).
Proof.
  intros fuel b max_reactions. repeat split.
  - unfold get_all_dataset_ids. destruct (reachable b); [|done].
    apply dataset_loop_NoDup. constructor.
  - unfold get_all_reaction_ids_from_dataset. destruct (reachable b).
    + apply reaction_loop_NoDup. constructor.
    + constructor.
  - by apply (collect_dataset_ids_known link links acc href).
  - by apply (collect_reaction_ids_known max_reactions link links acc href).
  - intros anchors_of page. unfold CRD.extract_list_items. by rewrite items_of_spec.
Qed.

Lemma discovered_ids_distinct_witness :
  collect_dataset_ids
    [ Scenario.link_to "https://open-reaction-database.org/dataset/ord_dataset-a";
      Scenario.link_to "/dataset/ord_dataset-a" ] []
  = ["ord_dataset-a"].
Proof.
  change (collect_dataset_ids
            [ Scenario.link_to "https://open-reaction-database.org/dataset/ord_dataset-a";
              Scenario.link_to "/dataset/ord_dataset-a" ] [])
    with (collect_dataset_ids [Scenario.link_to "/dataset/ord_dataset-a"] ["ord_dataset-a"]).
  destruct (discovered_ids_distinct 0 Scenario.stuck_datasets None) as (_ & _ & H & _).
  destruct (H (Scenario.link_to "/dataset/ord_dataset-a") [] ["ord_dataset-a"]
              "/dataset/ord_dataset-a") as [-> _].
  - reflexivity.
  - apply list_elem_of_In. vm_compute. by left.
  - reflexivity.
Defined.

(** The CRD page scan keeps a link that occurs twice, twice. *)
Lemma crd_lists_duplicates :
  map CRD.url (CRD.extract_list_items Scenario.repeated_details Scenario.some_listing)
  = ["/reaction/1"; "/reaction/1"]
  ∧ ¬ NoDup (map CRD.url
               (CRD.extract_list_items Scenario.repeated_details Scenario.some_listing)).
Proof.
  split; [reflexivity|].
  change (¬ NoDup ["/reaction/1"; "/reaction/1"]).
  intros H. apply NoDup_cons in H as [H _]. apply H. by left.
Qed.

(** ** Stuck pagination *)

(** C4. In both ORD traversals, a page after which the count of held ids
    equals the count after the previous page ends the loop at that page,
    with no next control activated. Hence, when the page reached by
    activating the next control adds no id, the traversal returns right
    after that second page: one click, one page number further, the ids it
    held before. *)
Theorem stuck_pagination_stops :
  ∀ (total max_reactions : option Z) (s : scan),
    (∀ links,
       links_css (dom (session s)) = Ok links →
       Z.of_nat (length (collect_dataset_ids links (ids s))) = prev_count s →
       ∃ s', dataset_page total s = Break s'
             ∧ session s' = session s ∧ page s' = page s)
    ∧ (∀ links all',
         find_reaction_links (dom (session s)) = Ok links →
         collect_reaction_ids max_reactions links (ids s) = inr all' →
         Z.of_nat (length all') = prev_count s →
         ∃ s', reaction_page total max_reactions s = Break s'
               ∧ session s' = session s ∧ page s' = page s)
    ∧ (∀ s1 links fuel,
         dataset_page total s = Continue s1 →
         links_css (dom (session s1)) = Ok links →
         length (collect_dataset_ids links (ids s1)) = length (ids s1) →
         ∃ s2, dataset_loop (S (S fuel)) total s = Returned (ids s2) s2
               ∧ session s2 = click (session s) ∧ page s2 = page s + 1
               ∧ ids s2 = ids s1)
    ∧ (∀ s1 links all' fuel,
         reaction_page total max_reactions s = Continue s1 →
         find_reaction_links (dom (session s1)) = Ok links →
         collect_reaction_ids max_reactions links (ids s1) = inr all' →
         length all' = length (ids s1) →
         ∃ s2, reaction_loop (S (S fuel)) total max_reactions s = Returned (ids s2) s2
               ∧ session s2 = click (session s) ∧ page s2 = page s + 1
               ∧ ids s2 = ids s1).
Proof.
  intros total max_reactions s. repeat split.
  - intros links Hl Hc.
    destruct (dataset_page_stuck total s links Hl Hc) as (s' & ? & ? & ? & _). eauto.
  - intros links all' Hl Hr Hc.
    destruct (reaction_page_stuck total max_reactions s links all' Hl Hr Hc)
      as (s' & ? & ? & ? & _). eauto.
  - intros s1 links fuel. apply dataset_loop_stuck.
  - intros s1 links all' fuel. apply reaction_loop_stuck.
Qed.

Lemma stuck_pagination_stops_witness :
  (∃ s', dataset_page None (Scenario.second_page Scenario.stuck_datasets "ord_dataset-a")
         = Break s'
         ∧ session s' = click Scenario.stuck_datasets ∧ page s' = 2)
  ∧ (∃ s', reaction_page None None (Scenario.second_page Scenario.stuck_reactions "ord-a")
           = Break s'
           ∧ session s' = click Scenario.stuck_reactions ∧ page s' = 2)
  ∧ (∃ s2, dataset_loop 2 None (start Scenario.stuck_datasets) = Returned (ids s2) s2
           ∧ session s2 = click Scenario.stuck_datasets ∧ page s2 = 2
           ∧ ids s2 = ["ord_dataset-a"])
  ∧ (∃ s2, reaction_loop 2 None None (start Scenario.stuck_reactions) = Returned (ids s2) s2
           ∧ session s2 = click Scenario.stuck_reactions ∧ page s2 = 2
           ∧ ids s2 = ["ord-a"]).
Proof.
  repeat split.
  - destruct (stuck_pagination_stops None None
                (Scenario.second_page Scenario.stuck_datasets "ord_dataset-a"))
      as (H & _).
    eapply H; reflexivity.
  - destruct (stuck_pagination_stops None None
                (Scenario.second_page Scenario.stuck_reactions "ord-a"))
      as (_ & H & _).
    eapply H; reflexivity.
  - destruct (stuck_pagination_stops None None (start Scenario.stuck_datasets))
      as (_ & _ & H & _).
    eapply (H (Scenario.second_page Scenario.stuck_datasets "ord_dataset-a") _ 0%nat);
      reflexivity.
  - destruct (stuck_pagination_stops None None (start Scenario.stuck_reactions))
      as (_ & _ & _ & H).
    eapply (H (Scenario.second_page Scenario.stuck_reactions "ord-a") _ _ 0%nat);
      reflexivity.
Defined.

(** ** Retry *)

(** C3. When every attempt on a reaction fails, for whatever reason,
    [scrape_reaction_data] navigates exactly [max_retries] times (twice by
    default) and returns, without raising, the failure result whose error
    is ["Max retries exceeded"]; the worker wrapper hands that result on. *)
Theorem retry_bound :
  ∀ (float_repr : float → string) (json_loads : string → res pyval)
    (d : driver) (rid : string) (max_retries : Z),
    (∀ k, is_ok (answer json_loads d rid k) = false) →
    scrape_reaction_data json_loads d rid max_retries
    = (max_retries_exceeded rid, after d (Z.to_nat max_retries))
    ∧ getitem (max_retries_exceeded rid) "success" = Ok (PBool false)
    ∧ getitem (max_retries_exceeded rid) "error" = Ok (PStr "Max retries exceeded")
    ∧ snd (scrape_reaction_data json_loads d rid default_max_retries) = after d 2
    ∧ scrape_single_reaction_wrapper float_repr json_loads (Ok d) rid
      = Ok (max_retries_exceeded rid).
Proof.
  intros float_repr json_loads d rid max_retries Hfail.
  repeat split; try reflexivity.
  - by apply scrape_reaction_data_all_fail.
  - by rewrite scrape_reaction_data_all_fail.
  - apply wrapper_failure. by rewrite scrape_reaction_data_all_fail.
Qed.

Lemma retry_bound_witness :
  scrape_reaction_data Scenario.empty_object Scenario.dead_driver "ord-a" 2
  = (max_retries_exceeded "ord-a", after Scenario.dead_driver 2)
  ∧ scrape_single_reaction_wrapper Scenario.plain_repr Scenario.empty_object
      (Ok Scenario.dead_driver) "ord-a"
    = Ok (max_retries_exceeded "ord-a").
Proof.
  destruct (retry_bound Scenario.plain_repr Scenario.empty_object Scenario.dead_driver
              "ord-a" 2) as (H1 & _ & _ & _ & H2).
  - intros k. reflexivity.
  - split; [exact H1|exact H2].
Defined.

(** C8 (as amended). The dict [scrape_reaction_data] returns has the fields
    [reaction_id], [data], [success], and [error] on failure; the number of
    retries is not among them. With the default of two attempts, a fetch
    that fails once and then succeeds returns the success dict of that
    second attempt, and one that fails twice returns the failure result
    after two navigations. *)
Theorem fetch_result_fields :
  ∀ (json_loads : string → res pyval) (d : driver) (rid : string) (max_retries : Z),
    (fst (scrape_reaction_data json_loads d rid max_retries) = max_retries_exceeded rid
     ∨ ∃ data, fst (scrape_reaction_data json_loads d rid max_retries) = fetched rid data)
    ∧ (∀ r, is_ok (answer json_loads d rid (gets d)) = false →
            answer json_loads d rid (gets d + 1) = Ok r →
            scrape_reaction_data json_loads d rid default_max_retries = (r, after d 2)
            ∧ ∃ data, r = fetched rid data)
    ∧ (is_ok (answer json_loads d rid (gets d)) = false →
       is_ok (answer json_loads d rid (gets d + 1)) = false →
       scrape_reaction_data json_loads d rid default_max_retries
       = (max_retries_exceeded rid, after d 2)).
Proof.
  intros json_loads d rid max_retries. split; [|split].
  - apply retry_loop_shape.
  - intros r Hfail Hok. split.
    + unfold scrape_reaction_data.
      apply (retry_loop_first_success json_loads _ rid d 1 r); [simpl; lia| |done].
      intros k Hk. by replace k with (gets d) by lia.
    + by apply read_record_shape in Hok.
  - intros H0 H1. unfold scrape_reaction_data.
    apply (retry_loop_all_fail json_loads (seqZ 0 default_max_retries) rid d).
    intros k Hk. simpl in Hk.
    destruct (decide (k = gets d)) as [->|]; [done|].
    by replace k with (gets d + 1)%nat by lia.
Qed.

Lemma fetch_result_fields_witness :
  scrape_reaction_data Scenario.empty_object (Scenario.flaky_driver 1) "ord-b"
    default_max_retries
  = (fetched "ord-b" (PDict []), after (Scenario.flaky_driver 1) 2)
  ∧ scrape_reaction_data Scenario.empty_object (Scenario.flaky_driver 2) "ord-b"
      default_max_retries
    = (max_retries_exceeded "ord-b", after (Scenario.flaky_driver 2) 2).
Proof.
  split.
  - destruct (fetch_result_fields Scenario.empty_object (Scenario.flaky_driver 1)
                "ord-b" 2) as (_ & H & _).
    apply (H (fetched "ord-b" (PDict []))); reflexivity.
  - destruct (fetch_result_fields Scenario.empty_object (Scenario.flaky_driver 2)
                "ord-b" 2) as (_ & _ & H).
    apply H; reflexivity.
Defined.

(** After two failures the default loop is over: the navigation that would
    have succeeded is never made, and the success a single retry does
    produce carries three fields, none of them a count. *)
Lemma third_attempt_never_made :
  answer Scenario.empty_object (Scenario.flaky_driver 2) "ord-b" 2
  = Ok (fetched "ord-b" (PDict []))
  ∧ fst (scrape_reaction_data Scenario.empty_object (Scenario.flaky_driver 2) "ord-b"
           default_max_retries)
    = max_retries_exceeded "ord-b"
  ∧ getitem (fst (scrape_reaction_data Scenario.empty_object (Scenario.flaky_driver 2)
                    "ord-b" default_max_retries)) "success"
    = Ok (PBool false)
  ∧ fst (scrape_reaction_data Scenario.empty_object (Scenario.flaky_driver 1) "ord-b"
           default_max_retries)
    = PDict [("reaction_id", PStr "ord-b"); ("data", PDict []); ("success", PBool true)].
Proof. repeat split; reflexivity. Qed.

(** ** Ordering *)

Lemma keys_of_snd {A} (key : A → res Z) (l : list A) kl :
  keys_of key l = Ok kl → map snd kl = l.
Proof.
  revert kl. induction l as [|x l IH]; intros kl; simpl.
  - by intros [= <-].
  - destruct (key x) as [k|]; simpl; [|done].
    destruct (keys_of key l) as [kt|]; simpl; [|done].
    intros [= <-]. simpl. by rewrite (IH kt).
Qed.

Lemma restore_order_perm reaction_ids rs sorted :
  restore_order reaction_ids rs = Ok sorted → sorted ≡ₚ rs.
Proof.
  unfold restore_order, sort_by.
  destruct (keys_of _ rs) as [kl|] eqn:E; simpl; [|done].
  intros [= <-]. rewrite stable_sort_perm. by rewrite (keys_of_snd _ _ _ E).
Qed.

(** Every result the aggregation loop gathers carries an id of the batch:
    a worker's result names the reaction it was asked for, and the dict
    built for a future that raised takes the id the future was submitted
    with. *)
Lemma gathered_indexed (float_repr : float → string) (json_loads : string → res pyval)
    (reaction_ids : list string) (launch : string → res driver)
    (completed : list (string * res pyval)) :
  completed ≡ₚ
    map (λ rid, (rid, scrape_single_reaction_wrapper float_repr json_loads
                        (launch rid) rid)) reaction_ids →
  Forall (λ x, indexed reaction_ids x = true) (gather completed []).
Proof.
  intros Hperm. rewrite gather_fmap. simpl. rewrite Hperm, map_map. simpl.
  apply Forall_forall. intros x (rid & -> & Hrid)%list_elem_of_fmap.
  unfold indexed. rewrite settle_reaction_id. by apply bool_decide_eq_true.
Qed.

(** C2. For a batch of distinct reaction ids of any size and any completion
    order of its workers, sorting the gathered results by their rank in the
    discovery index returns them in discovery order. The sort never drops a
    result, and every gathered result has an entry in the index: the
    fallback rank for a result without one is never used, so no result is
    placed out of discovery order. *)
Theorem discovery_order_restored :
  ∀ (float_repr : float → string) (json_loads : string → res pyval)
    (reaction_ids : list string),
    (∀ (launch : string → res driver) (completed : list (string * res pyval)),
       NoDup reaction_ids →
       completed ≡ₚ
         map (λ rid, (rid, scrape_single_reaction_wrapper float_repr json_loads
                             (launch rid) rid)) reaction_ids →
       restore_order reaction_ids (gather completed [])
       = Ok (map (λ rid, settle rid (scrape_single_reaction_wrapper float_repr json_loads
                                       (launch rid) rid)) reaction_ids))
    ∧ (∀ rs sorted, restore_order reaction_ids rs = Ok sorted → sorted ≡ₚ rs)
    ∧ (∀ (launch : string → res driver) (completed : list (string * res pyval)),
         completed ≡ₚ
           map (λ rid, (rid, scrape_single_reaction_wrapper float_repr json_loads
                               (launch rid) rid)) reaction_ids →
         Forall (λ x, indexed reaction_ids x = true) (gather completed [])).
Proof.
  intros float_repr json_loads reaction_ids. repeat split.
  - intros launch completed Hnd Hperm. apply restore_order_discovery; [done| |].
    + clear. induction reaction_ids as [|rid l IH]; simpl; constructor; [|done].
      apply settle_reaction_id.
    + rewrite gather_fmap. simpl. rewrite Hperm, map_map. done.
  - apply restore_order_perm.
  - apply gathered_indexed.
Qed.

Lemma discovery_order_restored_witness :
  restore_order ["ord-a"; "ord-b"]
    (gather [ ("ord-b", Ok (max_retries_exceeded "ord-b"));
              ("ord-a", Ok (max_retries_exceeded "ord-a")) ] [])
  = Ok [max_retries_exceeded "ord-a"; max_retries_exceeded "ord-b"]
  ∧ Forall (λ x, indexed ["ord-a"; "ord-b"] x = true)
      (gather [ ("ord-b", Ok (max_retries_exceeded "ord-b"));
                ("ord-a", Ok (max_retries_exceeded "ord-a")) ] []).
Proof.
  destruct (discovery_order_restored Scenario.plain_repr Scenario.empty_object
              ["ord-a"; "ord-b"]) as (H1 & _ & H3).
  split.
  - apply (H1 (λ _, Ok Scenario.dead_driver)).
    + apply (bool_decide_unpack _). vm_compute. exact I.
    + apply perm_swap.
  - apply (H3 (λ _, Ok Scenario.dead_driver)). apply perm_swap.
Defined.

(** ** Next-page control *)




(** ** Normalisers *)

(** C10. ORD's [format_reaction_data] returns on exactly the payloads its
    loops can walk, and then returns the record read off the payload: per
    component and per product exactly the identifiers whose type equals 2,
    each rewritten to type ["SMILES"] with its value; a component or
    product none of whose identifiers has type 2 is still listed, with an
    empty identifier list; products carry the role ["PRODUCT"] and
    [is_desired_product] from the payload, [False] when absent. *)
Theorem smiles_identifiers_only :
  ∀ (float_repr : float → string) (rid : string) (data : pyval),
    (∀ out, format_reaction_data float_repr (fetched rid data) = Ok out ↔
            wf_payload data = true ∧ out = normal_record float_repr data)
    ∧ (∀ c e, e ∈ kept_identifiers c ↔
              ∃ i, i ∈ identifiers_of c ∧ eq_int (lookup_or i "type" PNone) 2 = true
                   ∧ e = PDict [("type", PStr "SMILES");
                                ("value", lookup_or i "value" PNone)])
    ∧ (∀ c, Forall (λ i, eq_int (lookup_or i "type" PNone) 2 = false) (identifiers_of c) →
            normal_component float_repr c
            = PDict [ ("identifiers", PList []);
                      ("reaction_role",
                       PStr (role_name float_repr (lookup_or c "reactionRole" PNone))) ]
            ∧ normal_product c
              = PDict [ ("identifiers", PList []);
                        ("reaction_role", PStr "PRODUCT");
                        ("is_desired_product",
                         lookup_or c "isDesiredProduct" (PBool false)) ]).
Proof.
  intros float_repr rid data. split; [|split].
  - intros out. split.
    + intros H. pose proof (NormaliserFacts.format_reaction_data_wf _ _ _ _ H) as Hwf.
      split; [done|].
      rewrite (NormaliserFacts.format_reaction_data_spec _ _ _ Hwf) in H. congruence.
    + intros [Hwf ->]. by apply NormaliserFacts.format_reaction_data_spec.
  - intros c e. unfold kept_identifiers. rewrite list_elem_of_fmap. split.
    + intros (i & -> & Hi). apply list_elem_of_In, List.filter_In in Hi as [Hi Hs].
      exists i. by rewrite list_elem_of_In.
    + intros (i & Hi & Hs & ->). exists i. split; [done|].
      apply list_elem_of_In, List.filter_In. by rewrite <- list_elem_of_In.
  - intros c Hall.
    assert (kept_identifiers c = []) as Hk.
    { unfold kept_identifiers. induction Hall as [|i l Hi _ IH]; simpl; [done|].
      unfold is_smiles at 1. by rewrite Hi. }
    unfold normal_component, normal_product. by rewrite Hk.
Qed.

Lemma smiles_identifiers_only_witness :
  format_reaction_data Scenario.plain_repr (fetched "ord-a" Scenario.reaction)
  = Ok (PDict
          [ ("reaction_id", PStr "ord-a"); ("success", PBool true);
            ("inputsMap",
             PList [ PList [ PStr "m1";
                             PDict [("components",
                                     PList [ PDict [ ("identifiers",
                                                      PList [PDict [("type", PStr "SMILES");
                                                                    ("value", PStr "O")]]);
                                                     ("reaction_role", PStr "REACTANT") ];
                                             PDict [ ("identifiers", PList []);
                                                     ("reaction_role", PStr "SOLVENT") ] ])] ] ]);
            ("outcomes",
             PList [ PDict [ ("identifiers",
                              PList [PDict [("type", PStr "SMILES"); ("value", PStr "CCO")]]);
                             ("reaction_role", PStr "PRODUCT");
                             ("is_desired_product", PBool false) ] ]) ]).
Proof.
  destruct (smiles_identifiers_only Scenario.plain_repr "ord-a" Scenario.reaction)
    as (H & _).
  apply H. split; reflexivity.
Defined.

(** *** Which items become records *)

Lemma empty_payload_formatted float_repr rid d :
  assoc "inputsMap" d = None → assoc "outcomesList" d = None →
  format_reaction_data float_repr (fetched rid (PDict d))
  = Ok (PDict [ ("reaction_id", lookup_or (PDict d) "reactionId" PNone);
                ("success", PBool true);
                ("inputsMap", PList []); ("outcomes", PList []) ]).
Proof.
  intros Hi Ho. rewrite NormaliserFacts.format_reaction_data_spec.
  - unfold normal_record. simpl. by rewrite Hi, Ho.
  - unfold wf_payload. simpl. by rewrite Hi, Ho.
Qed.




(** *** Grouping by role *)

Lemma molecule_entries_wf molecules entries :
  CRD.molecule_entries molecules = Ok entries → forallb CRD.wf_chemical entries = true.
Proof.
  revert entries. induction molecules as [|m ms IH]; intros entries; simpl.
  - by intros [= <-].
  - unfold CRD.molecule_entry.
    destruct (CRD.str_lower _) as [role|]; simpl; [|done].
    destruct (CRD.molecule_entries ms) as [es|]; simpl; [|done].
    intros [= <-]. simpl. rewrite (IH es eq_refl), andb_true_r.
    unfold CRD.wf_chemical, CRD.get_text. simpl.
    destruct (CRD.find_child m "name") as [node|]; [|done].
    destruct (CRD.text_of node); simpl; [apply orb_true_r|done].
Qed.

Lemma parse_xml_data_wf fromstring xml_text :
  truthy (CRD.parse_xml_data fromstring xml_text) = true →
  ∃ chemicals,
    getitem (CRD.parse_xml_data fromstring xml_text) "chemicals" = Ok (PList chemicals)
    ∧ forallb CRD.wf_chemical chemicals = true
    ∧ is_ok (getitem (CRD.parse_xml_data fromstring xml_text) "raw_smiles") = true.
Proof.
  unfold CRD.parse_xml_data. destruct (fromstring xml_text) as [root|]; simpl; [|done].
  destruct (CRD.find_below root "participants") as [node|]; simpl.
  - destruct (CRD.molecule_entries _) as [entries|] eqn:E; simpl; [|done].
    intros _. exists entries. by rewrite (molecule_entries_wf _ _ E).
  - intros _. by exists [].
Qed.

Lemma format_reaction_data_grouped parsed_data metadata chemicals :
  getitem parsed_data "chemicals" = Ok (PList chemicals) →
  is_ok (getitem parsed_data "raw_smiles") = true →
  is_dict metadata = true →
  forallb CRD.wf_chemical chemicals = true →
  (∀ c1 c2, c1 ∈ chemicals → c2 ∈ chemicals →
            CRD.role_of c1 ≠ CRD.role_of c2 +:+ "_details") →
  ∃ output,
    CRD.format_reaction_data parsed_data metadata = Ok (PDict output)
    ∧ ∀ c, c ∈ chemicals →
        assoc (CRD.role_of c) output
        = Some (PStr (join " + " (CRD.names_of (CRD.members (CRD.role_of c) chemicals))))
        ∧ assoc (CRD.role_of c +:+ "_details") output
          = Some (PList (CRD.members (CRD.role_of c) chemicals)).
Proof.
  intros Hc Hs Hm Hwf Hfree. unfold CRD.format_reaction_data. rewrite Hc. simpl.
  destruct (getitem parsed_data "raw_smiles") as [raw_smiles|]; simpl; [|done].
  rewrite !(NormaliserFacts.get_dict metadata _ _ Hm). simpl.
  rewrite (GroupFacts.group_by_role_ok _ _ Hwf). simpl.
  assert (∀ r group, (r, group) ∈ CRD.grouping chemicals [] →
            ∃ c, c ∈ chemicals ∧ CRD.role_of c = r ∧ group = CRD.members r chemicals)
    as Hgroups.
  { intros r group Hin.
    destruct (GroupFacts.grouping_elem_of _ _ _ Hin) as (-> & c & ? & ?). eauto. }
  rewrite GroupFacts.write_groups_ok.
  2:{ apply Forall_forall. intros [r group] Hin. simpl.
      destruct (Hgroups r group Hin) as (_ & _ & _ & ->).
      apply forallb_forall. intros c [Hin' _]%List.filter_In.
      rewrite forallb_forall in Hwf. by apply Hwf. }
  simpl. eexists. split; [reflexivity|].
  intros c Hin.
  pose proof (GroupFacts.grouping_keys chemicals [] (NoDup_nil_2)) as Hnd.
  pose proof (GroupFacts.grouping_member chemicals c Hin) as Hmem.
  split.
  - apply GroupFacts.written_display; [done..|].
    intros r' (rg & -> & Hrg)%list_elem_of_fmap. destruct rg as [r' group].
    destruct (Hgroups r' group Hrg) as (c' & Hc' & <- & _). by apply Hfree.
  - apply GroupFacts.written_details; [done..|].
    intros r' (rg & -> & Hrg)%list_elem_of_fmap. destruct rg as [r' group].
    destruct (Hgroups r' group Hrg) as (c' & Hc' & <- & _). by apply Hfree.
Qed.

(** C7. The role keys and the [_details] keys share one flat record, so a
    role that is another role followed by ["_details"] collides with that
    role's component list. The export of a reaction with a component [B] of
    role [x_details] and a component [A] of role [x] becomes a record in
    which the key [x_details] holds the component list of [x]: the display
    string ["B"] of the role [x_details] is stored under no key at all,
    while the role [x] keeps its string ["A"]. *)
Theorem role_key_collision :
  ∃ output,
    CRD.normalise (λ _, Ok Scenario.clash_xml) "1_archive" "/reaction/1" "<reaction/>"
    = Ok (Some (PDict output))
    ∧ CRD.parse_xml_data (λ _, Ok Scenario.clash_xml) "<reaction/>"
      = PDict [ ("chemicals", PList [ Scenario.parsed_molecule "B" "x_details";
                                      Scenario.parsed_molecule "A" "x" ]);
                ("raw_smiles", PStr "") ]
    ∧ assoc "x_details" output = Some (PList [Scenario.parsed_molecule "A" "x"])
    ∧ assoc "x" output = Some (PStr "A")
    ∧ assoc "x_details_details" output
      = Some (PList [Scenario.parsed_molecule "B" "x_details"])
    ∧ Forall (λ kv : string * pyval, snd kv ≠ PStr "B") output.
Proof.
  eexists. split; [reflexivity|]. split; [reflexivity|].
  split; [reflexivity|]. split; [reflexivity|]. split; [reflexivity|].
  repeat constructor; discriminate.
Qed.

End Properties.

(* ===================================================================== *)
(** * Facts about integers as text *)
(* ===================================================================== *)
Module TextFacts.
Import Py PyText.

Lemma append_cons c (s t : string) : String c s +:+ t = String c (s +:+ t).
Proof. reflexivity. Qed.

Lemma append_nil_l (s : string) : "" +:+ s = s.
Proof. reflexivity. Qed.

Lemma append_nil_r (s : string) : s +:+ "" = s.
Proof. induction s as [|c s IH]; [done|]. by rewrite append_cons, IH. Qed.

Lemma append_assoc (a b c : string) : (a +:+ b) +:+ c = a +:+ (b +:+ c).
Proof. induction a as [|x a IH]; [done|]. by rewrite !append_cons, IH. Qed.

Lemma decimal_from_app acc a b :
  decimal_from acc (a +:+ b) = decimal_from (decimal_from acc a) b.
Proof.
  revert acc. induction a as [|c a IH]; intros acc; [done|].
  rewrite append_cons. simpl. apply IH.
Qed.

Lemma all_digits_app a b : all_digits (a +:+ b) = all_digits a && all_digits b.
Proof.
  induction a as [|c a IH]; [done|].
  rewrite append_cons. simpl. by rewrite IH, andb_assoc.
Qed.

Lemma digit_of_nonneg c : 0 ≤ digit_of c.
Proof. unfold digit_of. lia. Qed.

Lemma decimal_from_nonneg acc s : 0 ≤ acc → 0 ≤ decimal_from acc s.
Proof.
  revert acc. induction s as [|c s IH]; intros acc Hacc; simpl; [done|].
  apply IH. pose proof (digit_of_nonneg c). lia.
Qed.

(** ** [str] of a natural number is its decimal numeral *)

Lemma pretty_N_char_digit (d : N) :
  (d < 10)%N →
  is_digit (pretty_N_char d) = true ∧ digit_of (pretty_N_char d) = Z.of_N d.
Proof.
  intros Hd.
  assert (d = 0 ∨ d = 1 ∨ d = 2 ∨ d = 3 ∨ d = 4 ∨ d = 5 ∨ d = 6 ∨ d = 7
          ∨ d = 8 ∨ d = 9)%N as H by lia.
  repeat destruct H as [->|H]; try subst d; by compute.
Qed.

Lemma pretty_N_go_app (x : N) (s : string) :
  pretty_N_go x s = pretty_N_go x "" +:+ s.
Proof.
  revert s. induction (N.lt_wf_0 x) as [x _ IH]; intros s.
  assert (x = 0 ∨ 0 < x)%N as [->|Hx] by lia.
  - by rewrite !pretty_N_go_0.
  - rewrite (pretty_N_go_step x s), (pretty_N_go_step x "") by done.
    assert (x `div` 10 < x)%N as Hlt by (by apply N.div_lt).
    set (c := pretty_N_char (x `mod` 10)).
    rewrite (IH _ Hlt (String c s)), (IH _ Hlt (String c "")).
    by rewrite append_assoc.
Qed.

Lemma pretty_N_go_numeral (x : N) :
  all_digits (pretty_N_go x "") = true
  ∧ decimal (pretty_N_go x "") = Z.of_N x
  ∧ ((0 < x)%N → nonempty (pretty_N_go x "") = true).
Proof.
  induction (N.lt_wf_0 x) as [x _ IH].
  assert (x = 0 ∨ 0 < x)%N as [->|Hx] by lia.
  { rewrite pretty_N_go_0. repeat split. lia. }
  rewrite pretty_N_go_step, pretty_N_go_app by done.
  destruct (IH (x `div` 10)%N) as (Hd & Hv & _); [by apply N.div_lt|].
  destruct (pretty_N_char_digit (x `mod` 10)%N) as [Hc Hc'].
  { by apply N.mod_lt. }
  repeat split.
  - rewrite all_digits_app, Hd. simpl. by rewrite Hc.
  - unfold decimal in *. rewrite decimal_from_app, Hv. simpl. rewrite Hc'.
    rewrite (N.div_mod x 10) at 3 by done. lia.
  - intros _. by destruct (pretty_N_go (x `div` 10) "").
Qed.

Lemma pretty_N_numeral (n : N) :
  isdigit (pretty n) = true ∧ decimal (pretty n) = Z.of_N n.
Proof.
  unfold pretty, pretty_N. destruct (decide (n = 0)%N) as [->|Hn]; [done|].
  destruct (pretty_N_go_numeral n) as (Hd & Hv & Hne).
  unfold isdigit. rewrite Hd, Hne by lia. done.
Qed.

Lemma pretty_Z_numeral (z : Z) :
  0 ≤ z → isdigit (pretty z) = true ∧ decimal (pretty z) = z.
Proof.
  intros Hz. destruct z as [|p|p]; [done| |lia].
  destruct (pretty_N_numeral (Npos p)) as [Hd Hv]. by split.
Qed.

(** ** [int] of a decimal numeral *)

Lemma digit_part_digits s acc after_digit :
  all_digits s = true →
  digit_part s acc after_digit
  = if nonempty s then Some (decimal_from acc s)
    else if after_digit then Some acc else None.
Proof.
  revert acc after_digit. induction s as [|c s IH]; intros acc b Hs; simpl; [done|].
  simpl in Hs. apply andb_true_iff in Hs as [Hc Hs]. rewrite Hc, IH by done.
  by destruct s.
Qed.

Lemma rev_app_involutive (s t u : string) :
  String.rev_app (String.rev_app s t) u = String.rev_app t (s +:+ u).
Proof.
  revert t. induction s as [|c s IH]; intros t; [done|].
  simpl. by rewrite IH.
Qed.

Lemma rev_involutive (s : string) : String.rev (String.rev s) = s.
Proof. unfold String.rev. rewrite rev_app_involutive. simpl. apply append_nil_r. Qed.

Lemma all_digits_rev_app s t :
  all_digits (String.rev_app s t) = all_digits s && all_digits t.
Proof.
  revert t. induction s as [|c s IH]; intros t; simpl; [done|].
  rewrite IH. simpl. destruct (is_digit c), (all_digits s); done.
Qed.

Lemma digit_not_c_space c : is_digit c = true → is_c_space c = false.
Proof.
  unfold is_digit, is_c_space. intros H.
  apply andb_true_iff in H as [H1 H2].
  apply Nat.leb_le in H1, H2.
  apply orb_false_iff. split.
  - apply andb_false_iff. right. apply Nat.leb_gt. lia.
  - apply Nat.eqb_neq. lia.
Qed.

Lemma skip_space_digits s : all_digits s = true → skip_space s = s.
Proof.
  destruct s as [|c s]; simpl; [done|].
  intros [Hc _]%andb_true_iff. by rewrite (digit_not_c_space c).
Qed.

Lemma trim_digits s : all_digits s = true → trim s = s.
Proof.
  intros Hs. unfold trim. rewrite (skip_space_digits s Hs).
  rewrite skip_space_digits; [apply rev_involutive|].
  unfold String.rev. by rewrite all_digits_rev_app, Hs.
Qed.

Lemma literal_digits s : isdigit s = true → literal s = Some (decimal s).
Proof.
  unfold isdigit. intros [Hne Hs]%andb_true_iff.
  unfold literal. rewrite (trim_digits s Hs).
  destruct s as [|c t]; [done|].
  pose proof (digit_part_digits (String c t) 0 false Hs) as Hd. simpl nonempty in Hd.
  simpl in Hs. apply andb_true_iff in Hs as [Hc _].
  destruct c as [[] [] [] [] [] [] [] []]; try discriminate Hc; exact Hd.
Qed.

Lemma digit_count_digits s : all_digits s = true → digit_count s = String.length s.
Proof.
  induction s as [|c s IH]; simpl; [done|].
  intros [Hc Hs]%andb_true_iff. by rewrite Hc, IH.
Qed.

(** A run of digits is converted when it has at most [max_str_digits]
    digits, and refused when it is longer. *)
Lemma py_int_digits s :
  isdigit s = true →
  py_int s = if Z.ltb max_str_digits (Z.of_nat (String.length s)) then None
             else Some (decimal s).
Proof.
  intros Hs. unfold py_int. rewrite (literal_digits s Hs).
  apply andb_true_iff in Hs as [_ Hs]. by rewrite (digit_count_digits s Hs).
Qed.

Lemma py_int_pretty (z : Z) :
  0 ≤ z → Z.of_nat (String.length (pretty z)) ≤ max_str_digits →
  py_int (pretty z) = Some z.
Proof.
  intros Hz Hlen. destruct (pretty_Z_numeral z Hz) as [Hd Hv].
  rewrite py_int_digits, Hv by done.
  by rewrite (proj2 (Z.ltb_ge _ _)).
Qed.

(** ** The digit run *)

Lemma span_digits_spec s :
  all_digits (fst (span_digits s)) = true
  ∧ s = fst (span_digits s) +:+ snd (span_digits s).
Proof.
  induction s as [|c s [IH1 IH2]]; simpl; [done|].
  destruct (is_digit c) eqn:Hc; simpl; [|done].
  destruct (span_digits s) as [digits rest]; simpl in *.
  rewrite Hc, IH1. split; [done|]. rewrite append_cons. by f_equal.
Qed.

Lemma span_digits_app (digits rest : string) :
  all_digits digits = true →
  match rest with String c _ => is_digit c = false | EmptyString => True end →
  span_digits (digits +:+ rest) = (digits, rest).
Proof.
  intros Hd Hr. induction digits as [|c digits IH].
  - destruct rest as [|c rest]; simpl; [done|]. by rewrite Hr.
  - simpl in Hd. apply andb_true_iff in Hd as [Hc Hd].
    rewrite append_cons. simpl. by rewrite Hc, IH.
Qed.

End TextFacts.

(* ===================================================================== *)
(** * Further properties of [ORD.py] *)
(* ===================================================================== *)
Module ORDBehaviour.
Import Py Web ORD PyText ORDMain TextFacts TraversalFacts.

(** ** The entry count *)

Lemma entries_here_first c t : c ≠ "o"%char → entries_here (String c t) = None.
Proof.
  intros Hc. destruct c as [[] [] [] [] [] [] [] []]; try reflexivity.
  by destruct Hc.
Qed.

Lemma digit_not_o c : is_digit c = true → c ≠ "o"%char.
Proof. by intros Hc ->. Qed.

Lemma entries_search_skip c t :
  c ≠ "o"%char → entries_search (String c t) = entries_search t.
Proof.
  intros Hc.
  change (entries_search (String c t))
    with (match entries_here (String c t) with
          | Some digits => Some digits
          | None => entries_search t
          end).
  by rewrite (entries_here_first c t Hc).
Qed.

Lemma entries_search_second c t :
  c ≠ "f"%char → entries_search (String "o" (String c t)) = entries_search (String c t).
Proof.
  intros Hc.
  change (entries_search (String "o" (String c t)))
    with (match entries_here (String "o" (String c t)) with
          | Some digits => Some digits
          | None => entries_search (String c t)
          end).
  assert (entries_here (String "o" (String c t)) = None) as ->; [|done].
  destruct c as [[] [] [] [] [] [] [] []]; try reflexivity. by destruct Hc.
Qed.

Lemma entries_search_digits digits rest :
  all_digits digits = true → entries_search (digits +:+ rest) = entries_search rest.
Proof.
  induction digits as [|c digits IH]; [done|].
  intros Hcd. simpl in Hcd. apply andb_true_iff in Hcd as [Hc Hd].
  rewrite append_cons, entries_search_skip by (by apply digit_not_o). auto.
Qed.

Lemma entries_here_digits s digits :
  entries_here s = Some digits → isdigit digits = true.
Proof.
  unfold entries_here.
  destruct s as [|c1 s]; [done|].
  destruct c1 as [[] [] [] [] [] [] [] []]; try done.
  destruct s as [|c2 s]; [done|].
  destruct c2 as [[] [] [] [] [] [] [] []]; try done.
  destruct s as [|c3 t]; [done|].
  destruct c3 as [[] [] [] [] [] [] [] []]; try done.
  destruct (span_digits_spec t) as [Hd _].
  destruct (span_digits t) as [ds rest]; simpl in Hd.
  destruct (nonempty ds) eqn:Hne; simpl; [|discriminate].
  destruct (String.prefix _ _); [|discriminate].
  intros [= <-]. unfold isdigit. by rewrite Hne, Hd.
Qed.

Lemma entries_search_digits_only s digits :
  entries_search s = Some digits → isdigit digits = true.
Proof.
  induction s as [|c s IH]; [done|].
  change (entries_search (String c s))
    with (match entries_here (String c s) with
          | Some digits => Some digits
          | None => entries_search s
          end).
  destruct (entries_here (String c s)) eqn:E; [|exact IH]. intros [= <-].
  by apply entries_here_digits in E.
Qed.

(** X1. [get_total_entries] reads the total off the pagination label: on
    ["Showing X of Y entries"] it returns [Y] for all numbers X and Y whose
    [Y] has at most 4300 digits, and [None] for a longer [Y], which [int]
    refuses. On an ASCII label the result is the number of the leftmost run
    of digits between ["of "] and [" entries"], if there is one of at most
    4300 digits. The result is never negative, and a label that cannot be
    read gives [None]. *)
Theorem total_entries_read_back :
  ∀ (shown total : N),
    get_total_entries
      (Ok ("Showing " +:+ pretty shown +:+ " of " +:+ pretty total +:+ " entries"))
    = (if Z.ltb max_str_digits (Z.of_nat (String.length (pretty total))) then None
       else Some (Z.of_N total))
    ∧ (∀ text,
         is_ascii text = true →
         get_total_entries (Ok text)
         = match entries_search text with
           | Some digits =>
               if Z.ltb max_str_digits (Z.of_nat (String.length digits)) then None
               else Some (decimal digits)
           | None => None
           end)
    ∧ (∀ pagination_text n, get_total_entries pagination_text = Some n → 0 ≤ n)
    ∧ (∀ e, get_total_entries (Raise e) = None).
Proof.
  intros shown total.
  assert (∀ text,
            get_total_entries (Ok text)
            = match entries_search text with
              | Some digits =>
                  if Z.ltb max_str_digits (Z.of_nat (String.length digits)) then None
                  else Some (decimal digits)
              | None => None
              end) as Hread.
  { intros text. unfold get_total_entries.
    destruct (entries_search text) as [digits|] eqn:E; [|done].
    apply entries_search_digits_only in E. by rewrite py_int_digits. }
  split; [|split; [by intros text _|split; [|done]]].
  - rewrite Hread.
    destruct (pretty_N_numeral shown) as [[_ Hs]%andb_true_iff _].
    destruct (pretty_N_numeral total) as [Ht Hv].
    pose proof Ht as [Hne Hd]%andb_true_iff.
    rewrite !append_cons, !append_nil_l.
    do 2 (rewrite entries_search_skip by done).
    assert (entries_search (String "o" (String "w" (String "i" (String "n"
              (String "g" (String " " (pretty shown +:+ String " " (String "o"
                (String "f" (String " " (pretty total +:+ " entries")))))))))))
            = entries_search (pretty shown +:+ String " " (String "o"
                (String "f" (String " " (pretty total +:+ " entries")))))) as ->.
    { rewrite entries_search_second by done. by rewrite !entries_search_skip by done. }
    rewrite entries_search_digits by done.
    rewrite entries_search_skip by done.
    unfold entries_search. destruct (pretty total +:+ " entries") eqn:E.
    { destruct (pretty total); discriminate. }
    rewrite <- E. unfold entries_here.
    rewrite span_digits_app by done. rewrite Hne. simpl. by rewrite Hv.
  - intros [text|e] n; [|done]. rewrite Hread.
    destruct (entries_search text) as [digits|]; [|done].
    destruct (Z.ltb _ _); [done|].
    intros [= <-]. by apply decimal_from_nonneg.
Qed.

(** ** Role names *)

(** The role table read from the name to the code. *)
Local Abbreviation codes := (map (λ kv : Z * string, (snd kv, fst kv)) roles).

Lemma role_name_unknown float_repr z :
  z < 0 ∨ 10 < z →
  get_reaction_role_name float_repr (PInt z) = Ok ("UNKNOWN_" +:+ pretty z).
Proof.
  intros Hz. unfold get_reaction_role_name, roles. simpl.
  by rewrite !(proj2 (Z.eqb_neq z _)) by lia.
Qed.

Lemma role_name_known float_repr z :
  0 ≤ z ≤ 10 →
  ∃ name, get_reaction_role_name float_repr (PInt z) = Ok name
          ∧ assoc name codes = Some z.
Proof.
  intros Hz.
  assert (z = 0 ∨ z = 1 ∨ z = 2 ∨ z = 3 ∨ z = 4 ∨ z = 5 ∨ z = 6 ∨ z = 7
          ∨ z = 8 ∨ z = 9 ∨ z = 10) as H by lia.
  repeat destruct H as [->|H]; try subst z; by eexists.
Qed.

Lemma unknown_not_listed (s : string) : assoc ("UNKNOWN_" +:+ s) codes = None.
Proof. rewrite !append_cons. reflexivity. Qed.


(** ** The reaction limit *)

Lemma collect_reaction_ids_within m links acc :
  0 < m → Z.of_nat (length acc) < m →
  match collect_reaction_ids (Some m) links acc with
  | inl r => Z.of_nat (length r) = m
  | inr all' => Z.of_nat (length all') < m
  end.
Proof.
  intros Hm. revert acc.
  induction links as [|link links IH]; intros acc Hacc; simpl; [done|].
  TraversalFacts.case_href link; [|by apply IH..].
  destruct (_ && _); [|by apply IH].
  rewrite length_app. simpl.
  destruct (Z.eqb_spec m 0) as [->|_]; [lia|]. simpl.
  destruct (Z.leb_spec m (Z.of_nat (length acc + 1))) as [Hle|Hgt].
  - unfold slice_to. destruct (Z.ltb_spec m 0); [lia|].
    rewrite length_take, length_app. simpl. lia.
  - apply IH. rewrite length_app. simpl. lia.
Qed.

Lemma collect_reaction_ids_negative m links :
  m < 0 →
  match collect_reaction_ids (Some m) links [] with
  | inl r => r = []
  | inr all' => all' = []
  end.
Proof.
  intros Hm. induction links as [|link links IH]; simpl; [done|].
  TraversalFacts.case_href link; [|by apply IH..].
  destruct (_ && _); [|by apply IH].
  destruct (Z.eqb_spec m 0) as [->|_]; [lia|]. simpl.
  destruct (Z.leb_spec m (Z.of_nat 1)) as [_|?]; [|lia].
  unfold slice_to. destruct (Z.ltb_spec m 0); [|lia].
  simpl length. by replace (Z.to_nat (Z.of_nat 1 + m)) with 0%nat by lia.
Qed.

Lemma collect_reaction_ids_unlimited links acc :
  collect_reaction_ids (Some 0) links acc = collect_reaction_ids None links acc.
Proof.
  revert acc. induction links as [|link links IH]; intros acc; simpl; [done|].
  TraversalFacts.case_href link; [|by apply IH..].
  destruct (_ && _); by rewrite IH.
Qed.

Lemma reaction_page_within total m s :
  0 < m → Z.of_nat (length (ids s)) < m →
  match reaction_page total (Some m) s with
  | Break s' | Continue s' => Z.of_nat (length (ids s')) < m
  | Return r _ => Z.of_nat (length r) = m
  end.
Proof.
  intros Hm Hs. unfold reaction_page.
  destruct (find_reaction_links _) as [[|link links]|]; [done| |done].
  pose proof (collect_reaction_ids_within m (link :: links) (ids s) Hm Hs) as Hc.
  destruct (collect_reaction_ids _ _ _) as [r|all']; [done|].
  destruct (all_collected _ _); [done|].
  destruct (Z.eqb _ _); [done|].
  unfold advance; simpl.
  destruct (next_controls _) as [bs|]; [|done].
  by destruct (click_next bs (session s)).
Qed.

Lemma reaction_page_negative total m s :
  m < 0 → ids s = [] →
  step_ids (reaction_page total (Some m) s) = []
  ∧ ∀ s', reaction_page total (Some m) s = Continue s' → ids s' = [].
Proof.
  intros Hm Hs. unfold reaction_page.
  destruct (find_reaction_links _) as [[|link links]|]; [done| |done].
  pose proof (collect_reaction_ids_negative m (link :: links) Hm) as Hc.
  rewrite Hs. destruct (collect_reaction_ids _ _ _) as [r|all']; [done|].
  destruct (all_collected _ _); [done|].
  destruct (Z.eqb _ _); [done|].
  unfold advance; simpl.
  destruct (next_controls _) as [bs|]; [|done].
  destruct (click_next bs (session s)); [|done].
  split; [done|]. by intros s' [= <-].
Qed.

Lemma reaction_loop_within fuel total m s :
  0 < m → Z.of_nat (length (ids s)) < m →
  Z.of_nat (length (collected (reaction_loop fuel total (Some m) s))) ≤ m.
Proof.
  intros Hm. revert s. induction fuel as [|fuel IH]; intros s Hs; simpl; [lia|].
  pose proof (reaction_page_within total m s Hm Hs) as Hp.
  destruct (reaction_page total (Some m) s); simpl; [lia|lia|by apply IH].
Qed.

Lemma reaction_loop_negative fuel total m s :
  m < 0 → ids s = [] →
  collected (reaction_loop fuel total (Some m) s) = [].
Proof.
  intros Hm. revert s. induction fuel as [|fuel IH]; intros s Hs; simpl; [done|].
  destruct (reaction_page_negative total m s Hm Hs) as [Hp Hc].
  destruct (reaction_page total (Some m) s); simpl in *; [done|done|].
  apply IH. by apply Hc.
Qed.

Lemma reaction_loop_unlimited fuel total s :
  reaction_loop fuel total (Some 0) s = reaction_loop fuel total None s.
Proof.
  revert s. induction fuel as [|fuel IH]; intros s; simpl; [done|].
  assert (reaction_page total (Some 0) s = reaction_page total None s) as ->.
  { unfold reaction_page. destruct (find_reaction_links _) as [[|link links]|]; try done.
    by rewrite collect_reaction_ids_unlimited. }
  destruct (reaction_page total None s); auto.
Qed.

(** X3. [get_all_reaction_ids_from_dataset] never returns more than a
    positive [max_reactions] ids, however many links a page shows. A limit
    of 0 is no limit at all, and with a negative limit the function returns
    the empty list whatever the site lists. *)
Theorem reaction_limit_respected :
  ∀ (fuel : nat) (b : browser) (m : Z),
    (0 < m →
     Z.of_nat (length (collected (get_all_reaction_ids_from_dataset fuel b (Some m)))) ≤ m)
    ∧ (m < 0 → collected (get_all_reaction_ids_from_dataset fuel b (Some m)) = [])
    ∧ get_all_reaction_ids_from_dataset fuel b (Some 0)
      = get_all_reaction_ids_from_dataset fuel b None.
Proof.
  intros fuel b m. unfold get_all_reaction_ids_from_dataset.
  destruct (reachable b); simpl.
  - split; [|split].
    + intros Hm. apply reaction_loop_within; simpl; lia.
    + intros Hm. by apply reaction_loop_negative.
    + apply reaction_loop_unlimited.
  - repeat split; intros; lia.
Qed.

(** ** The ids collected *)

Lemma prefix_slash c w : c ≠ "/"%char → String.prefix "/" (String c w) = false.
Proof.
  intros Hc.
  change (String.prefix "/" (String c w))
    with (if ascii_dec "/" c then String.prefix "" w else false).
  destruct (ascii_dec "/" c) as [<-|]; [by destruct Hc|done].
Qed.

Lemma split_no_slash s : Forall (λ w, contains "/" w = false) (split "/" s).
Proof.
  induction s as [|c s IH]; simpl.
  - by constructor.
  - destruct (Ascii.eqb_spec c "/") as [->|Hc].
    + by constructor.
    + destruct (split "/" s) as [|w ws].
      * constructor; [|done]. unfold contains. by rewrite prefix_slash.
      * apply Forall_cons in IH as [Hw Hws]. constructor; [|done].
        change (contains "/" (String c w))
          with (String.prefix "/" (String c w) || contains "/" w).
        by rewrite prefix_slash, Hw.
Qed.

Lemma last_Forall {A} (P : A → Prop) (l : list A) d :
  Forall P l → P d → P (List.last l d).
Proof.
  intros Hl Hd. induction Hl as [|x l Hx Hl IH]; simpl; [done|].
  by destruct l.
Qed.

Lemma last_segment_no_slash href : contains "/" (last_segment href) = false.
Proof. unfold last_segment. apply last_Forall; [apply split_no_slash|done]. Qed.

Lemma slice_to_Forall {A} (P : A → Prop) (l : list A) m :
  Forall P l → Forall P (slice_to l m).
Proof. intros Hl. unfold slice_to. destruct (Z.ltb m 0); by apply Forall_take. Qed.

Lemma collect_dataset_ids_Forall (P : string → Prop) links acc :
  (∀ href, nonempty (last_segment href) = true → P (last_segment href)) →
  Forall P acc → Forall P (collect_dataset_ids links acc).
Proof.
  intros HP. revert acc. induction links as [|link links IH]; intros acc Hacc; simpl; [done|].
  TraversalFacts.case_href link; [|by apply IH..].
  destruct (nonempty (last_segment href)) eqn:Hne; simpl; [|by apply IH].
  destruct (negb _); [|by apply IH].
  apply IH. apply Forall_app. split; [done|]. constructor; [by apply HP|done].
Qed.

Lemma collect_reaction_ids_Forall (P : string → Prop) max_reactions links acc :
  (∀ href, startswith (last_segment href) "ord-" = true → P (last_segment href)) →
  Forall P acc →
  match collect_reaction_ids max_reactions links acc with
  | inl r => Forall P r
  | inr all' => Forall P all'
  end.
Proof.
  intros HP. revert acc. induction links as [|link links IH]; intros acc Hacc; simpl; [done|].
  TraversalFacts.case_href link; [|by apply IH..].
  destruct (startswith (last_segment href) "ord-") eqn:Hs; simpl; [|by apply IH].
  destruct (negb _); [|by apply IH].
  assert (Forall P (acc ++ [last_segment href])) as Hall.
  { apply Forall_app. split; [done|]. constructor; [by apply HP|done]. }
  destruct (limit_reached _ _); [by apply slice_to_Forall|by apply IH].
Qed.

Lemma dataset_loop_Forall (P : string → Prop) fuel total s :
  (∀ href, nonempty (last_segment href) = true → P (last_segment href)) →
  Forall P (ids s) → Forall P (collected (dataset_loop fuel total s)).
Proof.
  intros HP. revert s. induction fuel as [|fuel IH]; intros s Hs; simpl; [done|].
  assert (Forall P (step_ids (dataset_page total s))) as Hp.
  { unfold dataset_page.
    destruct (links_css _) as [[|link links]|]; [done| |done].
    pose proof (collect_dataset_ids_Forall P (link :: links) _ HP Hs) as Hc.
    destruct (all_collected _ _); [done|].
    destruct (Z.eqb _ _); [done|]. by rewrite TraversalFacts.advance_ids. }
  destruct (dataset_page total s); simpl in *; auto.
Qed.

Lemma reaction_loop_Forall (P : string → Prop) fuel total max_reactions s :
  (∀ href, startswith (last_segment href) "ord-" = true → P (last_segment href)) →
  Forall P (ids s) → Forall P (collected (reaction_loop fuel total max_reactions s)).
Proof.
  intros HP. revert s. induction fuel as [|fuel IH]; intros s Hs; simpl; [done|].
  assert (Forall P (step_ids (reaction_page total max_reactions s))) as Hp.
  { unfold reaction_page.
    destruct (find_reaction_links _) as [[|link links]|]; [done| |done].
    pose proof (collect_reaction_ids_Forall P max_reactions (link :: links) _ HP Hs) as Hc.
    destruct (collect_reaction_ids _ _ _) as [r|all']; [done|].
    destruct (all_collected _ _); [done|].
    destruct (Z.eqb _ _); [done|]. by rewrite TraversalFacts.advance_ids. }
  destruct (reaction_page total max_reactions s); simpl in *; auto.
Qed.

(** X4. Every id the traversals return is the last path segment of a link
    target, so it holds no ["/"]: a dataset id is non-empty and a reaction
    id starts with ["ord-"], whatever the site lists and wherever the walk
    stops. *)
Theorem collected_ids_are_segments :
  ∀ (fuel : nat) (b : browser) (max_reactions : option Z),
    Forall (λ id, startswith id "ord-" = true ∧ contains "/" id = false)
      (collected (get_all_reaction_ids_from_dataset fuel b max_reactions))
    ∧ (∀ r, get_all_dataset_ids fuel b = Ok r →
            Forall (λ id, nonempty id = true ∧ contains "/" id = false) (collected r)).
Proof.
  intros fuel b max_reactions. split.
  - unfold get_all_reaction_ids_from_dataset. destruct (reachable b); simpl; [|done].
    apply reaction_loop_Forall; [|done].
    intros href Hs. split; [done|apply last_segment_no_slash].
  - intros r. unfold get_all_dataset_ids. destruct (reachable b); [|done].
    intros [= <-]. apply dataset_loop_Forall; [|done].
    intros href Hs. split; [done|apply last_segment_no_slash].
Qed.

(** ** Growth of the id list *)

Lemma not_all_collected total n :
  all_collected total n = false → ∀ t, total = Some t → t = 0 ∨ n < t.
Proof.
  intros Ha t ->. unfold all_collected in Ha.
  destruct (Z.eqb_spec t 0); [by left|right]. simpl in Ha. by apply Z.leb_gt in Ha.
Qed.

Lemma collect_reaction_ids_appends max_reactions links acc :
  (∀ m, max_reactions = Some m → m = 0 ∨ Z.of_nat (length acc) < m) →
  match collect_reaction_ids max_reactions links acc with
  | inl r => acc `prefix_of` r
  | inr all' =>
      acc `prefix_of` all'
      ∧ ∀ m, max_reactions = Some m → m = 0 ∨ Z.of_nat (length all') < m
  end.
Proof.
  revert acc. induction links as [|link links IH]; intros acc Hacc; simpl; [done|].
  TraversalFacts.case_href link; [|by apply IH..].
  destruct (_ && _); [|by apply IH].
  assert (acc `prefix_of` acc ++ [last_segment href]) as Hpre by (by eexists).
  destruct (limit_reached _ _) eqn:E.
  - destruct max_reactions as [m|]; [|done]. simpl in *.
    destruct (Hacc m eq_refl) as [->|Hlt]; [done|].
    apply andb_true_iff in E as [_ E%Z.leb_le].
    rewrite length_app in E. simpl in E.
    unfold slice_to. destruct (Z.ltb_spec m 0); [lia|].
    rewrite take_ge; [done|]. rewrite length_app. simpl. lia.
  - specialize (IH (acc ++ [last_segment href])).
    destruct (collect_reaction_ids _ _ _) as [r|all'].
    + etrans; [exact Hpre|]. apply IH.
      intros m ->. simpl in E. destruct (Z.eqb_spec m 0); [by left|right].
      simpl in E. by apply Z.leb_gt in E.
    + destruct IH as [IH1 IH2].
      { intros m ->. simpl in E. destruct (Z.eqb_spec m 0); [by left|right].
        simpl in E. by apply Z.leb_gt in E. }
      split; [by etrans|done].
Qed.

Lemma dataset_page_grows total s s' :
  prev_count s = Z.of_nat (length (ids s)) →
  dataset_page total s = Continue s' →
  ids s `prefix_of` ids s'
  ∧ (length (ids s) < length (ids s'))%nat
  ∧ prev_count s' = Z.of_nat (length (ids s'))
  ∧ ∀ t, total = Some t → t = 0 ∨ Z.of_nat (length (ids s')) < t.
Proof.
  intros Hprev. unfold dataset_page.
  destruct (links_css _) as [[|link links]|]; [done| |done].
  destruct (collect_dataset_ids_extends (link :: links) (ids s)) as [new Hnew].
  rewrite Hnew.
  destruct (all_collected _ _) eqn:Ea; [done|].
  destruct (Z.eqb_spec (Z.of_nat (length (ids s ++ new))) (prev_count s)) as [|Hne]; [done|].
  intros (Hi & Hp & _ & _)%TraversalFacts.advance_continue; simpl in *.
  rewrite Hi, Hp. rewrite length_app in Hne |- *.
  repeat split; [by eexists|lia|].
  intros t Ht. rewrite <- length_app. by apply (not_all_collected total).
Qed.

Lemma reaction_page_grows total max_reactions s s' :
  prev_count s = Z.of_nat (length (ids s)) →
  (∀ m, max_reactions = Some m → m = 0 ∨ Z.of_nat (length (ids s)) < m) →
  reaction_page total max_reactions s = Continue s' →
  ids s `prefix_of` ids s'
  ∧ (length (ids s) < length (ids s'))%nat
  ∧ prev_count s' = Z.of_nat (length (ids s'))
  ∧ (∀ t, total = Some t → t = 0 ∨ Z.of_nat (length (ids s')) < t)
  ∧ (∀ m, max_reactions = Some m → m = 0 ∨ Z.of_nat (length (ids s')) < m).
Proof.
  intros Hprev Hmax. unfold reaction_page.
  destruct (find_reaction_links _) as [[|link links]|]; [done| |done].
  pose proof (collect_reaction_ids_appends max_reactions (link :: links) (ids s) Hmax) as Hc.
  destruct (collect_reaction_ids _ _ _) as [r|all'] eqn:E; [done|].
  destruct Hc as [[new ->] Hwithin].
  destruct (all_collected _ _) eqn:Ea; [done|].
  destruct (Z.eqb_spec (Z.of_nat (length (ids s ++ new))) (prev_count s)) as [|Hne]; [done|].
  intros (Hi & Hp & _ & _)%TraversalFacts.advance_continue; simpl in *.
  rewrite Hi, Hp. split; [by eexists|].
  split; [rewrite length_app in Hne |- *; lia|].
  split; [done|]. split; [|done].
  intros t Ht. by apply (not_all_collected total).
Qed.

Lemma dataset_loop_appends fuel total s :
  ids s `prefix_of` collected (dataset_loop fuel total s).
Proof.
  revert s. induction fuel as [|fuel IH]; intros s; simpl; [done|].
  assert (ids s `prefix_of` step_ids (dataset_page total s)) as Hp.
  { unfold dataset_page.
    destruct (links_css _) as [[|link links]|]; [done| |done].
    destruct (collect_dataset_ids_extends (link :: links) (ids s)) as [new Hnew].
    rewrite Hnew.
    destruct (all_collected _ _); [by eexists|].
    destruct (Z.eqb _ _); [by eexists|].
    rewrite TraversalFacts.advance_ids. by eexists. }
  destruct (dataset_page total s) as [s'|r s'|s']; simpl in *; [done..|].
  etrans; [exact Hp|apply IH].
Qed.

Lemma reaction_loop_appends fuel total max_reactions s :
  (∀ m, max_reactions = Some m → m = 0 ∨ Z.of_nat (length (ids s)) < m) →
  ids s `prefix_of` collected (reaction_loop fuel total max_reactions s).
Proof.
  revert s. induction fuel as [|fuel IH]; intros s Hmax; simpl; [done|].
  assert (ids s `prefix_of` step_ids (reaction_page total max_reactions s)
          ∧ ∀ s', reaction_page total max_reactions s = Continue s' →
                  ∀ m, max_reactions = Some m → m = 0 ∨ Z.of_nat (length (ids s')) < m)
    as [Hp Hc].
  { unfold reaction_page.
    destruct (find_reaction_links _) as [[|link links]|]; [done| |done].
    pose proof (collect_reaction_ids_appends max_reactions (link :: links) (ids s) Hmax)
      as Hc.
    destruct (collect_reaction_ids _ _ _) as [r|all']; [done|].
    destruct Hc as [Hpre Hwithin].
    destruct (all_collected _ _); [done|].
    destruct (Z.eqb _ _); [done|].
    rewrite TraversalFacts.advance_ids. split; [done|].
    by intros s' (-> & _)%TraversalFacts.advance_continue. }
  destruct (reaction_page total max_reactions s) as [s'|r s'|s']; simpl in *; [done..|].
  etrans; [exact Hp|]. apply IH. by apply Hc.
Qed.

(** X5. Discovery is append-only: the ids held at any point of either
    traversal are an initial part of what the traversal finally returns,
    with their order unchanged. For the reaction traversal this needs the
    limit, when one is set, not to be reached or exceeded already. *)
Theorem discovery_appends :
  ∀ (fuel : nat) (total max_reactions : option Z) (s : scan),
    ids s `prefix_of` collected (dataset_loop fuel total s)
    ∧ ((∀ m, max_reactions = Some m → m = 0 ∨ Z.of_nat (length (ids s)) < m) →
       ids s `prefix_of` collected (reaction_loop fuel total max_reactions s)).
Proof.
  intros fuel total max_reactions s. split.
  - apply dataset_loop_appends.
  - apply reaction_loop_appends.
Qed.

(** ** Pages visited *)

Lemma dataset_loop_returns t fuel s :
  prev_count s = Z.of_nat (length (ids s)) →
  Z.of_nat (length (ids s)) < t →
  (Z.to_nat (t - Z.of_nat (length (ids s))) ≤ fuel)%nat →
  ∃ r s', dataset_loop fuel (Some t) s = Returned r s'.
Proof.
  revert s. induction fuel as [|fuel IH]; intros s Hprev Hlt Hfuel; [lia|].
  simpl. destruct (dataset_page (Some t) s) as [s'|r s'|s'] eqn:E; [by eauto..|].
  destruct (dataset_page_grows _ _ _ Hprev E) as (_ & Hgrow & Hprev' & Hhint).
  destruct (Hhint t eq_refl) as [->|Hlt']; [lia|].
  apply IH; [done|done|lia].
Qed.

Lemma reaction_loop_returns_hint t fuel max_reactions s :
  prev_count s = Z.of_nat (length (ids s)) →
  (∀ m, max_reactions = Some m → m = 0 ∨ Z.of_nat (length (ids s)) < m) →
  Z.of_nat (length (ids s)) < t →
  (Z.to_nat (t - Z.of_nat (length (ids s))) ≤ fuel)%nat →
  ∃ r s', reaction_loop fuel (Some t) max_reactions s = Returned r s'.
Proof.
  revert s. induction fuel as [|fuel IH]; intros s Hprev Hmax Hlt Hfuel; [lia|].
  simpl. destruct (reaction_page (Some t) max_reactions s) as [s'|r s'|s'] eqn:E;
    [by eauto..|].
  destruct (reaction_page_grows _ _ _ _ Hprev Hmax E)
    as (_ & Hgrow & Hprev' & Hhint & Hmax').
  destruct (Hhint t eq_refl) as [->|Hlt']; [lia|].
  apply IH; [done|done|done|lia].
Qed.

Lemma reaction_loop_returns_limit m fuel total s :
  prev_count s = Z.of_nat (length (ids s)) →
  Z.of_nat (length (ids s)) < m →
  (Z.to_nat (m - Z.of_nat (length (ids s))) ≤ fuel)%nat →
  ∃ r s', reaction_loop fuel total (Some m) s = Returned r s'.
Proof.
  revert s. induction fuel as [|fuel IH]; intros s Hprev Hlt Hfuel; [lia|].
  simpl. destruct (reaction_page total (Some m) s) as [s'|r s'|s'] eqn:E;
    [by eauto..|].
  assert (∀ m', Some m = Some m' → m' = 0 ∨ Z.of_nat (length (ids s)) < m') as Hmax.
  { intros m' [= Hm]. right. by rewrite <- Hm. }
  destruct (reaction_page_grows _ _ _ _ Hprev Hmax E)
    as (_ & Hgrow & Hprev' & _ & Hmax').
  destruct (Hmax' m eq_refl) as [->|Hlt']; [lia|].
  apply IH; [done|done|lia].
Qed.

(** X6. A positive entry count bounds the walk: when the pagination label
    gives a total of [t] entries, either traversal returns after at most
    [t] pages, whatever the site goes on listing; every page it moves past
    adds at least one id and leaves fewer than [t] held. A positive
    reaction limit bounds the reaction traversal in the same way. *)
Theorem entry_count_bounds_walk :
  ∀ (t : Z) (fuel : nat) (b : browser) (max_reactions : option Z),
    0 < t → (Z.to_nat t ≤ fuel)%nat →
    (entries_hint b = Some t → reachable b = true →
     ∃ r s, get_all_dataset_ids fuel b = Ok (Returned r s))
    ∧ (entries_hint b = Some t → (∀ m, max_reactions = Some m → 0 ≤ m) →
       ∃ r s, get_all_reaction_ids_from_dataset fuel b max_reactions = Returned r s)
    ∧ (∃ r s, get_all_reaction_ids_from_dataset fuel b (Some t) = Returned r s).
Proof.
  intros t fuel b max_reactions Ht Hfuel. repeat split.
  - intros Hh Hr. unfold get_all_dataset_ids. rewrite Hh, Hr.
    destruct (dataset_loop_returns t fuel (start b)) as (r & s & ->);
      simpl; [done|lia|lia|by eauto].
  - intros Hh Hmax. unfold get_all_reaction_ids_from_dataset. rewrite Hh.
    destruct (reachable b); [|by eauto].
    apply reaction_loop_returns_hint; simpl; [done| |lia|lia].
    intros m Hm. specialize (Hmax m Hm). lia.
  - unfold get_all_reaction_ids_from_dataset.
    destruct (reachable b); [|by eauto].
    apply reaction_loop_returns_limit; simpl; [done|lia|lia].
Qed.

(** A browse listing that announces two entries and always shows a new
    dataset: the walk ends on the second page. *)
Lemma entry_count_bounds_walk_witness :
  (entries_hint Scenario.endless_datasets = Some 2 →
   reachable Scenario.endless_datasets = true →
   ∃ r s, get_all_dataset_ids 2 Scenario.endless_datasets = Ok (Returned r s))
  ∧ (entries_hint Scenario.endless_datasets = Some 2 →
     (∀ m, @None Z = Some m → 0 ≤ m) →
     ∃ r s, get_all_reaction_ids_from_dataset 2 Scenario.endless_datasets None
            = Returned r s)
  ∧ (∃ r s, get_all_reaction_ids_from_dataset 2 Scenario.endless_datasets (Some 2)
            = Returned r s).
Proof.
  apply (entry_count_bounds_walk 2 2 Scenario.endless_datasets None); [lia|simpl; lia].
Defined.

(** ** The per-item fetch *)

Section Fetch.
Context (float_repr : float → string) (json_loads : string → res pyval).

Local Abbreviation answer := (answer json_loads).
Local Abbreviation retry_loop := (retry_loop json_loads).
Local Abbreviation scrape_reaction_data := (scrape_reaction_data json_loads).
Local Abbreviation wrapper := (scrape_single_reaction_wrapper float_repr json_loads).

Lemma retry_loop_cases attempts rid d :
  (retry_loop attempts rid d = (max_retries_exceeded rid, after d (length attempts))
   ∧ ∀ k, (gets d ≤ k < gets d + length attempts)%nat → is_ok (answer d rid k) = false)
  ∨ (∃ j r, (j < length attempts)%nat
            ∧ (∀ k, (gets d ≤ k < gets d + j)%nat → is_ok (answer d rid k) = false)
            ∧ answer d rid (gets d + j) = Ok r
            ∧ retry_loop attempts rid d = (r, after d (S j))).
Proof.
  revert d. induction attempts as [|a attempts IH]; intros d.
  - left. split; [by rewrite ORDFacts.after_0|]. intros k Hk. simpl in Hk. lia.
  - simpl. unfold attempt_once.
    destruct (answer d rid (gets d)) as [r|e] eqn:E.
    + right. exists 0%nat, r. rewrite Nat.add_0_r.
      split; [lia|]. split; [|by split]. intros k Hk. lia.
    + destruct (IH (after d 1)) as [[Hall Hfail]|(j & r & Hj & Hfail & Hok & Hres)].
      * left. rewrite Hall, ORDFacts.after_after. split; [done|].
        intros k Hk. destruct (decide (k = gets d)) as [->|Hne]; [by rewrite E|].
        apply Hfail. simpl. lia.
      * right. exists (S j), r. rewrite Hres, ORDFacts.after_after.
        split; [lia|]. split; [|split; [|done]].
        -- intros k Hk. destruct (decide (k = gets d)) as [->|Hne]; [by rewrite E|].
           apply Hfail. simpl. lia.
        -- rewrite <- Hok. unfold ORD.answer. simpl. do 2 f_equal. lia.
Qed.

(** X7. [scrape_reaction_data] stops at the first attempt that succeeds.
    Either all [max_retries] attempts fail and it returns the failure
    result after [max_retries] navigations, or some attempt [j] below
    [max_retries] is the first to succeed and it returns that attempt's
    result after exactly [j + 1] navigations. So it never navigates more
    than [max_retries] times, and with [max_retries] at most 0 it does not
    navigate at all. *)
Theorem retry_stops_at_first_success :
  ∀ (d : driver) (rid : string) (max_retries : Z),
    ((scrape_reaction_data d rid max_retries
      = (max_retries_exceeded rid, after d (Z.to_nat max_retries))
      ∧ ∀ k, (gets d ≤ k < gets d + Z.to_nat max_retries)%nat →
             is_ok (answer d rid k) = false)
     ∨ (∃ j r, (j < Z.to_nat max_retries)%nat
               ∧ (∀ k, (gets d ≤ k < gets d + j)%nat → is_ok (answer d rid k) = false)
               ∧ answer d rid (gets d + j) = Ok r
               ∧ scrape_reaction_data d rid max_retries = (r, after d (S j))))
    ∧ (∃ n, (n ≤ Z.to_nat max_retries)%nat
            ∧ snd (scrape_reaction_data d rid max_retries) = after d n)
    ∧ (max_retries ≤ 0 →
       scrape_reaction_data d rid max_retries = (max_retries_exceeded rid, d)).
Proof.
  intros d rid max_retries. unfold ORD.scrape_reaction_data.
  pose proof (retry_loop_cases (seqZ 0 max_retries) rid d) as Hc.
  rewrite length_seqZ in Hc. split; [exact Hc|split].
  - destruct Hc as [[-> _]|(j & r & Hj & _ & _ & ->)]; simpl.
    + by exists (Z.to_nat max_retries).
    + exists (S j). split; [lia|done].
  - intros Hle. destruct Hc as [[-> _]|(j & r & Hj & _)]; [|lia].
    replace (Z.to_nat max_retries) with 0%nat by lia. by rewrite ORDFacts.after_0.
Qed.

Lemma wrapper_cases launch rid :
  (∃ e, wrapper launch rid = Raise e)
  ∨ wrapper launch rid = Ok (max_retries_exceeded rid)
  ∨ (∃ data, wf_payload data = true
             ∧ wrapper launch rid = Ok (formatted_result float_repr rid data)).
Proof.
  destruct launch as [d|e]; [|left; by exists e].
  unfold scrape_single_reaction_wrapper. simpl.
  destruct (ORDFacts.retry_loop_shape json_loads (seqZ 0 default_max_retries) rid d)
    as [H|[data H]]; unfold ORD.scrape_reaction_data; rewrite H; simpl.
  - right. by left.
  - destruct (format_reaction_data float_repr (fetched rid data)) as [out|e] eqn:E.
    + right. right. exists data.
      pose proof (NormaliserFacts.format_reaction_data_wf _ _ _ _ E) as Hwf.
      rewrite (NormaliserFacts.format_reaction_data_spec _ _ _ Hwf) in E.
      injection E as <-. by split.
    + left. by exists e.
Qed.

Lemma settle_worker_result launch rid :
  worker_result float_repr rid (settle rid (wrapper launch rid)).
Proof.
  destruct (wrapper_cases launch rid) as [[e ->]|[->|(data & Hwf & ->)]]; simpl.
  - apply worker_raised.
  - apply worker_exhausted.
  - by apply worker_formatted.
Qed.

(** X8. What a worker leaves for a reaction has one of three shapes: the
    fetched payload with its normalised record under [formatted_data] and
    [success] true, the retry-exhausted failure, or the failure built from
    an exception. A payload that was fetched but that the normaliser cannot
    walk ends as a failure of the third kind; so [formatted_data] is
    present exactly when [success] is true. *)
Theorem worker_result_shapes :
  ∀ (launch : res driver) (rid : string),
    worker_result float_repr rid (settle rid (wrapper launch rid))
    ∧ (∀ d data,
         launch = Ok d →
         fst (scrape_reaction_data d rid default_max_retries) = fetched rid data →
         if wf_payload data
         then wrapper launch rid = Ok (formatted_result float_repr rid data)
         else ∃ e, settle rid (wrapper launch rid) = failed_future rid e)
    ∧ (∀ r, worker_result float_repr rid r →
            getitem r "reaction_id" = Ok (PStr rid)
            ∧ ∃ b : bool, getitem r "success" = Ok (PBool b)
                          ∧ has r "formatted_data" = Ok b).
Proof.
  intros launch rid. split; [apply settle_worker_result|split].
  - intros d data -> Hfetch. unfold scrape_single_reaction_wrapper. simpl.
    rewrite Hfetch. simpl.
    destruct (wf_payload data) eqn:Hwf.
    + by rewrite (NormaliserFacts.format_reaction_data_spec _ _ _ Hwf).
    + destruct (format_reaction_data float_repr (fetched rid data)) as [out|e] eqn:E.
      * apply NormaliserFacts.format_reaction_data_wf in E. congruence.
      * by exists e.
  - intros r [data Hwf| |e]; (split; [done|]).
    + by exists true.
    + by exists false.
    + by exists false.
Qed.

(** ** The dataset summary *)

Lemma worker_result_success rid r :
  worker_result float_repr rid r → ∃ b : bool, getitem r "success" = Ok (PBool b).
Proof. intros [data Hwf| |e]; by eexists. Qed.

Lemma count_successful_flags (rs : list pyval) :
  Forall (λ r, ∃ b : bool, getitem r "success" = Ok (PBool b)) rs →
  count_successful rs = Ok (Z.of_nat (length (List.filter succeeded rs))).
Proof.
  induction 1 as [|r rs [b Hb] _ IH]; [done|].
  assert (succeeded r = b) as Hs by (unfold succeeded; by rewrite Hb).
  simpl. rewrite Hb, IH, Hs. simpl.
  destruct b; simpl; [|done]. f_equal. lia.
Qed.

Lemma settled_results (launch : string → res driver) reaction_ids :
  Forall2 (worker_result float_repr) reaction_ids
    (map (λ rid, settle rid (wrapper (launch rid) rid)) reaction_ids).
Proof.
  induction reaction_ids as [|rid l IH]; simpl; constructor; [|done].
  apply settle_worker_result.
Qed.

Lemma worker_results_flags rids rs :
  Forall2 (worker_result float_repr) rids rs →
  Forall (λ r, ∃ b : bool, getitem r "success" = Ok (PBool b)) rs.
Proof.
  induction 1 as [|rid r rids rs Hr _ IH]; constructor; [|done].
  by apply (worker_result_success rid).
Qed.

(** X9. Between the discovery of the reaction ids and its [return],
    [scrape_single_dataset_parallel] raises in one case only: there are ids and the worker count is zero or
    negative, which the thread pool refuses. Otherwise, in whatever order
    the workers complete and whatever went wrong in them, it returns one
    result per reaction id, in discovery order and of one of the three
    shapes of a worker's result, with [total_reactions] the number of ids
    and [successful_scrapes] the number of results whose [success] is
    true, which lies between 0 and [total_reactions]. Without ids the
    worker count is not looked at. *)
Theorem dataset_summary_consistent :
  ∀ (dataset_id : string) (max_workers : option Z) (reaction_ids : list string)
    (launch : string → res driver) (completed : list (string * res pyval)),
    NoDup reaction_ids →
    completed ≡ₚ map (λ rid, (rid, wrapper (launch rid) rid)) reaction_ids →
    (is_ok (pool max_workers) = true ↔ ∀ n, max_workers = Some n → 0 < n)
    ∧ match reaction_ids, pool max_workers with
      | _ :: _, Raise e =>
          scrape_single_dataset_parallel dataset_id max_workers reaction_ids completed
          = Raise e
      | _, _ =>
          ∃ result reactions successful,
            scrape_single_dataset_parallel dataset_id max_workers reaction_ids completed
            = Ok result
            ∧ dataset_result float_repr result
            ∧ Forall2 (λ rid r, worker_result float_repr rid r
                                ∧ getitem r "reaction_id" = Ok (PStr rid))
                reaction_ids reactions
            ∧ successful = Z.of_nat (length (List.filter succeeded reactions))
            ∧ getitem result "dataset_id" = Ok (PStr dataset_id)
            ∧ getitem result "reactions" = Ok (PList reactions)
            ∧ getitem result "total_reactions" = Ok (PInt (Z.of_nat (length reaction_ids)))
            ∧ getitem result "successful_scrapes" = Ok (PInt successful)
            ∧ 0 ≤ successful ≤ Z.of_nat (length reaction_ids)
      end.
Proof.
  intros dataset_id max_workers reaction_ids launch completed Hnd Hperm.
  split.
  { unfold pool. destruct max_workers as [n|]; [|by split].
    destruct (Z.leb_spec n 0); simpl; split; try done.
    - intros Hn. specialize (Hn n eq_refl). lia.
    - intros _ m [= <-]. done. }
  set (reactions := map (λ rid, settle rid (wrapper (launch rid) rid)) reaction_ids).
  assert (length (List.filter succeeded reactions) ≤ length reaction_ids)%nat as Hle.
  { etrans; [apply List.filter_length_le|]. unfold reactions. by rewrite length_map. }
  assert (length reactions = length reaction_ids) as Hlen.
  { unfold reactions. by rewrite length_map. }
  assert (restore_order reaction_ids (gather completed []) = Ok reactions) as Hsort.
  { apply ORDFacts.restore_order_discovery; [done| |].
    - clear. induction reaction_ids as [|rid l IH]; simpl; constructor; [|done].
      apply ORDFacts.settle_reaction_id.
    - rewrite ORDFacts.gather_fmap. simpl. rewrite Hperm, map_map. done. }
  assert (count_successful reactions
          = Ok (Z.of_nat (length (List.filter succeeded reactions)))) as Hcount.
  { apply count_successful_flags, (worker_results_flags reaction_ids), settled_results. }
  assert (Forall2 (worker_result float_repr) reaction_ids reactions) as Hshapes
    by apply settled_results.
  assert (Forall2 (λ rid r, worker_result float_repr rid r
                            ∧ getitem r "reaction_id" = Ok (PStr rid))
            reaction_ids reactions) as Hids.
  { eapply Forall2_impl; [exact Hshapes|]. intros rid r Hr. split; [done|].
    by destruct Hr. }
  assert (∃ result successful,
            (_ ← Ok tt; reactions_data ← restore_order reaction_ids (gather completed []);
             successful ← count_successful reactions_data;
             Ok (PDict [ ("dataset_id", PStr dataset_id);
                         ("reactions", PList reactions_data);
                         ("total_reactions", PInt (Z.of_nat (length reactions_data)));
                         ("successful_scrapes", PInt successful) ])) = Ok result
            ∧ result = summary dataset_id reactions successful
            ∧ successful = Z.of_nat (length (List.filter succeeded reactions))) as Hrun.
  { eexists _, _. simpl. rewrite Hsort. simpl. rewrite Hcount. simpl.
    split; [reflexivity|]. by split. }
  destruct Hrun as (result & successful & Hrun & -> & ->).
  clearbody reactions. unfold scrape_single_dataset_parallel.
  destruct reaction_ids as [|rid0 rest].
  - apply Forall2_nil_inv_l in Hshapes as ->.
    exists (no_reactions dataset_id), [], 0.
    repeat split; [apply dataset_empty|constructor|simpl; lia..].
  - destruct (pool max_workers) as [[]|e]; [|done].
    eexists _, reactions, _. split; [exact Hrun|].
    split; [by apply (dataset_scraped _ _ (rid0 :: rest))|].
    split; [done|]. split; [done|].
    simpl in Hle |- *. rewrite Hlen. simpl. repeat split; try done; lia.
Qed.

End Fetch.

(** Two reactions whose workers finish in the opposite order, neither with
    a record, under the default of three workers. *)
Lemma dataset_summary_consistent_witness :
  ∃ result reactions successful,
    scrape_single_dataset_parallel "ord_dataset-a" (Some 3) ["ord-a"; "ord-b"]
      [ ("ord-b", scrape_single_reaction_wrapper Scenario.plain_repr Scenario.empty_object
                    (Ok Scenario.dead_driver) "ord-b");
        ("ord-a", scrape_single_reaction_wrapper Scenario.plain_repr Scenario.empty_object
                    (Ok Scenario.dead_driver) "ord-a") ]
    = Ok result
    ∧ dataset_result Scenario.plain_repr result
    ∧ Forall2 (λ rid r, worker_result Scenario.plain_repr rid r
                        ∧ getitem r "reaction_id" = Ok (PStr rid))
        ["ord-a"; "ord-b"] reactions
    ∧ successful = Z.of_nat (length (List.filter succeeded reactions))
    ∧ getitem result "dataset_id" = Ok (PStr "ord_dataset-a")
    ∧ getitem result "reactions" = Ok (PList reactions)
    ∧ getitem result "total_reactions" = Ok (PInt 2)
    ∧ getitem result "successful_scrapes" = Ok (PInt successful)
    ∧ 0 ≤ successful ≤ 2.
Proof.
  apply (dataset_summary_consistent Scenario.plain_repr Scenario.empty_object
           "ord_dataset-a" (Some 3) ["ord-a"; "ord-b"] (λ _, Ok Scenario.dead_driver)).
  - apply (bool_decide_unpack _). vm_compute. exact I.
  - apply perm_swap.
Defined.

(** ** The fallback rank *)

(** X23. The sort key of the aggregation gives a result whose id is not in
    the discovery index the fixed rank 999999, and an indexed result its
    position in the batch. In a batch of at most 999999 ids the results
    without an index entry therefore follow all indexed ones, in arrival
    order; in a batch of 1000001 ids the result for the last id ranks
    1000000 and sorts after a result without an index entry. *)
Theorem fallback_rank_is_fixed :
  ∀ (reaction_ids : list string) (rs : list pyval),
    (∀ x, is_ok (discovery_rank (reaction_order reaction_ids) x) = true →
          (indexed reaction_ids x = true
           ∧ 0 ≤ rank_of reaction_ids x < Z.of_nat (length reaction_ids))
          ∨ (indexed reaction_ids x = false ∧ rank_of reaction_ids x = 999999))
    ∧ (Z.of_nat (length reaction_ids) ≤ 999999 →
       Forall (λ x, is_ok (discovery_rank (reaction_order reaction_ids) x) = true) rs →
       ∃ front,
         restore_order reaction_ids rs
         = Ok (front ++ List.filter (λ x, negb (indexed reaction_ids x)) rs)
         ∧ front ≡ₚ List.filter (indexed reaction_ids) rs)
    ∧ restore_order (Scenario.batch 1000001) [Scenario.stray; Scenario.late 1000000]
      = Ok [Scenario.stray; Scenario.late 1000000]
    ∧ indexed (Scenario.batch 1000001) (Scenario.late 1000000) = true
    ∧ indexed (Scenario.batch 1000001) Scenario.stray = false.
Proof.
  intros reaction_ids rs. split; [|split].
  - intros x. apply ORDFacts.rank_of_cases.
  - apply ORDFacts.restore_order_unindexed.
  - apply (ORDFacts.restore_order_overtaken 1000000). lia.
Qed.

(** ** The loop over the datasets *)

Section Datasets.
Context (float_repr : float → string).

Local Abbreviation dataset_result := (dataset_result float_repr).
Local Abbreviation worker_result := (worker_result float_repr).

Lemma scrape_datasets_fmap job dataset_ids acc :
  scrape_datasets job dataset_ids acc
  = acc ++ map (λ id, match job id with
                      | Ok result => result
                      | Raise e => failed_dataset id e
                      end) dataset_ids.
Proof.
  revert acc. induction dataset_ids as [|id l IH]; intros acc; simpl.
  - by rewrite app_nil_r.
  - by rewrite IH, <- app_assoc.
Qed.

(** The two counts of an entry of [all_results], 0 where the key is absent. *)
Lemma dataset_result_counts r :
  dataset_result r →
  ∃ total successful,
    get r "total_reactions" (PInt 0) = Ok (PInt total)
    ∧ get r "successful_scrapes" (PInt 0) = Ok (PInt successful)
    ∧ 0 ≤ successful ≤ total.
Proof.
  intros [id rids rs Hrs|id|id e].
  - exists (Z.of_nat (length rs)), (Z.of_nat (length (List.filter succeeded rs))).
    repeat split; [lia|]. apply inj_le, List.filter_length_le.
  - exists 0, 0. repeat split; lia.
  - exists 0, 0. repeat split; lia.
Qed.

Lemma sum_field_counts all_results a b :
  Forall dataset_result all_results → 0 ≤ b ≤ a →
  ∃ total successful,
    sum_field "total_reactions" all_results (PInt a) = Ok (PInt total)
    ∧ sum_field "successful_scrapes" all_results (PInt b) = Ok (PInt successful)
    ∧ 0 ≤ successful ≤ total.
Proof.
  intros Hall. revert a b. induction Hall as [|r rs Hr _ IH]; intros a b Hab.
  - by exists a, b.
  - destruct (dataset_result_counts r Hr) as (t & n & Ht & Hn & Hle).
    simpl. rewrite Ht, Hn. simpl. apply IH. lia.
Qed.

(** X10. [scrape_all_datasets_sequential] isolates the datasets from one
    another: when the dataset ids were discovered, nothing a dataset does
    makes it raise. It builds one entry per dataset id within the limit, in
    discovery order and naming its dataset, the call's own result where the
    call returned and an entry with the dataset id and an [error] text
    where it raised; it returns these entries when writing them to the
    file returns, and raises what the write raises otherwise. A limit of 0
    or [None] keeps every dataset. The two totals it prints are integers
    with the number of successes between 0 and the number of reactions.
    When discovery itself raises, so does the function. *)
Theorem datasets_scraped_in_isolation :
  ∀ (dataset_ids : list string) (max_datasets : option Z) (job : string → res pyval)
    (save : list pyval → res unit),
    (∀ id r, job id = Ok r → dataset_result r ∧ getitem r "dataset_id" = Ok (PStr id)) →
    (∃ all_results,
       scrape_all_datasets_sequential (Ok dataset_ids) max_datasets job save
       = match save all_results with
         | Ok _ => Ok all_results
         | Raise e => Raise e
         end
       ∧ Forall dataset_result all_results
       ∧ Forall2 (λ id r, getitem r "dataset_id" = Ok (PStr id)
                          ∧ (∀ x, job id = Ok x → r = x)
                          ∧ (∀ e, job id = Raise e →
                                  ∃ text, r = PDict [ ("dataset_id", PStr id);
                                                      ("error", PStr text) ]))
           (limit_datasets max_datasets dataset_ids) all_results
       ∧ ∃ total successful,
           sum_field "total_reactions" all_results (PInt 0) = Ok (PInt total)
           ∧ sum_field "successful_scrapes" all_results (PInt 0) = Ok (PInt successful)
           ∧ 0 ≤ successful ≤ total)
    ∧ (∀ m, max_datasets = Some m → 0 < m →
            limit_datasets max_datasets dataset_ids = take (Z.to_nat m) dataset_ids)
    ∧ (max_datasets = None ∨ max_datasets = Some 0 →
       limit_datasets max_datasets dataset_ids = dataset_ids)
    ∧ (∀ e, scrape_all_datasets_sequential (Raise e) max_datasets job save = Raise e).
Proof.
  intros dataset_ids max_datasets job save Hjob. split; [|split; [|split]].
  - unfold scrape_all_datasets_sequential. simpl.
    rewrite scrape_datasets_fmap. simpl.
    set (ids := limit_datasets max_datasets dataset_ids).
    set (all_results := map _ ids).
    assert (Forall2 (λ id r, getitem r "dataset_id" = Ok (PStr id)
                             ∧ (∀ x, job id = Ok x → r = x)
                             ∧ (∀ e, job id = Raise e →
                                     ∃ text, r = PDict [ ("dataset_id", PStr id);
                                                         ("error", PStr text) ])
                             ∧ dataset_result r) ids all_results) as Hall.
    { unfold all_results. clear -Hjob.
      induction ids as [|id l IH]; simpl; constructor; [|done].
      destruct (job id) as [r|e] eqn:E.
      - destruct (Hjob id r E) as [Hr Hid].
        repeat split; [done|by intros x [= <-]|done|done].
      - repeat split; [done|intros e' [= <-]; by eexists|apply dataset_failed]. }
    assert (Forall dataset_result all_results) as Hres.
    { clear -Hall. induction Hall as [|???? (_ & _ & _ & H)]; by constructor. }
    destruct (sum_field_counts all_results 0 0 Hres) as (t & n & Ht & Hn & Hle); [lia|].
    exists all_results. rewrite Ht, Hn. simpl.
    split; [by destruct (save all_results)|]. split; [done|]. split; [|by exists t, n].
    clear -Hall. induction Hall as [|???? (? & ? & ? & _)]; by constructor.
  - intros m -> Hm. unfold limit_datasets, slice_to.
    destruct (Z.eqb_spec m 0); [lia|]. by destruct (Z.ltb_spec m 0); [lia|].
  - by intros [->| ->].
  - done.
Qed.

(** ** The export *)

Lemma exported_reactions_cons r rest :
  exported_reactions (r :: rest)
  = (success ← get r "success" PNone;
     keep ← (if truthy success then has r "formatted_data" else Ok false);
     if (keep : bool) then
       formatted ← getitem r "formatted_data";
       others ← exported_reactions rest;
       Ok (formatted :: others)
     else exported_reactions rest).
Proof. reflexivity. Qed.

Lemma exported_reactions_workers rids rs :
  Forall2 worker_result rids rs →
  ∃ l, exported_reactions rs = Ok l
       ∧ length l = length (List.filter succeeded rs)
       ∧ Forall (λ f, ∃ data, wf_payload data = true ∧ f = normal_record float_repr data) l.
Proof.
  induction 1 as [|rid r rids rs Hr _ (l & IH & Hlen & Hl)]; [by exists []|].
  rewrite exported_reactions_cons.
  destruct Hr as [data Hwf| |e].
  - exists (normal_record float_repr data :: l).
    change (get (formatted_result float_repr rid data) "success" PNone)
      with (Ok (PBool true) : res pyval).
    change (List.filter succeeded (formatted_result float_repr rid data :: rs))
      with (formatted_result float_repr rid data :: List.filter succeeded rs).
    simpl mbind.
    change (has (formatted_result float_repr rid data) "formatted_data")
      with (Ok true : res bool).
    change (getitem (formatted_result float_repr rid data) "formatted_data")
      with (Ok (normal_record float_repr data) : res pyval).
    simpl. rewrite IH. simpl. split; [done|]. split; [by rewrite Hlen|].
    constructor; [by exists data|done].
  - exists l. simpl. by rewrite IH.
  - exists l. simpl. by rewrite IH.
Qed.

(** What the export loop assigns for an entry of [all_results] that holds
    the two counts. *)
Lemma export_entry_result r :
  dataset_result r →
  if is_ok (getitem r "total_reactions")
  then ∃ id total successful exported,
         export_entry r
         = Ok (PStr id, PDict [ ("dataset_id", PStr id);
                                ("total_reactions", PInt total);
                                ("successful_scrapes", PInt successful);
                                ("reactions", PList exported) ])
         ∧ getitem r "dataset_id" = Ok (PStr id)
         ∧ getitem r "total_reactions" = Ok (PInt total)
         ∧ successful = Z.of_nat (length exported)
         ∧ Forall (λ f, ∃ data, wf_payload data = true
                                ∧ f = normal_record float_repr data) exported
  else export_entry r = Raise (KeyError "total_reactions").
Proof.
  intros [id rids rs Hrs|id|id e]; [| |done].
  - destruct (exported_reactions_workers rids rs Hrs) as (l & Hl & Hlen & Hall).
    change (is_ok (getitem (summary id rs (Z.of_nat (length (List.filter succeeded rs))))
                     "total_reactions")) with true.
    exists id, (Z.of_nat (length rs)), (Z.of_nat (length (List.filter succeeded rs))), l.
    unfold export_entry, summary. simpl. rewrite Hl. simpl.
    repeat split; [by rewrite Hlen|done].
  - exists id, 0, 0, []. by repeat split.
Qed.

Lemma export_entries_results results acc :
  Forall dataset_result results →
  if existsb (λ r, negb (is_ok (getitem r "total_reactions"))) results
  then export_entries results acc = Raise (KeyError "total_reactions")
  else ∃ entries,
         export_entries results acc = Ok (acc ++ entries)
         ∧ Forall2 (λ r kv, export_entry r = Ok kv) results entries.
Proof.
  intros Hall. revert acc. induction Hall as [|r rs Hr _ IH]; intros acc; simpl.
  - exists []. by rewrite app_nil_r.
  - pose proof (export_entry_result r Hr) as He.
    destruct (is_ok (getitem r "total_reactions")); simpl.
    + destruct He as (id & t & n & l & He & _). rewrite He. simpl.
      specialize (IH (acc ++ [(PStr id,
                              PDict [ ("dataset_id", PStr id);
                                      ("total_reactions", PInt t);
                                      ("successful_scrapes", PInt n);
                                      ("reactions", PList l) ])])).
      destruct (existsb _ rs); [done|].
      destruct IH as (entries & -> & Hentries).
      eexists (_ :: entries). rewrite <- app_assoc. split; [done|].
      constructor; [exact He|done].
    + by rewrite He.
Qed.

(** X11. The export at the end of [main] needs every dataset to have been
    scraped. If some entry of the results is the [error] entry of a dataset
    that raised, the export loop raises [KeyError('total_reactions')] and
    nothing is exported, and so [main] raises whenever one of the datasets
    it scrapes raises. Otherwise the loop assigns one record per dataset,
    in order, under the dataset's id; its [reactions] are the normalised
    records of the successful results and there are exactly
    [successful_scrapes] of them. *)
Theorem export_needs_every_dataset :
  ∀ (results : list pyval),
    Forall dataset_result results →
    (if existsb (λ r, negb (is_ok (getitem r "total_reactions"))) results
     then export_entries results [] = Raise (KeyError "total_reactions")
     else ∃ entries,
            export_entries results [] = Ok entries
            ∧ Forall2 (λ r kv,
                 ∃ id total successful exported,
                   kv = (PStr id, PDict [ ("dataset_id", PStr id);
                                          ("total_reactions", PInt total);
                                          ("successful_scrapes", PInt successful);
                                          ("reactions", PList exported) ])
                   ∧ getitem r "dataset_id" = Ok (PStr id)
                   ∧ getitem r "total_reactions" = Ok (PInt total)
                   ∧ successful = Z.of_nat (length exported)
                   ∧ Forall (λ f, ∃ data, wf_payload data = true
                                          ∧ f = normal_record float_repr data) exported)
                 results entries)
    ∧ (∀ id e, dataset_result (failed_dataset id e)
               ∧ is_ok (getitem (failed_dataset id e) "total_reactions") = false)
    ∧ (∀ dataset_ids job,
         (∀ id r, job id = Ok r → dataset_result r ∧ getitem r "dataset_id" = Ok (PStr id)) →
         (∃ id, id ∈ limit_datasets MAX_DATASETS dataset_ids ∧ is_ok (job id) = false) →
         ∀ save export, is_ok (main (Ok dataset_ids) job save export) = false).
Proof.
  intros results Hall. split; [|split].
  - pose proof (export_entries_results results [] Hall) as He.
    destruct (existsb _ results); [done|].
    destruct He as (entries & -> & Hentries). exists entries. split; [done|].
    clear -Hentries Hall. induction Hentries as [|r kv rs kvs Hr _ IH]; constructor.
    + apply Forall_cons in Hall as [Hd _].
      pose proof (export_entry_result r Hd) as He.
      destruct (is_ok (getitem r "total_reactions")); [|congruence].
      destruct He as (id & t & n & l & He & Hrest). exists id, t, n, l.
      split; [congruence|done].
    + apply IH. by apply Forall_cons in Hall as [_ ?].
  - intros id e. split; [apply dataset_failed|done].
  - intros dataset_ids job Hjob (id & Hin & Hfail) save export. unfold main.
    unfold scrape_all_datasets_sequential. cbv beta.
    change (Ok dataset_ids ≫= ?f) with (f dataset_ids). cbv beta.
    remember (limit_datasets MAX_DATASETS dataset_ids) as ids eqn:Eids. clear Eids.
    rewrite scrape_datasets_fmap. simpl app.
    set (all_results := map _ ids).
    assert (Forall dataset_result all_results) as Hres.
    { unfold all_results. clear -Hjob.
      induction ids as [|i l IH]; simpl; constructor; [|done].
      destruct (job i) as [r|e] eqn:E; [by apply (Hjob i)|apply dataset_failed]. }
    assert (existsb (λ r, negb (is_ok (getitem r "total_reactions"))) all_results = true)
      as Hex.
    { apply existsb_exists. destruct (job id) as [|e] eqn:E; [done|].
      exists (failed_dataset id e). split; [|done].
      apply in_map_iff. exists id. rewrite E. split; [done|].
      by apply list_elem_of_In. }
    destruct (sum_field_counts all_results 0 0 Hres) as (t & n & -> & -> & _); [lia|].
    simpl. destruct (save all_results); simpl; [|done].
    destruct (display_results_as_table all_results []); simpl; [|done].
    pose proof (export_entries_results all_results [] Hres) as He.
    rewrite Hex in He. by rewrite He.
Qed.

End Datasets.

(** Two datasets, the second of which raises; the file is written. *)
Lemma datasets_scraped_in_isolation_witness :
  ∃ all_results,
    scrape_all_datasets_sequential (Ok ["ord_dataset-a"; "ord_dataset-b"]) (Some 2)
      Scenario.second_fails (λ _, Ok tt) = Ok all_results
    ∧ Forall2 (λ id r, getitem r "dataset_id" = Ok (PStr id)
                       ∧ (∀ x, Scenario.second_fails id = Ok x → r = x)
                       ∧ (∀ e, Scenario.second_fails id = Raise e →
                               ∃ text, r = PDict [ ("dataset_id", PStr id);
                                                   ("error", PStr text) ]))
        (limit_datasets (Some 2) ["ord_dataset-a"; "ord_dataset-b"]) all_results.
Proof.
  destruct (datasets_scraped_in_isolation Scenario.plain_repr
              ["ord_dataset-a"; "ord_dataset-b"] (Some 2) Scenario.second_fails
              (λ _, Ok tt)) as [(all_results & Hrun & _ & Hall & _) _].
  - intros id r. unfold Scenario.second_fails.
    destruct (String.eqb id "ord_dataset-b"); [done|].
    intros [= <-]. split; [apply dataset_empty|reflexivity].
  - exists all_results. split; [exact Hrun|exact Hall].
Defined.

(** A result list with one failed dataset is not exported. *)
Lemma export_needs_every_dataset_witness :
  export_entries [no_reactions "ord_dataset-a";
                  failed_dataset "ord_dataset-b" (Exception "boom")] []
  = Raise (KeyError "total_reactions").
Proof.
  destruct (export_needs_every_dataset Scenario.plain_repr
              [no_reactions "ord_dataset-a";
               failed_dataset "ord_dataset-b" (Exception "boom")]) as [H _].
  - repeat constructor.
  - exact H.
Defined.

(** ** The table *)

Section Table.
Context (float_repr : float → string).

Local Abbreviation normal_component := (normal_component float_repr).
Local Abbreviation normal_input := (normal_input float_repr).
Local Abbreviation normal_record := (normal_record float_repr).
Local Abbreviation component_row := (component_row float_repr).
Local Abbreviation input_table := (input_table float_repr).
Local Abbreviation table_of := (table_of float_repr).

Lemma substring_length (n : nat) (s : string) :
  (String.length (String.substring 0 n s) ≤ n)%nat.
Proof.
  revert s. induction n as [|n IH]; intros [|c s]; simpl; try lia.
  specialize (IH s). lia.
Qed.

Lemma cell_text_short (s : string) : (String.length (cell_text s) ≤ 63)%nat.
Proof.
  unfold cell_text. destruct (Z.ltb_spec 60 (Z.of_nat (String.length s))); [|lia].
  rewrite GroupFacts.length_append. pose proof (substring_length 60 s). simpl. lia.
Qed.

Lemma cell_text_whole (s : string) :
  (String.length s ≤ 60)%nat → cell_text s = s.
Proof.
  intros Hs. unfold cell_text.
  by destruct (Z.ltb_spec 60 (Z.of_nat (String.length s))); [lia|].
Qed.

Lemma smiles_cell_text (s : string) : smiles_cell (PStr s) = Ok (PStr (cell_text s)).
Proof. unfold smiles_cell, cell_text. simpl. by destruct (Z.ltb _ _). Qed.

Lemma component_rows_cons tab_name comp rest table_data :
  component_rows tab_name (comp :: rest) table_data
  = (identifiers ← getitem comp "identifiers";
     if truthy identifiers then
       first ← index identifiers 0;
       smiles ← getitem first "value";
       cell ← smiles_cell smiles;
       role ← getitem comp "reaction_role";
       component_rows tab_name rest
         (table_data ++ [[tab_name; PStr "INPUT"; cell; role; PStr ""]])
     else component_rows tab_name rest table_data).
Proof. reflexivity. Qed.

Lemma product_rows_cons product rest table_data :
  product_rows (product :: rest) table_data
  = (identifiers ← getitem product "identifiers";
     if truthy identifiers then
       first ← index identifiers 0;
       smiles ← getitem first "value";
       cell ← smiles_cell smiles;
       desired ← get product "is_desired_product" PNone;
       product_rows rest
         (table_data ++ [[PStr "Products"; PStr "OUTPUT"; cell; PStr "PRODUCT";
                          PStr (if truthy desired then check_mark else "")]])
     else product_rows rest table_data).
Proof. reflexivity. Qed.

Lemma component_rows_normal tab_name comps table_data :
  forallb shows_text comps = true →
  component_rows tab_name (map normal_component comps) table_data
  = Ok (table_data ++ flat_map (component_row tab_name) comps).
Proof.
  revert table_data. induction comps as [|c l IH]; intros table_data Hc.
  - simpl. by rewrite app_nil_r.
  - simpl in Hc. apply andb_true_iff in Hc as [Hc Hl].
    change (map normal_component (c :: l))
      with (normal_component c :: map normal_component l).
    rewrite component_rows_cons.
    change (getitem (normal_component c) "identifiers")
      with (Ok (PList (kept_identifiers c)) : res pyval).
    change (getitem (normal_component c) "reaction_role")
      with (Ok (PStr (role_name float_repr (lookup_or c "reactionRole" PNone))) : res pyval).
    change (flat_map (component_row tab_name) (c :: l))
      with (component_row tab_name c ++ flat_map (component_row tab_name) l).
    unfold ORDMain.component_row, shows_text, first_smiles, kept_identifiers in *.
    destruct (List.filter is_smiles (identifiers_of c)) as [|i others]; simpl.
    + by apply IH.
    + simpl in Hc. destruct (lookup_or i "value" PNone) as [| | | |s| |]; try done.
      rewrite smiles_cell_text. simpl. rewrite IH by done. by rewrite <- app_assoc.
Qed.

Lemma product_rows_normal products table_data :
  forallb shows_text products = true →
  product_rows (map normal_product products) table_data
  = Ok (table_data ++ flat_map product_row products).
Proof.
  revert table_data. induction products as [|c l IH]; intros table_data Hc.
  - simpl. by rewrite app_nil_r.
  - simpl in Hc. apply andb_true_iff in Hc as [Hc Hl].
    change (map normal_product (c :: l)) with (normal_product c :: map normal_product l).
    rewrite product_rows_cons.
    change (getitem (normal_product c) "identifiers")
      with (Ok (PList (kept_identifiers c)) : res pyval).
    change (get (normal_product c) "is_desired_product" PNone)
      with (Ok (lookup_or c "isDesiredProduct" (PBool false)) : res pyval).
    change (flat_map product_row (c :: l)) with (product_row c ++ flat_map product_row l).
    unfold product_row, shows_text, first_smiles, kept_identifiers in *.
    destruct (List.filter is_smiles (identifiers_of c)) as [|i others]; simpl.
    + by apply IH.
    + simpl in Hc. destruct (lookup_or i "value" PNone) as [| | | |s| |]; try done.
      rewrite smiles_cell_text. simpl. rewrite IH by done. by rewrite <- app_assoc.
Qed.

Lemma input_rows_cons input_entry rest table_data :
  input_rows (input_entry :: rest) table_data
  = (tab_name ← index input_entry 0;
     input_data ← index input_entry 1;
     cl ← get input_data "components" (PList []);
     components ← iter cl;
     table_data' ← component_rows tab_name components table_data;
     input_rows rest table_data').
Proof. reflexivity. Qed.

Lemma input_rows_normal inputs table_data :
  forallb wf_input inputs = true →
  forallb (λ input_entry, forallb shows_text (components_of input_entry)) inputs = true →
  input_rows (map normal_input inputs) table_data
  = Ok (table_data ++ flat_map input_table inputs).
Proof.
  revert table_data. induction inputs as [|e l IH]; intros table_data Hwf Ht.
  - simpl. by rewrite app_nil_r.
  - simpl in Hwf, Ht. apply andb_true_iff in Hwf as [He Hwf].
    apply andb_true_iff in Ht as [Hte Ht].
    change (map normal_input (e :: l)) with (normal_input e :: map normal_input l).
    change (flat_map input_table (e :: l)) with (input_table e ++ flat_map input_table l).
    rewrite input_rows_cons.
    unfold ORD.normal_input, ORDMain.input_table, components_of, wf_input in *.
    destruct (index e 0) as [tab_name|]; [|done].
    destruct (index e 1) as [input_data|]; [|done]. simpl.
    rewrite component_rows_normal by done. simpl.
    rewrite IH by done. by rewrite <- app_assoc.
Qed.

(** X21. The table printed for a reaction shows, per input component and
    per product, the first SMILES identifier only: for a payload the
    normaliser walks and whose first SMILES values are ASCII strings,
    [reaction_table] returns one row per component or product that has a
    SMILES identifier, in payload order, and none for the others. An ASCII
    SMILES of at most 60 characters is shown whole, a longer one as its
    first 60 characters followed by ["..."], so no cell exceeds 63
    characters. A first SMILES identifier without a value makes the row
    loop raise [TypeError]. *)
Theorem table_shows_first_smiles :
  ∀ (data : pyval),
    (wf_payload data = true → texts data = true →
     reaction_table (normal_record data) = Ok (table_of data))
    ∧ (∀ s, is_ascii s = true →
            smiles_cell (PStr s) = Ok (PStr (cell_text s))
            ∧ (String.length (cell_text s) ≤ 63)%nat
            ∧ ((String.length s ≤ 60)%nat → cell_text s = s)
            ∧ ((60 < String.length s)%nat →
               cell_text s = String.substring 0 60 s +:+ "..."))
    ∧ (∀ tab_name c rest table_data i,
         first_smiles c = Some i → lookup_or i "value" PNone = PNone →
         component_rows tab_name (normal_component c :: rest) table_data
         = Raise TypeError)
    ∧ (∀ tab_name c rest table_data,
         first_smiles c = None →
         component_rows tab_name (normal_component c :: rest) table_data
         = component_rows tab_name rest table_data).
Proof.
  intros data. split; [|split; [|split]].
  - intros Hwf Ht. unfold wf_payload in Hwf.
    apply andb_true_iff in Hwf as [[Hd Hi]%andb_true_iff Ho].
    unfold texts in Ht. apply andb_true_iff in Ht as [Hti Hto].
    unfold reaction_table, ORD.normal_record, ORDMain.table_of. simpl.
    rewrite input_rows_normal; [|by apply NormaliserFacts.list_of_items|done].
    simpl. unfold products_of in *.
    assert (∀ os, flat_map (λ o, map normal_product
                                   (elements (lookup_or o "productsList" (PList [])))) os
                  = map normal_product
                      (flat_map (λ o, elements (lookup_or o "productsList" (PList []))) os))
      as ->.
    { induction os as [|o os IH]; simpl; [done|]. by rewrite IH, map_app. }
    by rewrite product_rows_normal.
  - intros s _. split; [apply smiles_cell_text|]. split; [apply cell_text_short|].
    split; [apply cell_text_whole|].
    intros Hs. unfold cell_text.
    by destruct (Z.ltb_spec 60 (Z.of_nat (String.length s))); [|lia].
  - intros tab_name c rest table_data i Hi Hv. rewrite component_rows_cons.
    change (getitem (normal_component c) "identifiers")
      with (Ok (PList (kept_identifiers c)) : res pyval).
    unfold first_smiles, kept_identifiers in *.
    destruct (List.filter is_smiles (identifiers_of c)) as [|i' others]; [done|].
    injection Hi as ->. simpl. by rewrite Hv.
  - intros tab_name c rest table_data Hi. rewrite component_rows_cons.
    change (getitem (normal_component c) "identifiers")
      with (Ok (PList (kept_identifiers c)) : res pyval).
    unfold first_smiles, kept_identifiers in *.
    by destruct (List.filter is_smiles (identifiers_of c)) as [|i' others].
Qed.

End Table.

(** The example payload: the reactant shows its SMILES, the solvent, known
    by name only, has no row. *)
Lemma table_shows_first_smiles_witness :
  reaction_table (normal_record Scenario.plain_repr Scenario.reaction)
  = Ok [ [PStr "m1"; PStr "INPUT"; PStr "O"; PStr "REACTANT"; PStr ""];
         [PStr "Products"; PStr "OUTPUT"; PStr "CCO"; PStr "PRODUCT"; PStr ""] ].
Proof.
  destruct (table_shows_first_smiles Scenario.plain_repr Scenario.reaction) as [H _].
  apply H; reflexivity.
Defined.

End ORDBehaviour.

(* ===================================================================== *)
(** * Further properties of [CRD.py] *)
(* ===================================================================== *)
Module CRDBehaviour.
Import Py Web PyText CRD TextFacts GroupFacts.

(** ** The parsed payload *)

Lemma lower_char_idempotent c : lower_char (lower_char c) = lower_char c.
Proof. by destruct c as [[] [] [] [] [] [] [] []]. Qed.

Lemma lower_idempotent s : lower (lower s) = lower s.
Proof.
  induction s as [|c s IH]; simpl; [done|]. by rewrite lower_char_idempotent, IH.
Qed.

Lemma molecule_entry_cases m :
  match get_text m "role" with
  | PStr role =>
      molecule_entry m
      = Ok (PDict [ ("name", get_text m "name"); ("smiles", get_text m "smiles");
                    ("role", PStr (lower role)); ("inchiKey", get_text m "inchiKey");
                    ("ratio", get_text m "ratio"); ("notes", get_text m "notes") ])
  | _ => molecule_entry m = Raise AttributeError
  end.
Proof.
  unfold molecule_entry, get_text.
  destruct (find_child m "role") as [node|]; [|done].
  by destruct (text_of node).
Qed.

Lemma molecule_entries_cases molecules :
  if forallb (λ m, is_str (get_text m "role")) molecules
  then ∃ entries,
         molecule_entries molecules = Ok entries
         ∧ Forall2 (λ m e, molecule_entry m = Ok e
                           ∧ lookup_or e "role" (PStr "unknown") = PStr (role_of e))
             molecules entries
  else molecule_entries molecules = Raise AttributeError.
Proof.
  induction molecules as [|m ms IH]; simpl; [by exists []|].
  pose proof (molecule_entry_cases m) as Hm.
  destruct (get_text m "role") as [| | | |role| |] eqn:Er; simpl; try (by rewrite Hm).
  rewrite Hm. simpl.
  destruct (forallb _ ms).
  - destruct IH as (entries & -> & Hall). simpl. eexists. split; [done|].
    constructor; [|done]. split; [done|].
    unfold role_of. simpl. by rewrite lower_idempotent.
  - by rewrite IH.
Qed.

(** X12. [parse_xml_data] returns [None] in exactly two cases: the text is
    not XML, or some [molecule] under [participants] has a [role] element
    without text. Otherwise it returns a dict with the reaction SMILES and
    the component list; when the role texts are ASCII, the list has one
    component per [molecule] child, in document order, each with the six
    fields; a missing field element gives the empty string, and the stored
    role is already lower-case, so it is the key the component is grouped
    under. Without a [participants] element the component list is empty. *)
Theorem parse_xml_data_cases :
  ∀ (fromstring : string → res xml) (xml_text : string),
    match fromstring xml_text with
    | Raise _ => parse_xml_data fromstring xml_text = PNone
    | Ok root =>
        let molecules :=
          match find_below root "participants" with
          | Some participants_node => findall participants_node "molecule"
          | None => []
          end in
        if forallb (λ m, is_str (get_text m "role")) molecules
        then ∃ entries,
               parse_xml_data fromstring xml_text
               = PDict [ ("chemicals", PList entries);
                         ("raw_smiles",
                          match find_below root "reactionSmiles" with
                          | Some node => of_text (text_of node)
                          | None => PStr ""
                          end) ]
               ∧ (forallb ascii_role_text molecules = true →
                  Forall2 (λ m e, molecule_entry m = Ok e
                                  ∧ lookup_or e "role" (PStr "unknown") = PStr (role_of e))
                    molecules entries)
        else parse_xml_data fromstring xml_text = PNone
    end.
Proof.
  intros fromstring xml_text. unfold parse_xml_data.
  destruct (fromstring xml_text) as [root|e]; simpl; [|done].
  destruct (find_below root "participants") as [node|]; simpl.
  - pose proof (molecule_entries_cases (findall node "molecule")) as Hm.
    destruct (forallb _ _).
    + destruct Hm as (entries & -> & Hall). simpl. exists entries.
      split; [done|]. by intros _.
    + by rewrite Hm.
  - exists []. split; [done|]. intros _. constructor.
Qed.

(** ** The groups *)

Lemma assoc_set_concat (r : string) (items : list pyval) (c : pyval)
    (g : list (string * list pyval)) :
  assoc r g = Some items →
  concat (map snd (assoc_set r (items ++ [c]) g)) ≡ₚ concat (map snd g) ++ [c].
Proof.
  induction g as [|[r' items'] g IH]; simpl; [done|].
  destruct (String.eqb_spec r r') as [->|Hne].
  - intros [= ->]. simpl. rewrite <- !app_assoc. apply Permutation_app_head.
    apply Permutation_app_comm.
  - intros Hg. simpl. rewrite <- app_assoc. apply Permutation_app_head. by apply IH.
Qed.

Lemma group_add_concat r c g :
  concat (map snd (group_add r c g)) ≡ₚ concat (map snd g) ++ [c].
Proof.
  unfold group_add. destruct (assoc r g) as [items|] eqn:E.
  - by apply assoc_set_concat.
  - rewrite map_app, concat_app. simpl. by rewrite ?app_nil_r.
Qed.

Lemma grouping_concat chemicals g :
  concat (map snd (grouping chemicals g)) ≡ₚ concat (map snd g) ++ chemicals.
Proof.
  unfold grouping. revert g. induction chemicals as [|c l IH]; intros g; simpl.
  - by rewrite app_nil_r.
  - rewrite IH, group_add_concat, <- app_assoc. done.
Qed.

(** X13. The grouping loop of [format_reaction_data] partitions the
    components: on components that are dicts with an ASCII string role it
    does not raise, no role is listed twice, the group of a role is never
    empty and holds exactly the components of that lower-cased role in
    encounter order, every component's role has a group, and the groups
    together are a rearrangement of the component list. *)
Theorem roles_partition_components :
  ∀ (chemicals : list pyval),
    forallb wf_chemical chemicals = true →
    forallb ascii_role chemicals = true →
    ∃ grouped_data,
      group_by_role chemicals [] = Ok grouped_data
      ∧ NoDup (map fst grouped_data)
      ∧ Forall (λ ri, snd ri ≠ [] ∧ snd ri = members (fst ri) chemicals) grouped_data
      ∧ (∀ c, c ∈ chemicals → role_of c ∈ map fst grouped_data)
      ∧ concat (map snd grouped_data) ≡ₚ chemicals.
Proof.
  intros chemicals Hwf _. exists (grouping chemicals []).
  split; [by apply group_by_role_ok|]. split; [apply grouping_keys; constructor|].
  split; [|split].
  - apply Forall_forall. intros [r group] Hin. simpl.
    destruct (grouping_elem_of _ _ _ Hin) as (-> & c & Hc & Hr). split; [|done].
    intros Hnil. assert (c ∈ members r chemicals) as Hm.
    { unfold members. apply list_elem_of_In, List.filter_In. split.
      - by apply list_elem_of_In.
      - subst r. apply String.eqb_refl. }
    rewrite Hnil in Hm. by apply elem_of_nil in Hm.
  - intros c Hc. apply list_elem_of_fmap.
    exists (role_of c, members (role_of c) chemicals). split; [done|].
    by apply grouping_member.
  - by rewrite grouping_concat.
Qed.

Lemma roles_partition_components_witness :
  ∃ grouped_data,
    group_by_role [Scenario.chem "X" "reactant"; Scenario.chem "Y" "REACTANT";
                   Scenario.chem "Z" "product"] []
    = Ok grouped_data
    ∧ NoDup (map fst grouped_data)
    ∧ Forall (λ ri, snd ri ≠ []
                    ∧ snd ri = members (fst ri)
                                 [Scenario.chem "X" "reactant"; Scenario.chem "Y" "REACTANT";
                                  Scenario.chem "Z" "product"]) grouped_data
    ∧ (∀ c, c ∈ [Scenario.chem "X" "reactant"; Scenario.chem "Y" "REACTANT";
                 Scenario.chem "Z" "product"] → role_of c ∈ map fst grouped_data)
    ∧ concat (map snd grouped_data)
      ≡ₚ [Scenario.chem "X" "reactant"; Scenario.chem "Y" "REACTANT";
          Scenario.chem "Z" "product"].
Proof.
  apply (roles_partition_components
           [Scenario.chem "X" "reactant"; Scenario.chem "Y" "REACTANT";
            Scenario.chem "Z" "product"]).
  - reflexivity.
  - reflexivity.
Defined.

(** ** The role keys *)

(** X22. CRD's [format_reaction_data] groups the components by lower-cased
    role and, for ASCII roles of which none equals another role followed by
    ["_details"], stores under each role the names of its components that
    are non-empty, in encounter order and joined with [" + "], and under
    the role followed by ["_details"] the full list of its components. The
    components [parse_xml_data] returns meet the shape this needs. The
    components X (reactant), Y (REACTANT) and Z (product) give
    [reactant: "X + Y"] and [product: "Z"]. *)
Theorem role_grouping :
  ∀ (parsed_data metadata : pyval) (chemicals : list pyval),
    (getitem parsed_data "chemicals" = Ok (PList chemicals) →
     is_ok (getitem parsed_data "raw_smiles") = true →
     is_dict metadata = true →
     forallb CRD.wf_chemical chemicals = true →
     forallb CRD.ascii_role chemicals = true →
     (∀ c1 c2, c1 ∈ chemicals → c2 ∈ chemicals →
               CRD.role_of c1 ≠ CRD.role_of c2 +:+ "_details") →
     ∃ output,
       CRD.format_reaction_data parsed_data metadata = Ok (PDict output)
       ∧ ∀ c, c ∈ chemicals →
           assoc (CRD.role_of c) output
           = Some (PStr (join " + "
                           (CRD.names_of (CRD.members (CRD.role_of c) chemicals))))
           ∧ assoc (CRD.role_of c +:+ "_details") output
             = Some (PList (CRD.members (CRD.role_of c) chemicals)))
    ∧ (∀ fromstring xml_text,
         truthy (CRD.parse_xml_data fromstring xml_text) = true →
         ∃ parsed,
           getitem (CRD.parse_xml_data fromstring xml_text) "chemicals" = Ok (PList parsed)
           ∧ forallb CRD.wf_chemical parsed = true
           ∧ is_ok (getitem (CRD.parse_xml_data fromstring xml_text) "raw_smiles") = true)
    ∧ (∃ output,
         CRD.format_reaction_data Scenario.xyz Scenario.origin = Ok (PDict output)
         ∧ assoc "reactant" output = Some (PStr "X + Y")
         ∧ assoc "product" output = Some (PStr "Z")
         ∧ assoc "reactant_details" output
           = Some (PList [Scenario.chem "X" "reactant"; Scenario.chem "Y" "REACTANT"])
         ∧ assoc "product_details" output = Some (PList [Scenario.chem "Z" "product"])).
Proof.
  intros parsed_data metadata chemicals. split; [|split].
  - intros Hc Hs Hm Hwf _. by apply Properties.format_reaction_data_grouped.
  - apply Properties.parse_xml_data_wf.
  - eexists. split; [reflexivity|]. repeat split; reflexivity.
Qed.

Lemma role_grouping_witness :
  ∃ output,
    CRD.format_reaction_data Scenario.xyz Scenario.origin = Ok (PDict output)
    ∧ ∀ c, c ∈ [Scenario.chem "X" "reactant"; Scenario.chem "Y" "REACTANT";
                Scenario.chem "Z" "product"] →
        assoc (CRD.role_of c) output
        = Some (PStr (join " + "
                        (CRD.names_of
                           (CRD.members (CRD.role_of c)
                              [Scenario.chem "X" "reactant"; Scenario.chem "Y" "REACTANT";
                               Scenario.chem "Z" "product"]))))
        ∧ assoc (CRD.role_of c +:+ "_details") output
          = Some (PList (CRD.members (CRD.role_of c)
                           [Scenario.chem "X" "reactant"; Scenario.chem "Y" "REACTANT";
                            Scenario.chem "Z" "product"])).
Proof.
  destruct (role_grouping Scenario.xyz Scenario.origin
              [Scenario.chem "X" "reactant"; Scenario.chem "Y" "REACTANT";
               Scenario.chem "Z" "product"]) as (H & _).
  apply H; try reflexivity.
  intros c1 c2 H1 H2.
  apply list_elem_of_In in H1, H2. simpl in H1, H2.
  destruct H1 as [<-|[<-|[<-|[]]]]; destruct H2 as [<-|[<-|[<-|[]]]]; discriminate.
Defined.

(** ** The base fields *)

Lemma details_is_no_base_key (r : string) :
  r +:+ "_details" ≠ "Reaction_Data_Origin" ∧ r +:+ "_details" ≠ "details_url"
  ∧ r +:+ "_details" ≠ "smiles" ∧ r +:+ "_details" ≠ "all_chemicals_raw".
Proof.
  repeat split; intros H.
  all: repeat (destruct r as [|? r]; [rewrite append_nil_l in H; discriminate H|];
               rewrite append_cons in H;
               first [discriminate H|injection H as _ H]).
Qed.

Lemma base_fields_stored parsed_data metadata raw_smiles chemicals :
  getitem parsed_data "chemicals" = Ok (PList chemicals) →
  getitem parsed_data "raw_smiles" = Ok raw_smiles →
  is_dict metadata = true →
  forallb wf_chemical chemicals = true →
  (∀ c, c ∈ chemicals →
        role_of c ∉ ["Reaction_Data_Origin"; "details_url"; "smiles"; "all_chemicals_raw"]) →
  ∃ output,
    format_reaction_data parsed_data metadata = Ok (PDict output)
    ∧ assoc "Reaction_Data_Origin" output
      = Some (lookup_or metadata "Reaction_Data_Origin" PNone)
    ∧ assoc "details_url" output = Some (lookup_or metadata "details_url" PNone)
    ∧ assoc "smiles" output = Some raw_smiles
    ∧ assoc "all_chemicals_raw" output = Some (PList chemicals).
Proof.
  intros Hc Hs Hm Hwf Hfree.
  unfold format_reaction_data. rewrite Hc, Hs. simpl.
  rewrite !(NormaliserFacts.get_dict metadata _ _ Hm). simpl.
  rewrite (group_by_role_ok _ _ Hwf). simpl.
  rewrite write_groups_ok.
  2:{ apply Forall_forall. intros [r group] Hin. simpl.
      destruct (grouping_elem_of _ _ _ Hin) as (-> & _).
      apply forallb_forall. intros c [Hin' _]%List.filter_In.
      rewrite forallb_forall in Hwf. by apply Hwf. }
  simpl. eexists. split; [reflexivity|].
  assert (∀ k, k ∈ ["Reaction_Data_Origin"; "details_url"; "smiles"; "all_chemicals_raw"] →
               ∀ r, r ∈ map fst (grouping chemicals []) → k ≠ r ∧ k ≠ r +:+ "_details")
    as Hother.
  { intros k Hk r (rg & -> & Hrg)%list_elem_of_fmap. destruct rg as [r group].
    destruct (grouping_elem_of _ _ _ Hrg) as (_ & c & Hin & <-). simpl. split.
    - intros ->. by apply (Hfree c Hin).
    - intros ->. destruct (details_is_no_base_key (role_of c)) as (H1 & H2 & H3 & H4).
      do 4 (apply elem_of_cons in Hk as [Hk|Hk]; [done|]). by apply elem_of_nil in Hk. }
  repeat split; (rewrite written_other; [done|apply Hother; repeat constructor]).
Qed.


(** X14. [format_reaction_data] keeps the four base fields of a record
    unless a component's role is the name of one of them: for components
    whose lower-cased roles differ from [Reaction_Data_Origin],
    [details_url], [smiles] and [all_chemicals_raw], the record holds the
    two metadata values, the reaction SMILES and the full component list
    under these keys. No role followed by [_details] can hit them. *)
Theorem base_fields_kept :
  ∀ (parsed_data metadata raw_smiles : pyval) (chemicals : list pyval),
    getitem parsed_data "chemicals" = Ok (PList chemicals) →
    getitem parsed_data "raw_smiles" = Ok raw_smiles →
    is_dict metadata = true →
    forallb wf_chemical chemicals = true →
    (∀ c, c ∈ chemicals →
          role_of c ∉ ["Reaction_Data_Origin"; "details_url"; "smiles"; "all_chemicals_raw"]) →
    ∃ output,
      format_reaction_data parsed_data metadata = Ok (PDict output)
      ∧ assoc "Reaction_Data_Origin" output
        = Some (lookup_or metadata "Reaction_Data_Origin" PNone)
      ∧ assoc "details_url" output = Some (lookup_or metadata "details_url" PNone)
      ∧ assoc "smiles" output = Some raw_smiles
      ∧ assoc "all_chemicals_raw" output = Some (PList chemicals).
Proof. apply base_fields_stored. Qed.

Lemma base_fields_kept_witness :
  ∃ output,
    format_reaction_data Scenario.xyz Scenario.origin = Ok (PDict output)
    ∧ assoc "Reaction_Data_Origin" output
      = Some (lookup_or Scenario.origin "Reaction_Data_Origin" PNone)
    ∧ assoc "details_url" output = Some (lookup_or Scenario.origin "details_url" PNone)
    ∧ assoc "smiles" output = Some (PStr "")
    ∧ assoc "all_chemicals_raw" output
      = Some (PList [Scenario.chem "X" "reactant"; Scenario.chem "Y" "REACTANT";
                     Scenario.chem "Z" "product"]).
Proof.
  apply (base_fields_kept Scenario.xyz Scenario.origin (PStr "")
           [Scenario.chem "X" "reactant"; Scenario.chem "Y" "REACTANT";
            Scenario.chem "Z" "product"]); try reflexivity.
  intros c Hc.
  repeat (apply elem_of_cons in Hc as [->|Hc];
          [apply (bool_decide_unpack _); vm_compute; exact I|]).
  by apply elem_of_nil in Hc.
Defined.

(** ** What the normaliser raises *)

Lemma format_reaction_data_written parsed_data metadata raw_smiles chemicals :
  getitem parsed_data "chemicals" = Ok (PList chemicals) →
  getitem parsed_data "raw_smiles" = Ok raw_smiles →
  is_dict metadata = true →
  forallb wf_chemical chemicals = true →
  format_reaction_data parsed_data metadata
  = Ok (PDict (written (grouping chemicals [])
                 [ ("Reaction_Data_Origin", lookup_or metadata "Reaction_Data_Origin" PNone);
                   ("details_url", lookup_or metadata "details_url" PNone);
                   ("smiles", raw_smiles);
                   ("all_chemicals_raw", PList chemicals) ])).
Proof.
  intros Hc Hs Hm Hwf. unfold format_reaction_data. rewrite Hc, Hs. simpl.
  rewrite !(NormaliserFacts.get_dict metadata _ _ Hm). simpl.
  rewrite (group_by_role_ok _ _ Hwf). simpl.
  rewrite write_groups_ok; [done|].
  apply Forall_forall. intros [r group] Hin. simpl.
  destruct (grouping_elem_of _ _ _ Hin) as (-> & _).
  apply forallb_forall. intros c [Hin' _]%List.filter_In.
  rewrite forallb_forall in Hwf. by apply Hwf.
Qed.

Lemma group_by_role_cases chemicals g :
  if forallb (λ c, is_dict c && is_str (lookup_or c "role" (PStr "unknown"))) chemicals
  then is_ok (group_by_role chemicals g) = true
  else group_by_role chemicals g = Raise AttributeError.
Proof.
  revert g. induction chemicals as [|c l IH]; intros g; simpl; [done|].
  destruct c as [| | | | | |d]; simpl; try done.
  destruct (from_option id (PStr "unknown") (assoc "role" d)) as [| | | |role| |];
    simpl; try done.
  apply IH.
Qed.

(** X15. [format_reaction_data] raises [AttributeError] exactly when some
    component is not a dict or has a role that is not a string, for
    instance [None]: with a component list and a dict of metadata at hand,
    the grouping loop returns if and only if every component is a dict
    with a string role (or none), and no record is built otherwise. A
    payload without the [chemicals] key raises [KeyError]. *)
Theorem grouping_needs_string_roles :
  ∀ (parsed_data metadata : pyval) (chemicals : list pyval),
    (if forallb (λ c, is_dict c && is_str (lookup_or c "role" (PStr "unknown"))) chemicals
     then is_ok (group_by_role chemicals []) = true
     else group_by_role chemicals [] = Raise AttributeError)
    ∧ (getitem parsed_data "chemicals" = Ok (PList chemicals) →
       is_ok (getitem parsed_data "raw_smiles") = true →
       is_dict metadata = true →
       forallb (λ c, is_dict c && is_str (lookup_or c "role" (PStr "unknown"))) chemicals
       = false →
       format_reaction_data parsed_data metadata = Raise AttributeError)
    ∧ (∀ d, assoc "chemicals" d = None →
            format_reaction_data (PDict d) metadata = Raise (KeyError "chemicals")).
Proof.
  intros parsed_data metadata chemicals. split; [apply group_by_role_cases|split].
  - intros Hc Hs Hm Hbad. unfold format_reaction_data. rewrite Hc. simpl.
    destruct (getitem parsed_data "raw_smiles") as [raw|]; [|done]. simpl.
    rewrite !(NormaliserFacts.get_dict metadata _ _ Hm). simpl.
    pose proof (group_by_role_cases chemicals []) as Hg. rewrite Hbad in Hg.
    by rewrite Hg.
  - intros d Hd. unfold format_reaction_data. simpl. by rewrite Hd.
Qed.

(** ** Records and their sources *)

Section Site.
Context (fromstring : string → res xml)
        (anchors_of : string → list anchor)
        (urljoin : string → string → res string)
        (driver_get : string → res listing)
        (session_get : string → res (Z * string)).

Local Abbreviation parse_xml_data := (CRD.parse_xml_data fromstring).
Local Abbreviation normalise := (CRD.normalise fromstring).
Local Abbreviation extract_record := (CRD.extract_record fromstring anchors_of urljoin session_get).
Local Abbreviation extract_all := (CRD.extract_all fromstring anchors_of urljoin session_get).
Local Abbreviation crawl_page :=
  (CRD.crawl_page fromstring anchors_of urljoin driver_get session_get).
Local Abbreviation crawl_loop :=
  (CRD.crawl_loop fromstring anchors_of urljoin driver_get session_get).
Local Abbreviation process_reaction_data :=
  (CRD.process_reaction_data fromstring anchors_of urljoin driver_get session_get).

Lemma normalise_returns reaction_data_id d_url xml_text :
  ∃ r, normalise reaction_data_id d_url xml_text = Ok r.
Proof.
  unfold CRD.normalise.
  destruct (truthy (parse_xml_data xml_text)) eqn:Ht; [|by eauto].
  destruct (Properties.parse_xml_data_wf fromstring xml_text Ht)
    as (chemicals & Hc & Hwf & Hs).
  rewrite Hc. simpl. destruct chemicals as [|c l] eqn:E; [by eauto|]. simpl.
  destruct (getitem (parse_xml_data xml_text) "raw_smiles") as [raw|] eqn:Er; [|done].
  rewrite (format_reaction_data_written _ _ raw (c :: l)); [by eauto|done..].
Qed.

(** X16. Nothing the normaliser does is hidden by the [except] around the
    extraction of an item: on whatever text the XML request returns,
    parsing, the guard and [format_reaction_data] together never raise. An
    item raises only because an HTTP request raised, because the export
    anchor has no [href], or because [urljoin] refused the export link. A
    record is appended only when both the detail request and the XML
    request answered with status 200. The URL of the item itself is joined
    outside that [except]: when [urljoin] refuses it, the loop over the
    items is left with the records appended so far. *)
Theorem extraction_failures_are_transport :
  ∀ (reaction_data_id d_url xml_text : string),
    (∃ r, normalise reaction_data_id d_url xml_text = Ok r)
    ∧ (∀ e, extract_record reaction_data_id d_url = Raise e →
            e = KeyError "href"
            ∨ (∃ u, session_get u = Raise e)
            ∨ (∃ h, startswith h "http" = false ∧ urljoin d_url h = Raise e))
    ∧ (∀ entry, extract_record reaction_data_id d_url = Ok (Some entry) →
            ∃ body xml_btn h xml_href xml_body,
              session_get d_url = Ok (200, body)
              ∧ find_xml_btn anchors_of body = Some xml_btn
              ∧ a_href xml_btn = Some h
              ∧ absolute urljoin d_url h = Ok xml_href
              ∧ session_get xml_href = Ok (200, xml_body)
              ∧ normalise reaction_data_id d_url xml_body = Ok (Some entry))
    ∧ (∀ current_url it rest acc,
         is_ok (absolute urljoin current_url (url it)) = false →
         extract_all reaction_data_id current_url (it :: rest) acc = inl acc).
Proof.
  intros reaction_data_id d_url xml_text.
  split; [apply normalise_returns|split; [|split]].
  - intros e. unfold CRD.extract_record.
    destruct (session_get d_url) as [[status body]|e1] eqn:E1; simpl.
    2:{ intros [= <-]. right. left. by exists d_url. }
    destruct (Z.eqb status 200); [|done].
    destruct (find_xml_btn anchors_of body) as [btn|]; [|done].
    destruct (a_href btn) as [h|]; [|intros [= <-]; by left].
    destruct (absolute urljoin d_url h) as [xml_href|e0] eqn:E0; simpl.
    2:{ intros [= <-]. right. right. exists h. unfold absolute in E0.
        by destruct (startswith h "http"). }
    destruct (session_get xml_href) as [[status2 xml_body]|e2] eqn:E2; simpl.
    2:{ intros [= <-]. right. left. by eexists. }
    destruct (Z.eqb status2 200); [|done].
    destruct (normalise_returns reaction_data_id d_url xml_body) as [r Hr].
    fold normalise. by rewrite Hr.
  - intros entry. unfold CRD.extract_record.
    destruct (session_get d_url) as [[status body]|e1] eqn:E1; simpl; [|done].
    destruct (Z.eqb_spec status 200) as [->|]; [|done].
    destruct (find_xml_btn anchors_of body) as [btn|] eqn:Eb; [|done].
    destruct (a_href btn) as [h|] eqn:Eh; [|done].
    destruct (absolute urljoin d_url h) as [xml_href|e0] eqn:E0; simpl; [|done].
    destruct (session_get xml_href) as [[status2 xml_body]|e2] eqn:E2; simpl; [|done].
    destruct (Z.eqb_spec status2 200) as [->|]; [|done].
    intros Hn. by exists body, btn, h, xml_href, xml_body.
  - intros current_url it rest acc Hfail. simpl.
    by destruct (absolute urljoin current_url (url it)).
Qed.

(** ** The crawl *)

Lemma extract_all_appends reaction_data_id current_url found_items acc :
  acc `prefix_of` extracted (extract_all reaction_data_id current_url found_items acc).
Proof.
  revert acc. induction found_items as [|it rest IH]; intros acc; simpl; [done|].
  destruct (absolute _ _ _) as [d_url|]; simpl; [|done].
  destruct (try_except _ _) as [entry|]; [|apply IH].
  etrans; [|apply IH]. by eexists.
Qed.

Lemma crawl_page_appends reaction_data_id c :
  match crawl_page reaction_data_id c with
  | inl l => reaction_data_list c `prefix_of` l
  | inr c' =>
      reaction_data_list c `prefix_of` reaction_data_list c'
      ∧ page_num c' = page_num c + 1
      ∧ current_url c' ≠ current_url c
      ∧ nonempty (current_url c') = true
  end.
Proof.
  unfold CRD.crawl_page.
  destruct (driver_get (current_url c)) as [page|]; [|done].
  destruct (extract_list_items anchors_of page) as [|it its]; [done|].
  pose proof (extract_all_appends reaction_data_id (current_url c) (it :: its)
                (reaction_data_list c)) as Hpre.
  destruct (extract_all _ _ _ _) as [l|l]; simpl in Hpre; [done|].
  destruct (candidates page ≫= _) as [[href|]|] eqn:En; [|done..].
  destruct (nonempty href) eqn:Hne; [|done]. simpl.
  split; [done|]. split; [done|]. split; [|done].
  destruct (candidates page) as [cs|]; simpl in En; [|done].
  by destruct (NextFacts.next_link_sound _ _ _ En) as (? & _).
Qed.

Lemma crawl_loop_appends fuel reaction_data_id c :
  reaction_data_list c `prefix_of` records (crawl_loop fuel reaction_data_id c).
Proof.
  revert c. induction fuel as [|fuel IH]; intros c; simpl; [done|].
  destruct (nonempty (current_url c)); [|done].
  pose proof (crawl_page_appends reaction_data_id c) as Hp.
  destruct (crawl_page reaction_data_id c) as [l|c']; simpl; [done|].
  destruct Hp as (Hpre & _). etrans; [exact Hpre|apply IH].
Qed.

(** X17. [process_reaction_data] only ever appends to its record list: the
    records held at any point of the crawl are an initial part of what is
    returned, so a page that cannot be loaded ends the crawl with every
    record collected before it. Each page the crawl moves on to has a
    non-empty URL that differs from the one it leaves, and the page number
    goes up by one. An empty start URL returns the empty list without
    loading anything. *)
Theorem crawl_keeps_records :
  ∀ (fuel : nat) (reaction_data_id : string) (c : crawl),
    reaction_data_list c `prefix_of` records (crawl_loop fuel reaction_data_id c)
    ∧ (∀ c', crawl_page reaction_data_id c = inr c' →
             reaction_data_list c `prefix_of` reaction_data_list c'
             ∧ page_num c' = page_num c + 1
             ∧ current_url c' ≠ current_url c
             ∧ nonempty (current_url c') = true)
    ∧ (nonempty (current_url c) = true → is_ok (driver_get (current_url c)) = false →
       crawl_loop (S fuel) reaction_data_id c = Returned (reaction_data_list c))
    ∧ process_reaction_data (S fuel) "" reaction_data_id = Returned [].
Proof.
  intros fuel reaction_data_id c. split; [apply crawl_loop_appends|].
  split; [|split; [|done]].
  - intros c' Hc. pose proof (crawl_page_appends reaction_data_id c) as Hp.
    by rewrite Hc in Hp.
  - intros Hne Hfail. simpl. rewrite Hne. unfold CRD.crawl_page.
    by destruct (driver_get (current_url c)).
Qed.

End Site.

End CRDBehaviour.

(* ===================================================================== *)
(** * Further properties of [CRD.py]: [main] *)
(* ===================================================================== *)
Module CRDMainBehaviour.
Import Py Web PyText CRDMain TextFacts.

(** ** The selection *)

Lemma ints_of_too_long a x b :
  isdigit (strip x) = true →
  max_str_digits < Z.of_nat (String.length (strip x)) →
  ints_of (a ++ x :: b) = None.
Proof.
  intros Hx Hlen. induction a as [|y a IH]; simpl.
  - rewrite Hx, (py_int_digits _ Hx). by rewrite (proj2 (Z.ltb_lt _ _)).
  - rewrite IH. destruct (isdigit (strip y)); [|done]. by destruct (py_int (strip y)).
Qed.

Lemma ints_of_ignores a x b :
  isdigit (strip x) = false → ints_of (a ++ x :: b) = ints_of (a ++ b).
Proof.
  intros Hx. induction a as [|y a IH]; simpl; [by rewrite Hx|].
  destruct (isdigit (strip y)); [|done]. by rewrite IH.
Qed.

Lemma item_at_in_range {A} (l : list A) (i : Z) :
  1 ≤ i ≤ Z.of_nat (length l) →
  ∃ x, item_at l (i - 1) = Ok x ∧ l !! Z.to_nat (i - 1) = Some x.
Proof.
  intros Hi. unfold item_at. cbv zeta.
  rewrite !(proj2 (Z.ltb_ge (i - 1) 0)) by lia.
  destruct (l !! Z.to_nat (i - 1)) as [x|] eqn:E; [by exists x|].
  apply lookup_ge_None in E. lia.
Qed.

Lemma links_at_in_range (raw_links : list string) selected :
  Forall (λ i, 1 ≤ i ≤ Z.of_nat (length raw_links)) selected →
  ∃ links, links_at raw_links selected = Ok links
           ∧ Forall2 (λ i link, raw_links !! Z.to_nat (i - 1) = Some link) selected links.
Proof.
  induction 1 as [|i l Hi _ (links & IH & Hall)]; simpl; [by exists []|].
  destruct (item_at_in_range raw_links i Hi) as (x & -> & Hx). rewrite IH. simpl.
  exists (x :: links). split; [done|]. by constructor.
Qed.

Lemma links_at_run (raw_links : list string) (k n : nat) :
  (k + n ≤ length raw_links)%nat →
  links_at raw_links (seqZ (Z.of_nat k + 1) (Z.of_nat n)) = Ok (take n (drop k raw_links)).
Proof.
  revert k. induction n as [|n IH]; intros k Hn; [done|].
  rewrite seqZ_cons by lia. simpl.
  destruct (item_at_in_range raw_links (Z.of_nat k + 1)) as (x & -> & Hx); [lia|].
  replace (Z.to_nat (Z.of_nat k + 1 - 1)) with k in Hx by lia.
  replace (Z.succ (Z.of_nat k + 1)) with (Z.of_nat (S k) + 1) by lia.
  replace (Z.pred (Z.of_nat (S n))) with (Z.of_nat n) by lia.
  rewrite IH by lia. simpl. by rewrite (drop_S _ _ _ Hx).
Qed.

Lemma links_at_first (raw_links : list string) (n : nat) :
  (n ≤ length raw_links)%nat →
  links_at raw_links (seqZ 1 (Z.of_nat n)) = Ok (take n raw_links).
Proof. intros Hn. by apply (links_at_run raw_links 0 n). Qed.

(** X18. The selection dialogue of [main] ends only with a usable
    selection. On lines of ASCII text a pass never raises, and when it
    accepts, the count typed is the number of indices, it is positive and
    at most the number of archive links, every index lies between 1 and
    that number, and [final_links] holds the link at each index, in the
    order typed; above 10 the indices are 1 to the count and the links the
    first ones of the archive. An ASCII token that is not a digit string is
    ignored rather than rejected, and a digit string of more than 4300
    digits, which [int] refuses, makes the pass ask again. The dialogue as
    a whole can fail only by running out of input. *)
Theorem selection_is_usable :
  ∀ (raw_links : list string) (limit_input selection_input : string) (lines : list string),
    is_ascii limit_input = true →
    is_ascii selection_input = true →
    Forall (λ line, is_ascii line = true) lines →
    match select_round raw_links limit_input selection_input with
    | Raise _ => False
    | Ok Again => True
    | Ok (Chosen selected_indices final_links) =>
        py_int limit_input = Some (Z.of_nat (length selected_indices))
        ∧ (0 < length selected_indices ≤ length raw_links)%nat
        ∧ Forall2 (λ i link, 1 ≤ i ≤ Z.of_nat (length raw_links)
                             ∧ raw_links !! Z.to_nat (i - 1) = Some link)
            selected_indices final_links
        ∧ ((10 < length selected_indices)%nat →
           selected_indices = seqZ 1 (Z.of_nat (length selected_indices))
           ∧ final_links = take (length selected_indices) raw_links)
    end
    ∧ (∀ a x b, Forall (λ t, is_ascii t = true) (a ++ x :: b) →
                isdigit (strip x) = false → ints_of (a ++ x :: b) = ints_of (a ++ b))
    ∧ (∀ a x b, isdigit (strip x) = true →
                max_str_digits < Z.of_nat (String.length (strip x)) →
                ints_of (a ++ x :: b) = None)
    ∧ match dialogue raw_links lines with
      | Raise e => e = Exception "EOF when reading a line"
      | Ok (selected_indices, final_links) =>
          (0 < length selected_indices ≤ length raw_links)%nat
          ∧ Forall2 (λ i link, 1 ≤ i ≤ Z.of_nat (length raw_links)
                               ∧ raw_links !! Z.to_nat (i - 1) = Some link)
              selected_indices final_links
      end.
Proof.
  intros raw_links limit_input selection_input lines _ _ _.
  assert (∀ limit_input selection_input,
            match select_round raw_links limit_input selection_input with
            | Raise _ => False
            | Ok Again => True
            | Ok (Chosen selected_indices final_links) =>
                py_int limit_input = Some (Z.of_nat (length selected_indices))
                ∧ (0 < length selected_indices ≤ length raw_links)%nat
                ∧ Forall2 (λ i link, 1 ≤ i ≤ Z.of_nat (length raw_links)
                                     ∧ raw_links !! Z.to_nat (i - 1) = Some link)
                    selected_indices final_links
                ∧ ((10 < length selected_indices)%nat →
                   selected_indices = seqZ 1 (Z.of_nat (length selected_indices))
                   ∧ final_links = take (length selected_indices) raw_links)
            end) as Hround.
  { clear. intros limit_input selection_input. unfold select_round.
    destruct (py_int limit_input) as [n|]; [|done].
    destruct (Z.leb_spec n 0); [done|].
    destruct (Z.ltb_spec (Z.of_nat (length raw_links)) n); [done|].
    destruct (Z.ltb_spec 10 n).
    - rewrite <- (Z2Nat.id n) by lia.
      rewrite links_at_first by lia. simpl. rewrite length_seqZ, Nat2Z.id.
      split; [done|]. split; [lia|]. split; [|done].
      assert (Z.to_nat n ≤ length raw_links)%nat as Hn by lia.
      revert Hn. generalize (Z.to_nat n). clear. intros k Hk.
      apply Forall2_same_length_lookup. split.
      { rewrite length_seqZ, length_take. lia. }
      intros j i link Hi Hl. apply lookup_seqZ in Hi as [-> Hj].
      apply lookup_take_Some in Hl as [Hl _].
      split; [lia|]. by replace (Z.to_nat (1 + Z.of_nat j - 1)) with j by lia.
    - destruct (ints_of (split "," selection_input)) as [sel|]; [|done].
      destruct (Z.eqb_spec (Z.of_nat (length sel)) n) as [<-|]; [|done]. simpl.
      destruct (existsb _ sel) eqn:Ex; [done|].
      assert (Forall (λ i, 1 ≤ i ≤ Z.of_nat (length raw_links)) sel) as Hvalid.
      { apply Forall_forall. intros i Hi%list_elem_of_In.
        destruct (Z.ltb_spec i 1) as [Hlt|Hge], (Z.ltb_spec (Z.of_nat (length raw_links)) i)
          as [Hlt'|Hge']; [..|lia].
        all: exfalso; apply not_true_iff_false in Ex; apply Ex, existsb_exists;
          exists i; split; [done|].
        all: apply orb_true_iff; first [left; apply Z.ltb_lt; lia|right; apply Z.ltb_lt; lia]. }
      destruct (links_at_in_range raw_links sel Hvalid) as (links & -> & Hlinks). simpl.
      split; [done|]. split; [lia|]. split; [|lia].
      clear -Hvalid Hlinks. induction Hlinks as [|i link sel links Hl _ IH]; [done|].
      apply Forall_cons in Hvalid as [Hi Hvalid]. constructor; [by split|by apply IH]. }
  split; [apply Hround|]. split; [intros a x b _; apply ints_of_ignores|].
  split; [apply ints_of_too_long|].
  clear limit_input selection_input.
  cut (∀ (n : nat) lines, (length lines ≤ n)%nat →
         match dialogue raw_links lines with
         | Raise e => e = Exception "EOF when reading a line"
         | Ok (selected_indices, final_links) =>
             (0 < length selected_indices ≤ length raw_links)%nat
             ∧ Forall2 (λ i link, 1 ≤ i ≤ Z.of_nat (length raw_links)
                                  ∧ raw_links !! Z.to_nat (i - 1) = Some link)
                 selected_indices final_links
         end).
  { intros Hd. by apply (Hd (length lines)). }
  clear lines. induction n as [|n IH]; intros lines Hn.
  { destruct lines; [done|simpl in Hn; lia]. }
  destruct lines as [|limit_input rest]; [done|]. simpl in Hn |- *.
  destruct (asks_selection raw_links limit_input).
  - destruct rest as [|selection_input rest']; [done|].
    pose proof (Hround limit_input selection_input) as Hr.
    destruct (select_round raw_links limit_input selection_input) as [[|sel links]|];
      [|tauto|done].
    apply IH. simpl in Hn. lia.
  - pose proof (Hround limit_input "") as Hr.
    destruct (select_round raw_links limit_input "") as [[|sel links]|]; [|tauto|done].
    apply IH. lia.
Qed.

(** Two of three archive links are asked for; the first answer names a
    link that does not exist, the second one is accepted. *)
Lemma selection_is_usable_witness :
  select_round ["/archive/a"; "/archive/b"; "/archive/c"] "2" "1, 3"
  = Ok (Chosen [1; 3] ["/archive/a"; "/archive/c"])
  ∧ dialogue ["/archive/a"; "/archive/b"; "/archive/c"] ["2"; "1, 4"; "2"; "1, 3"]
    = Ok ([1; 3], ["/archive/a"; "/archive/c"])
  ∧ match dialogue ["/archive/a"; "/archive/b"; "/archive/c"]
            ["2"; "1, 4"; "2"; "1, 3"] with
    | Raise e => e = Exception "EOF when reading a line"
    | Ok (selected_indices, final_links) =>
        (0 < length selected_indices ≤ 3)%nat
        ∧ Forall2 (λ i link, 1 ≤ i ≤ 3
                             ∧ ["/archive/a"; "/archive/b"; "/archive/c"] !! Z.to_nat (i - 1)
                               = Some link)
            selected_indices final_links
    end.
Proof.
  split; [reflexivity|]. split; [reflexivity|].
  apply (selection_is_usable ["/archive/a"; "/archive/b"; "/archive/c"] "2" "1, 3"
           ["2"; "1, 4"; "2"; "1, 3"]).
  - reflexivity.
  - reflexivity.
  - repeat constructor.
Defined.

(** ** The origin label *)

Lemma list_index_first (l : list string) (x : string) (i : nat) :
  l !! i = Some x →
  ∃ j : nat, list_index l x = Some (Z.of_nat j) ∧ (j ≤ i)%nat ∧ l !! j = Some x
             ∧ ∀ k, (k < j)%nat → l !! k ≠ Some x.
Proof.
  revert i. induction l as [|y l IH]; intros i Hi; [done|]. simpl.
  destruct (String.eqb_spec y x) as [->|Hne].
  - exists 0%nat. repeat split; [lia|]. intros k Hk. lia.
  - destruct i as [|i]; [by injection Hi|]. simpl in Hi.
    destruct (IH i Hi) as (j & -> & Hj & Hl & Hfirst). exists (S j). simpl.
    split; [f_equal; lia|]. split; [lia|]. split; [done|].
    intros [|k] Hk; simpl; [by intros [= ?]|]. apply Hfirst. lia.
Qed.

(** X19. The number in a record's [Reaction_Data_Origin] is the first
    position of its link in the archive list, counted from 1: for the link
    selected by number [i + 1], looking it up again never fails, the number
    found is at most [i + 1], and it is [i + 1] when the archive lists no
    link twice. When a link occurs twice, both selections are labelled with
    the earlier number. *)
Theorem origin_is_first_position :
  ∀ (raw_links : list string) (i : nat) (link : string),
    raw_links !! i = Some link →
    ∃ j : nat,
      origin_label raw_links link = Some (pretty (Z.of_nat j + 1) +:+ "_" +:+ link)
      ∧ (j ≤ i)%nat
      ∧ raw_links !! j = Some link
      ∧ (∀ k, (k < j)%nat → raw_links !! k ≠ Some link)
      ∧ (NoDup raw_links → j = i).
Proof.
  intros raw_links i link Hi.
  destruct (list_index_first raw_links link i Hi) as (j & Hidx & Hj & Hl & Hfirst).
  exists j. unfold origin_label. rewrite Hidx. simpl.
  repeat split; [done..|].
  intros Hnd. by apply (NoDup_lookup raw_links j i link).
Qed.

(** The second of two equal links is labelled with the first one's
    number. *)
Lemma origin_is_first_position_witness :
  ∃ j : nat,
    origin_label ["/archive/a"; "/archive/a"] "/archive/a"
    = Some (pretty (Z.of_nat j + 1) +:+ "_" +:+ "/archive/a")
    ∧ (j ≤ 1)%nat
    ∧ ["/archive/a"; "/archive/a"] !! j = Some "/archive/a"
    ∧ (∀ k, (k < j)%nat → ["/archive/a"; "/archive/a"] !! k ≠ Some "/archive/a")
    ∧ (NoDup ["/archive/a"; "/archive/a"] → j = 1%nat).
Proof.
  apply (origin_is_first_position ["/archive/a"; "/archive/a"] 1 "/archive/a").
  reflexivity.
Defined.

(** ** The exports *)

Lemma assoc_filter_ne {V} (k k' : string) (d : list (string * V)) :
  k ≠ k' →
  assoc k (List.filter (λ kv, negb (String.eqb (fst kv) k')) d) = assoc k d.
Proof.
  intros Hne. induction d as [|[k0 v] d IH]; simpl; [done|].
  destruct (String.eqb_spec k0 k') as [->|Hk0]; simpl.
  - destruct (String.eqb_spec k k'); [done|exact IH].
  - destruct (String.eqb_spec k k0); [done|exact IH].
Qed.

Lemma assoc_filter_eq {V} (k : string) (d : list (string * V)) :
  assoc k (List.filter (λ kv, negb (String.eqb (fst kv) k)) d) = None.
Proof.
  induction d as [|[k0 v] d IH]; simpl; [done|].
  destruct (String.eqb_spec k0 k) as [->|Hk0]; simpl; [exact IH|].
  destruct (String.eqb_spec k k0); [congruence|exact IH].
Qed.

Lemma chemical_rows_dicts chemicals rows :
  forallb is_dict chemicals = true →
  chemical_rows chemicals rows
  = Ok (rows ++ map (λ chem, [ lookup_or chem "role" (PStr "");
                               lookup_or chem "name" (PStr "");
                               lookup_or chem "smiles" (PStr "") ]) chemicals).
Proof.
  revert rows. induction chemicals as [|c l IH]; intros rows Hd; simpl.
  - by rewrite app_nil_r.
  - simpl in Hd. apply andb_true_iff in Hd as [Hc Hl].
    unfold chemical_row. rewrite !(NormaliserFacts.get_dict c _ _ Hc). simpl.
    rewrite IH by done. by rewrite <- app_assoc.
Qed.

Lemma clean_record_drops (d : list (string * pyval)) :
  ∃ d', clean_record (PDict d) = Ok (PDict d')
        ∧ assoc "all_chemicals_raw" d' = None
        ∧ ∀ k, k ≠ "all_chemicals_raw" → assoc k d' = assoc k d.
Proof.
  eexists. split; [reflexivity|]. split; [apply assoc_filter_eq|].
  intros k Hk. by apply assoc_filter_ne.
Qed.

Lemma csv_block_components (d : list (string * pyval)) rows chemicals :
  assoc "all_chemicals_raw" d = Some (PList chemicals) →
  chemicals ≠ [] → forallb is_dict chemicals = true →
  csv_block (PDict d) rows
  = Ok (rows
        ++ [ [PStr "Reaction_Data_Origin:";
              lookup_or (PDict d) "Reaction_Data_Origin" (PStr "")];
             [PStr "details_url:"; lookup_or (PDict d) "details_url" (PStr "")];
             [PStr "smiles:"; lookup_or (PDict d) "smiles" (PStr "")];
             [];
             [PStr "Role"; PStr "Name"; PStr "Smiles"] ]
        ++ map (λ chem, [ lookup_or chem "role" (PStr "");
                          lookup_or chem "name" (PStr "");
                          lookup_or chem "smiles" (PStr "") ]) chemicals
        ++ [[]; [PStr divider]; []]).
Proof.
  intros Hc Hne Hd. unfold csv_block. simpl. rewrite Hc. simpl.
  assert (match chemicals with [] => false | _ :: _ => true end = true) as ->
    by (by destruct chemicals).
  rewrite chemical_rows_dicts by done. simpl.
  by rewrite <- !app_assoc.
Qed.

(** X20. What the exports do with a record of [format_reaction_data].
    For a non-empty component list whose roles are not the names of base
    fields, the JSON copy is the record without [all_chemicals_raw] and
    with every other field as it was, and the CSV block has the three
    label rows with the record's origin, URL and reaction SMILES, an empty
    row, the column header, one row per component with its role, name and
    SMILES in list order, and the three closing rows. The line
    [No chemicals found] is never written for such a record. *)
Theorem exports_of_a_record :
  ∀ (parsed_data metadata raw_smiles : pyval) (chemicals : list pyval)
    (rows : list (list pyval)),
    getitem parsed_data "chemicals" = Ok (PList chemicals) →
    getitem parsed_data "raw_smiles" = Ok raw_smiles →
    is_dict metadata = true →
    forallb CRD.wf_chemical chemicals = true →
    chemicals ≠ [] →
    (∀ c, c ∈ chemicals →
          CRD.role_of c ∉ ["Reaction_Data_Origin"; "details_url"; "smiles";
                           "all_chemicals_raw"]) →
    ∃ d d',
      CRD.format_reaction_data parsed_data metadata = Ok (PDict d)
      ∧ clean_record (PDict d) = Ok (PDict d')
      ∧ assoc "all_chemicals_raw" d' = None
      ∧ (∀ k, k ≠ "all_chemicals_raw" → assoc k d' = assoc k d)
      ∧ csv_block (PDict d) rows
        = Ok (rows
              ++ [ [PStr "Reaction_Data_Origin:";
                    lookup_or metadata "Reaction_Data_Origin" PNone];
                   [PStr "details_url:"; lookup_or metadata "details_url" PNone];
                   [PStr "smiles:"; raw_smiles];
                   [];
                   [PStr "Role"; PStr "Name"; PStr "Smiles"] ]
              ++ map (λ chem, [ lookup_or chem "role" (PStr "");
                                lookup_or chem "name" (PStr "");
                                lookup_or chem "smiles" (PStr "") ]) chemicals
              ++ [[]; [PStr divider]; []]).
Proof.
  intros parsed_data metadata raw_smiles chemicals rows Hc Hs Hm Hwf Hne Hfree.
  destruct (CRDBehaviour.base_fields_stored parsed_data metadata raw_smiles chemicals
              Hc Hs Hm Hwf Hfree) as (d & Hf & Ho & Hu & Hr & Ha).
  destruct (clean_record_drops d) as (d' & Hclean & Hnone & Hsame).
  exists d, d'. split; [done|]. split; [done|]. split; [done|]. split; [done|].
  rewrite (csv_block_components d rows chemicals Ha Hne).
  - simpl. by rewrite Ho, Hu, Hr.
  - apply forallb_forall. intros c Hin. rewrite forallb_forall in Hwf.
    specialize (Hwf c Hin). unfold CRD.wf_chemical in Hwf.
    by apply andb_true_iff in Hwf as [[? _]%andb_true_iff _].
Qed.

Lemma exports_of_a_record_witness :
  ∃ d d',
    CRD.format_reaction_data Scenario.xyz Scenario.origin = Ok (PDict d)
    ∧ clean_record (PDict d) = Ok (PDict d')
    ∧ assoc "all_chemicals_raw" d' = None
    ∧ (∀ k, k ≠ "all_chemicals_raw" → assoc k d' = assoc k d)
    ∧ csv_block (PDict d) []
      = Ok ([]
            ++ [ [PStr "Reaction_Data_Origin:";
                  lookup_or Scenario.origin "Reaction_Data_Origin" PNone];
                 [PStr "details_url:"; lookup_or Scenario.origin "details_url" PNone];
                 [PStr "smiles:"; PStr ""];
                 [];
                 [PStr "Role"; PStr "Name"; PStr "Smiles"] ]
            ++ map (λ chem, [ lookup_or chem "role" (PStr "");
                              lookup_or chem "name" (PStr "");
                              lookup_or chem "smiles" (PStr "") ])
                 [Scenario.chem "X" "reactant"; Scenario.chem "Y" "REACTANT";
                  Scenario.chem "Z" "product"]
            ++ [[]; [PStr divider]; []]).
Proof.
  apply (exports_of_a_record Scenario.xyz Scenario.origin (PStr "")
           [Scenario.chem "X" "reactant"; Scenario.chem "Y" "REACTANT";
            Scenario.chem "Z" "product"] []); try reflexivity; [done|].
  intros c Hc.
  repeat (apply elem_of_cons in Hc as [->|Hc];
          [apply (bool_decide_unpack _); vm_compute; exact I|]).
  by apply elem_of_nil in Hc.
Defined.

End CRDMainBehaviour.
